(** * Connect page: the social-graph reconciler of [src/pages/Connect.tsx]

    A shallow embedding of the data-loading functions, the change-event
    callbacks, the mutating handlers and the toast queue of the Connect
    component, over a relational model of the remote store.

    Conventions.
    - A JavaScript string is its sequence of UTF-16 code units, [list N].
    - The remote store is a record of tables, each a list of rows in
      table order.  A gateway call either returns rows / performs its
      write, returns [{ error }] without touching the store, or makes
      the awaited promise reject; which of the three happens is read off
      a schedule carried by the world.
    - Every async function runs to completion before the next event is
      taken: the model has no interleaving at [await].  A handler reads
      the state of the render that created it, which is then the state
      it starts in.
    - [setTimeout] enqueues a task with its due time; the event loop
      fires the earliest pending task at that time. *)

From stdpp Require Import base option list gmap numbers strings sorting.

Open Scope Z_scope.

(** ** Strings *)

Abbreviation str := (list N).

(** An ASCII literal as code units. *)
Definition lit (s : string) : str :=
  fmap Ascii.N_of_ascii (String.list_ascii_of_string s).

(** [a || b] on strings: the empty string is falsy. *)
Definition str_or (a b : str) : str :=
  match a with [] => b | _ => a end.

(** WhiteSpace and LineTerminator code points of ECMAScript, the ones
    [String.prototype.trim] strips. *)
Definition is_white_space (c : N) : bool :=
  match c with
  | 0x09 | 0x0A | 0x0B | 0x0C | 0x0D | 0x20 | 0xA0 | 0x1680
  | 0x2028 | 0x2029 | 0x202F | 0x205F | 0x3000 | 0xFEFF => true
  | _ => ((0x2000 <=? c) && (c <=? 0x200A))%N
  end%N.

Fixpoint trim_start (s : str) : str :=
  match s with
  | c :: s' => if is_white_space c then trim_start s' else s
  | [] => []
  end.

Definition trim (s : str) : str := rev (trim_start (rev (trim_start s))).

(** Truthiness of a string. *)
Definition truthy (s : str) : bool :=
  match s with [] => false | _ => true end.

(** ** Rows of the remote relations *)

Inductive account_type := creator | member.
Inductive connection_kind := follow | colleague.
Inductive request_status := pending | accepted | rejected.

#[global] Instance account_type_eq_dec : EqDecision account_type.
Proof. solve_decision. Defined.
#[global] Instance connection_kind_eq_dec : EqDecision connection_kind.
Proof. solve_decision. Defined.
#[global] Instance request_status_eq_dec : EqDecision request_status.
Proof. solve_decision. Defined.

Record profile := {
  p_id : str;
  p_name : str;
  p_avatar_url : str;
  p_tier : str;
  p_followers : Z;
  p_bio : str;
  p_created_at : str;
  p_account_type : account_type;
}.

Record member_connection := {
  member_id : str;
  connected_user_id : str;
  connection_type : connection_kind;
  mc_status : str;
}.

Record media_page_follow := {
  follower_id : str;
  creator_name : str;
}.

Record connection_request := {
  cr_id : N;
  sender_id : str;
  recipient_id : str;
  cr_message : option str;
  cr_status : request_status;
}.

Record message_row := {
  msg_id : N;
  msg_sender_id : str;
  msg_recipient_id : str;
  msg_content : str;
  msg_timestamp : N;
  msg_read : bool;
}.

Record database := {
  profiles : list profile;
  member_connections : list member_connection;
  media_page_follows : list media_page_follow;
  connection_requests : list connection_request;
  messages_table : list message_row;
}.

(** ** The component's own types *)

Module Creator.
Record t := {
  id : str;
  name : str;
  avatar_url : str;
  tier : str;
  followers : Z;
  bio : str;
  followed : bool;
  created_at : str;
}.
Definition with_followed (b : bool) (c : t) : t :=
  {| id := id c; name := name c; avatar_url := avatar_url c; tier := tier c;
     followers := followers c; bio := bio c; followed := b;
     created_at := created_at c |}.
Definition with_followers (n : Z) (c : t) : t :=
  {| id := id c; name := name c; avatar_url := avatar_url c; tier := tier c;
     followers := n; bio := bio c; followed := followed c;
     created_at := created_at c |}.
End Creator.

Inductive request_view := req_pending | req_none.

Module Member.
(** [followers] and [requestStatus] are absent from the objects that
    [loadMembers] writes to the cache: the profile query does not
    select [followers], and the cached copy only adds [connected]. *)
Record t := {
  id : str;
  name : str;
  avatar_url : str;
  tier : str;
  bio : str;
  followers : option Z;
  connected : bool;
  requestStatus : option request_view;
}.
Definition with_connected (b : bool) (m : t) : t :=
  {| id := id m; name := name m; avatar_url := avatar_url m; tier := tier m;
     bio := bio m; followers := followers m; connected := b;
     requestStatus := requestStatus m |}.
Definition with_followers (n : Z) (m : t) : t :=
  {| id := id m; name := name m; avatar_url := avatar_url m; tier := tier m;
     bio := bio m; followers := Some n; connected := connected m;
     requestStatus := requestStatus m |}.
Definition with_requestStatus (r : request_view) (m : t) : t :=
  {| id := id m; name := name m; avatar_url := avatar_url m; tier := tier m;
     bio := bio m; followers := followers m; connected := connected m;
     requestStatus := Some r |}.
End Member.

Module Connection.
Record t := {
  id : str;
  name : str;
  avatar_url : str;
  role : account_type;
  bio : str;
  isFollowing : bool;
}.
End Connection.

Module Message.
Record t := {
  id : N;
  sender_id : str;
  sender_name : str;
  sender_avatar : str;
  content : str;
  timestamp : N;
  read : bool;
}.
End Message.

Inductive toast_type := success | error.

Module Toast.
Record t := {
  id : str;
  type : toast_type;
  message : str;
}.
End Toast.

#[global] Instance toast_type_eq_dec : EqDecision toast_type.
Proof. solve_decision. Defined.
#[global] Instance toast_eq_dec : EqDecision Toast.t.
Proof. solve_decision. Defined.

(** ** The world: remote store, local storage, React state, event loop *)

(** What a gateway call does. *)
Inductive outcome :=
| Served      (* the call is performed; [error] is null *)
| Refused     (* nothing is performed; the call returns [{ error }] *)
| Crashed.    (* nothing is performed; the awaited promise rejects *)

(** What [setTimeout] was given. *)
Inductive task :=
| ReloadCreators
| ReloadMembers
| RemoveToast (id : str).

#[global] Instance task_eq_dec : EqDecision task.
Proof. solve_decision. Defined.

Record local_storage := {
  available : bool;   (* [false]: every access throws, and is caught *)
  connect_creators_cache : option (list Creator.t);
  connect_members_cache : option (list Member.t);
}.

Record view := {
  creators : list Creator.t;
  members : list Member.t;
  connections : list Connection.t;
  messages : list Message.t;
  creatorsLoaded : bool;
  membersLoaded : bool;
  selectedConnection : option Connection.t;
  messageInput : str;
  pendingRequests : gmap str bool;
}.

Record World := {
  user : str;                   (* [user.id] of the signed-in member *)
  db : database;
  net : list outcome;           (* outcomes of the gateway calls to come;
                                   past its end every call is served *)
  storage : local_storage;
  ui : view;
  toasts : list Toast.t;
  now : N;                      (* milliseconds *)
  timers : list (N * task);     (* due time, task; in [setTimeout] order *)
  entropy : nat -> str;         (* the identifiers [Math.random] yields *)
  draws : nat;                  (* how many were drawn *)
}.

Definition set_db (f : database -> database) (w : World) : World :=
  {| user := user w; db := f (db w); net := net w; storage := storage w;
     ui := ui w; toasts := toasts w; now := now w; timers := timers w;
     entropy := entropy w; draws := draws w |}.
Definition set_net (l : list outcome) (w : World) : World :=
  {| user := user w; db := db w; net := l; storage := storage w;
     ui := ui w; toasts := toasts w; now := now w; timers := timers w;
     entropy := entropy w; draws := draws w |}.
Definition set_storage (f : local_storage -> local_storage) (w : World) : World :=
  {| user := user w; db := db w; net := net w; storage := f (storage w);
     ui := ui w; toasts := toasts w; now := now w; timers := timers w;
     entropy := entropy w; draws := draws w |}.
Definition set_ui (f : view -> view) (w : World) : World :=
  {| user := user w; db := db w; net := net w; storage := storage w;
     ui := f (ui w); toasts := toasts w; now := now w; timers := timers w;
     entropy := entropy w; draws := draws w |}.
Definition set_toasts (f : list Toast.t -> list Toast.t) (w : World) : World :=
  {| user := user w; db := db w; net := net w; storage := storage w;
     ui := ui w; toasts := f (toasts w); now := now w; timers := timers w;
     entropy := entropy w; draws := draws w |}.
Definition set_now (t : N) (w : World) : World :=
  {| user := user w; db := db w; net := net w; storage := storage w;
     ui := ui w; toasts := toasts w; now := t; timers := timers w;
     entropy := entropy w; draws := draws w |}.
Definition set_timers (f : list (N * task) -> list (N * task)) (w : World) : World :=
  {| user := user w; db := db w; net := net w; storage := storage w;
     ui := ui w; toasts := toasts w; now := now w; timers := f (timers w);
     entropy := entropy w; draws := draws w |}.
Definition set_draws (n : nat) (w : World) : World :=
  {| user := user w; db := db w; net := net w; storage := storage w;
     ui := ui w; toasts := toasts w; now := now w; timers := timers w;
     entropy := entropy w; draws := n |}.

Definition with_creators (l : list Creator.t) (v : view) : view :=
  {| creators := l; members := members v; connections := connections v;
     messages := messages v; creatorsLoaded := creatorsLoaded v;
     membersLoaded := membersLoaded v; selectedConnection := selectedConnection v;
     messageInput := messageInput v; pendingRequests := pendingRequests v |}.
Definition with_members (l : list Member.t) (v : view) : view :=
  {| creators := creators v; members := l; connections := connections v;
     messages := messages v; creatorsLoaded := creatorsLoaded v;
     membersLoaded := membersLoaded v; selectedConnection := selectedConnection v;
     messageInput := messageInput v; pendingRequests := pendingRequests v |}.
Definition with_connections (l : list Connection.t) (v : view) : view :=
  {| creators := creators v; members := members v; connections := l;
     messages := messages v; creatorsLoaded := creatorsLoaded v;
     membersLoaded := membersLoaded v; selectedConnection := selectedConnection v;
     messageInput := messageInput v; pendingRequests := pendingRequests v |}.
Definition with_messages (l : list Message.t) (v : view) : view :=
  {| creators := creators v; members := members v; connections := connections v;
     messages := l; creatorsLoaded := creatorsLoaded v;
     membersLoaded := membersLoaded v; selectedConnection := selectedConnection v;
     messageInput := messageInput v; pendingRequests := pendingRequests v |}.
Definition with_creatorsLoaded (b : bool) (v : view) : view :=
  {| creators := creators v; members := members v; connections := connections v;
     messages := messages v; creatorsLoaded := b;
     membersLoaded := membersLoaded v; selectedConnection := selectedConnection v;
     messageInput := messageInput v; pendingRequests := pendingRequests v |}.
Definition with_membersLoaded (b : bool) (v : view) : view :=
  {| creators := creators v; members := members v; connections := connections v;
     messages := messages v; creatorsLoaded := creatorsLoaded v;
     membersLoaded := b; selectedConnection := selectedConnection v;
     messageInput := messageInput v; pendingRequests := pendingRequests v |}.
Definition with_selectedConnection (c : option Connection.t) (v : view) : view :=
  {| creators := creators v; members := members v; connections := connections v;
     messages := messages v; creatorsLoaded := creatorsLoaded v;
     membersLoaded := membersLoaded v; selectedConnection := c;
     messageInput := messageInput v; pendingRequests := pendingRequests v |}.
Definition with_messageInput (s : str) (v : view) : view :=
  {| creators := creators v; members := members v; connections := connections v;
     messages := messages v; creatorsLoaded := creatorsLoaded v;
     membersLoaded := membersLoaded v; selectedConnection := selectedConnection v;
     messageInput := s; pendingRequests := pendingRequests v |}.
Definition with_pendingRequests (m : gmap str bool) (v : view) : view :=
  {| creators := creators v; members := members v; connections := connections v;
     messages := messages v; creatorsLoaded := creatorsLoaded v;
     membersLoaded := membersLoaded v; selectedConnection := selectedConnection v;
     messageInput := messageInput v; pendingRequests := m |}.

(** ** Computations: state and exceptions *)

Inductive result (A : Type) :=
| Returned (a : A) (w : World)
| Threw (w : World).
Arguments Returned {A} a w.
Arguments Threw {A} w.

Definition M (A : Type) : Type := World -> result A.

Definition ret {A} (a : A) : M A := fun w => Returned a w.

Definition bind {A B} (m : M A) (k : A -> M B) : M B := fun w =>
  match m w with
  | Returned a w' => k a w'
  | Threw w' => Threw w'
  end.

(** [try { body } catch { handler }] *)
Definition try_catch (body handler : M unit) : M unit := fun w =>
  match body w with
  | Returned a w' => Returned a w'
  | Threw w' => handler w'
  end.

Definition gets {A} (f : World -> A) : M A := fun w => Returned (f w) w.
Definition modify (f : World -> World) : M unit := fun w => Returned tt (f w).

(** The world a computation leaves behind, however it ended. *)
Definition final {A} (r : result A) : World :=
  match r with Returned _ w => w | Threw w => w end.
Definition exec {A} (m : M A) (w : World) : World := final (m w).

Declare Scope comp_scope.
Delimit Scope comp_scope with comp.
Bind Scope comp_scope with M.
Notation "x <- m ;; k" := (bind m (fun x => k))
  (at level 100, m at next level, right associativity) : comp_scope.
Notation "m ;; k" := (bind m (fun _ => k))
  (at level 100, right associativity) : comp_scope.
Notation "'when' b 'then' m" := (if b then m else ret tt)
  (at level 100, b at next level, right associativity) : comp_scope.
Open Scope comp_scope.

(** ** The remote data gateway *)

(** The outcome of the [i]-th gateway call to come. *)
Definition upcoming (l : list outcome) (i : nat) : outcome :=
  default Served (l !! i).

Definition is_served (o : outcome) : bool :=
  match o with Served => true | _ => false end.

(** The next [n] gateway calls are served. *)
Definition served (n : nat) (l : list outcome) : bool :=
  forallb is_served (take n l).

(** A read: [Some rows] is [{ data: rows, error: null }], [None] is
    [{ data: null, error }]. *)
Definition select {A} (q : database -> list A) : M (option (list A)) := fun w =>
  let w' := set_net (drop 1 (net w)) w in
  match upcoming (net w) 0 with
  | Served => Returned (Some (q (db w))) w'
  | Refused => Returned None w'
  | Crashed => Threw w'
  end.

(** A write: the result is whether [error] is set. *)
Definition mutate (f : database -> database) : M bool := fun w =>
  let w' := set_net (drop 1 (net w)) w in
  match upcoming (net w) 0 with
  | Served => Returned false (set_db f w')
  | Refused => Returned true w'
  | Crashed => Threw w'
  end.

(** Table updates. *)
Definition on_member_connections (f : list member_connection -> list member_connection)
    (d : database) : database :=
  {| profiles := profiles d; member_connections := f (member_connections d);
     media_page_follows := media_page_follows d;
     connection_requests := connection_requests d;
     messages_table := messages_table d |}.
Definition on_media_page_follows (f : list media_page_follow -> list media_page_follow)
    (d : database) : database :=
  {| profiles := profiles d; member_connections := member_connections d;
     media_page_follows := f (media_page_follows d);
     connection_requests := connection_requests d;
     messages_table := messages_table d |}.
Definition on_connection_requests (f : list connection_request -> list connection_request)
    (d : database) : database :=
  {| profiles := profiles d; member_connections := member_connections d;
     media_page_follows := media_page_follows d;
     connection_requests := f (connection_requests d);
     messages_table := messages_table d |}.
Definition on_messages (f : list message_row -> list message_row)
    (d : database) : database :=
  {| profiles := profiles d; member_connections := member_connections d;
     media_page_follows := media_page_follows d;
     connection_requests := connection_requests d;
     messages_table := f (messages_table d) |}.

(** The key the store gives a row inserted without an [id]. *)
Definition fresh_id (used : list N) : N := N.succ (foldr N.max 0%N used).

(** [.order('timestamp', { ascending: false })]; the store promises no
    order among equal timestamps, here they come in reverse table order. *)
Fixpoint insert_desc (m : message_row) (l : list message_row) : list message_row :=
  match l with
  | [] => [m]
  | x :: l' =>
      if (msg_timestamp x <? msg_timestamp m)%N then m :: l
      else x :: insert_desc m l'
  end.
Definition order_desc (l : list message_row) : list message_row :=
  foldr insert_desc [] l.

(** The embedded resource [alias:column (...)]: the profile the column refers to. *)
Definition profile_of (d : database) (i : str) : option profile :=
  List.find (fun p => bool_decide (p_id p = i)) (profiles d).

(** ** Local cache store *)

Definition getCachedCreators (s : local_storage) : option (list Creator.t) :=
  if available s then connect_creators_cache s else None.
Definition getCachedMembers (s : local_storage) : option (list Member.t) :=
  if available s then connect_members_cache s else None.

Definition setCachedCreators (data : list Creator.t) : M unit :=
  modify (set_storage (fun s =>
    if available s then
      {| available := true; connect_creators_cache := Some data;
         connect_members_cache := connect_members_cache s |}
    else s)).
Definition setCachedMembers (data : list Member.t) : M unit :=
  modify (set_storage (fun s =>
    if available s then
      {| available := true; connect_creators_cache := connect_creators_cache s;
         connect_members_cache := Some data |}
    else s)).
(** [localStorage.removeItem('connect_members_cache')] inside its [try]. *)
Definition removeCachedMembers : M unit :=
  modify (set_storage (fun s =>
    if available s then
      {| available := true; connect_creators_cache := connect_creators_cache s;
         connect_members_cache := None |}
    else s)).

(** The initial React state: the cached lists, or empty ones. *)
Definition initial_view (s : local_storage) : view :=
  {| creators := default [] (getCachedCreators s);
     members := default [] (getCachedMembers s);
     connections := []; messages := [];
     creatorsLoaded := bool_decide (is_Some (getCachedCreators s));
     membersLoaded := bool_decide (is_Some (getCachedMembers s));
     selectedConnection := None; messageInput := []; pendingRequests := ∅ |}.

(** ** State setters and timers *)

Definition setCreators (l : list Creator.t) : M unit := modify (set_ui (with_creators l)).
Definition setMembers (l : list Member.t) : M unit := modify (set_ui (with_members l)).
Definition setConnections (l : list Connection.t) : M unit := modify (set_ui (with_connections l)).
Definition setMessages (l : list Message.t) : M unit := modify (set_ui (with_messages l)).
Definition setCreatorsLoaded (b : bool) : M unit := modify (set_ui (with_creatorsLoaded b)).
Definition setMembersLoaded (b : bool) : M unit := modify (set_ui (with_membersLoaded b)).
Definition setMessageInput (s : str) : M unit := modify (set_ui (with_messageInput s)).
Definition setSelectedConnection (c : option Connection.t) : M unit :=
  modify (set_ui (with_selectedConnection c)).
Definition setPendingRequests (m : gmap str bool) : M unit :=
  modify (set_ui (with_pendingRequests m)).

Definition setTimeout (tk : task) (delay : N) : M unit :=
  modify (fun w => set_timers (fun l => l ++ [((now w + delay)%N, tk)]) w).

(** [Math.random().toString(36).substr(2, 9)] *)
Definition random_id : M str := fun w =>
  Returned (entropy w (draws w)) (set_draws (S (draws w)) w).

(** ** Notification dispatcher *)

Definition addToast (message : str) (type : toast_type) : M unit :=
  id <- random_id ;;
  let toast := {| Toast.id := id; Toast.type := type; Toast.message := message |} in
  modify (set_toasts (fun prev => prev ++ [toast])) ;;
  setTimeout (RemoveToast id) 4000.

(** The callback [addToast] schedules. *)
Definition removeToast (id : str) : M unit :=
  modify (set_toasts (fun prev => filter (fun t => Toast.id t ≠ id) prev)).

(** ** Social graph reconciler: the loads *)

Definition creator_of (ids names : gset str) (p : profile) : Creator.t :=
  {| Creator.id := p_id p; Creator.name := p_name p;
     Creator.avatar_url := p_avatar_url p; Creator.tier := p_tier p;
     Creator.followers := p_followers p; Creator.bio := p_bio p;
     Creator.followed := bool_decide (p_id p ∈ ids) || bool_decide (p_name p ∈ names);
     Creator.created_at := p_created_at p |}.

(** The three reads of [loadCreators]. *)
Definition creator_profiles (d : database) : list profile :=
  take 100 (filter (fun p => p_account_type p = creator) (profiles d)).
Definition follows_of (u : str) (d : database) : list str :=
  fmap connected_user_id
    (filter (fun c => member_id c = u ∧ connection_type c = follow)
            (member_connections d)).
Definition media_follows_of (u : str) (d : database) : list str :=
  fmap creator_name (filter (fun f => follower_id f = u) (media_page_follows d)).

Definition loadCreators : M unit :=
  try_catch
    (u <- gets user ;;
     r <- select creator_profiles ;;
     match r with
     | Some data =>
         memberConnectionsData <- select (follows_of u) ;;
         let followedViaConnectionIds : gset str :=
           list_to_set (default [] memberConnectionsData) in
         mediaFollowsData <- select (media_follows_of u) ;;
         let followedViaMediaNames : gset str :=
           list_to_set (default [] mediaFollowsData) in
         let creatorsWithFollowStatus :=
           fmap (creator_of followedViaConnectionIds followedViaMediaNames) data in
         setCreators creatorsWithFollowStatus ;;
         setCachedCreators creatorsWithFollowStatus ;;
         setCreatorsLoaded true
     | None => ret tt
     end)
    (addToast (lit "Failed to load creators") error).

(** The reads of [loadMembers]. *)
Definition member_profiles (u : str) (d : database) : list profile :=
  take 50 (filter (fun p => p_account_type p = member ∧ p_id p ≠ u) (profiles d)).
Definition outgoing_colleagues (u : str) (d : database) : list str :=
  fmap connected_user_id
    (filter (fun c => member_id c = u ∧ connection_type c = colleague)
            (member_connections d)).
Definition incoming_colleagues (u : str) (d : database) : list str :=
  fmap member_id
    (filter (fun c => connected_user_id c = u ∧ connection_type c = colleague)
            (member_connections d)).
Definition all_colleagues (d : database) : list member_connection :=
  filter (fun c => connection_type c = colleague) (member_connections d).
Definition sent_requests (u : str) (d : database) : list str :=
  fmap recipient_id
    (filter (fun r => sender_id r = u ∧ cr_status r = pending)
            (connection_requests d)).

(** One round of the [forEach] that fills [connectionCounts]. *)
Definition count_connection (counts : gmap str Z) (conn : member_connection)
    : gmap str Z :=
  let counts :=
    <[connected_user_id conn := default 0 (counts !! connected_user_id conn) + 1]> counts in
  <[member_id conn := default 0 (counts !! member_id conn) + 1]> counts.

Definition base_member (p : profile) : Member.t :=
  {| Member.id := p_id p; Member.name := p_name p;
     Member.avatar_url := p_avatar_url p; Member.tier := p_tier p;
     Member.bio := p_bio p; Member.followers := None;
     Member.connected := false; Member.requestStatus := None |}.

(** [pendingRequestsMap] is a plain object, here the finite map of its
    own properties; [connectionCounts] is a [Map] and [connectedWithIds]
    a [Set].  A plain object inherits the properties of
    [Object.prototype]: each holds a function, [__proto__] an accessor
    that yields the prototype itself, so each reads truthy through an
    object that has no own property of the name. *)
Definition object_prototype : list str :=
  lit <$> ["constructor"; "hasOwnProperty"; "isPrototypeOf"; "propertyIsEnumerable";
           "toLocaleString"; "toString"; "valueOf"; "__proto__";
           "__defineGetter__"; "__defineSetter__"; "__lookupGetter__";
           "__lookupSetter__"]%string.
Arguments object_prototype : simpl never.

(** [obj[k] = true].  The assignment makes an own property, except at
    [__proto__], where it calls the inherited setter, which ignores a
    value that is no object. *)
Definition assign_true (obj : gmap str bool) (k : str) : gmap str bool :=
  if bool_decide (k = lit "__proto__") then obj else <[k := true]> obj.

(** Whether [obj[k]] is truthy: the own property, else the inherited one. *)
Definition reads_truthy (obj : gmap str bool) (k : str) : bool :=
  match obj !! k with
  | Some b => b
  | None => bool_decide (k ∈ object_prototype)
  end.

Definition member_of (connectionCounts : gmap str Z) (connectedWithIds : gset str)
    (pendingRequestsMap : gmap str bool) (p : profile) : Member.t :=
  {| Member.id := p_id p; Member.name := p_name p;
     Member.avatar_url := p_avatar_url p; Member.tier := p_tier p;
     Member.bio := p_bio p;
     Member.followers := Some (default 0 (connectionCounts !! p_id p));
     Member.connected := bool_decide (p_id p ∈ connectedWithIds);
     Member.requestStatus :=
       Some (if reads_truthy pendingRequestsMap (p_id p)
             then req_pending else req_none) |}.

Definition loadMembers : M unit :=
  try_catch
    (u <- gets user ;;
     r <- select (member_profiles u) ;;
     match r with
     | Some data =>
         outgoingConnections <- select (outgoing_colleagues u) ;;
         incomingConnections <- select (incoming_colleagues u) ;;
         let connectedWithIds : gset str :=
           list_to_set (default [] outgoingConnections ++ default [] incomingConnections) in
         allConnectionsData <- select all_colleagues ;;
         let connectionCounts :=
           foldl count_connection ∅ (default [] allConnectionsData) in
         sentRequests <- select (sent_requests u) ;;
         let pendingRequestsMap : gmap str bool :=
           foldl assign_true ∅ (default [] sentRequests) in
         setPendingRequests pendingRequestsMap ;;
         let membersWithConnectionStatus :=
           fmap (member_of connectionCounts connectedWithIds pendingRequestsMap) data in
         setMembers membersWithConnectionStatus ;;
         let membersForCache := fmap base_member data in
         setCachedMembers membersForCache ;;
         setMembersLoaded true
     | None => ret tt
     end)
    (ret tt).

(** The two reads of [loadConnections], each with the embedded profile. *)
Definition outgoing_with_profiles (u : str) (d : database) : list (option profile) :=
  take 50 (fmap (profile_of d) (outgoing_colleagues u d)).
Definition incoming_with_profiles (u : str) (d : database) : list (option profile) :=
  take 50 (fmap (profile_of d) (incoming_colleagues u d)).

Definition connection_of (p : profile) : Connection.t :=
  {| Connection.id := p_id p; Connection.name := p_name p;
     Connection.avatar_url := p_avatar_url p; Connection.role := p_account_type p;
     Connection.bio := str_or (p_bio p) []; Connection.isFollowing := true |}.

(** One round of either [forEach] of [loadConnections]: the set of ids
    seen and the list built so far. *)
Definition add_connection (acc : gset str * list Connection.t) (conn : option profile)
    : gset str * list Connection.t :=
  match conn with
  | Some p =>
      if bool_decide (p_id p ∈ acc.1) then acc
      else ({[p_id p]} ∪ acc.1, acc.2 ++ [connection_of p])
  | None => acc
  end.

Definition loadConnections : M unit :=
  try_catch
    (u <- gets user ;;
     outgoingData <- select (outgoing_with_profiles u) ;;
     incomingData <- select (incoming_with_profiles u) ;;
     let acc := foldl add_connection (∅, []) (default [] outgoingData) in
     let acc := foldl add_connection acc (default [] incomingData) in
     setConnections acc.2)
    (ret tt).

Definition inbox (u : str) (d : database) : list (message_row * option profile) :=
  fmap (fun m => (m, profile_of d (msg_sender_id m)))
    (take 50 (order_desc (filter (fun m => msg_recipient_id m = u) (messages_table d)))).

Definition message_of (x : message_row * option profile) : Message.t :=
  {| Message.id := msg_id x.1; Message.sender_id := msg_sender_id x.1;
     Message.sender_name := str_or (from_option p_name [] x.2) (lit "Unknown");
     Message.sender_avatar := str_or (from_option p_avatar_url [] x.2) [];
     Message.content := msg_content x.1; Message.timestamp := msg_timestamp x.1;
     Message.read := msg_read x.1 |}.

Definition loadMessages : M unit :=
  try_catch
    (u <- gets user ;;
     r <- select (inbox u) ;;
     match r with
     | Some data => setMessages (fmap message_of data)
     | None => ret tt
     end)
    (ret tt).

(** ** Mutating operations *)

Definition follow_edge (u : str) (c : Creator.t) : member_connection :=
  {| member_id := u; connected_user_id := Creator.id c;
     connection_type := follow; mc_status := lit "active" |}.
Definition media_edge (u : str) (c : Creator.t) : media_page_follow :=
  {| follower_id := u; creator_name := Creator.name c |}.

Definition handleFollowCreator (c : Creator.t) : M unit :=
  u <- gets user ;;
  creators0 <- gets (fun w => creators (ui w)) ;;
  try_catch
    (connectionError <- mutate (on_member_connections (fun l => l ++ [follow_edge u c])) ;;
     mediaError <- mutate (on_media_page_follows (fun l => l ++ [media_edge u c])) ;;
     if negb connectionError && negb mediaError then
       setCreators
         (fmap (fun x => if bool_decide (Creator.id x = Creator.id c)
                        then Creator.with_followed true x else x) creators0) ;;
       addToast (lit "Now following " ++ Creator.name c) success ;;
       setTimeout ReloadCreators 1000
     else
       addToast (lit "Failed to follow creator") error)
    (addToast (lit "Failed to follow creator") error).

Definition handleUnfollowCreator (creatorId : str) : M unit :=
  u <- gets user ;;
  creators0 <- gets (fun w => creators (ui w)) ;;
  try_catch
    (match List.find (fun x => bool_decide (Creator.id x = creatorId)) creators0 with
     | None => addToast (lit "Creator not found") error
     | Some creatorToUnfollow =>
         connectionError <- mutate (on_member_connections
           (filter (fun e => ¬ (member_id e = u ∧ connected_user_id e = creatorId)))) ;;
         mediaError <- mutate (on_media_page_follows
           (filter (fun f => ¬ (follower_id f = u
                                ∧ creator_name f = Creator.name creatorToUnfollow)))) ;;
         if negb connectionError && negb mediaError then
           setCreators
             (fmap (fun x => if bool_decide (Creator.id x = creatorId)
                            then Creator.with_followed false x else x) creators0) ;;
           addToast (lit "Unfollowed creator") success ;;
           setTimeout ReloadCreators 1000
         else
           addToast (lit "Failed to unfollow creator") error
     end)
    (addToast (lit "Failed to unfollow creator") error).

Definition new_request (u : str) (m : Member.t) (d : database) : connection_request :=
  {| cr_id := fresh_id (fmap cr_id (connection_requests d));
     sender_id := u; recipient_id := Member.id m;
     cr_message := None; cr_status := pending |}.

Definition handleConnectMember (m : Member.t) : M unit :=
  u <- gets user ;;
  members0 <- gets (fun w => members (ui w)) ;;
  pendingRequests0 <- gets (fun w => pendingRequests (ui w)) ;;
  try_catch
    (err <- mutate (fun d => on_connection_requests (fun l => l ++ [new_request u m d]) d) ;;
     if negb err then
       setMembers
         (fmap (fun x => if bool_decide (Member.id x = Member.id m)
                        then Member.with_requestStatus req_pending x else x) members0) ;;
       setPendingRequests (<[Member.id m := true]> pendingRequests0) ;;
       addToast (lit "Connection request sent to " ++ Member.name m) success
     else
       addToast (lit "Failed to send connection request") error)
    (addToast (lit "Failed to send connection request") error).

(** The lookup that accept and decline share: the ids of the pending
    requests from [memberId] to the current user. *)
Definition pending_from (memberId u : str) (d : database) : list N :=
  fmap cr_id
    (filter (fun r => sender_id r = memberId ∧ recipient_id r = u ∧ cr_status r = pending)
            (connection_requests d)).

Definition with_status (s : request_status) (r : connection_request) : connection_request :=
  {| cr_id := cr_id r; sender_id := sender_id r; recipient_id := recipient_id r;
     cr_message := cr_message r; cr_status := s |}.

(** [.update({ status }).eq('id', i)] *)
Definition update_status (i : N) (s : request_status) : database -> database :=
  on_connection_requests
    (fmap (fun r => if bool_decide (cr_id r = i) then with_status s r else r)).

Definition colleague_edge (memberId u : str) : member_connection :=
  {| member_id := memberId; connected_user_id := u;
     connection_type := colleague; mc_status := lit "active" |}.

Definition handleAcceptConnectionRequest (memberId : str) : M unit :=
  u <- gets user ;;
  try_catch
    (requests <- select (pending_from memberId u) ;;
     match requests with
     | Some (request0 :: _) =>
         updateError <- mutate (update_status request0 accepted) ;;
         when negb updateError then
           connectionError <- mutate (on_member_connections
             (fun l => l ++ [colleague_edge memberId u])) ;;
           when negb connectionError then
             removeCachedMembers ;;
             addToast (lit "Connection accepted") success ;;
             setTimeout ReloadMembers 500
     | _ => ret tt
     end)
    (addToast (lit "Failed to accept connection request") error).

Definition handleDeclineConnectionRequest (memberId : str) : M unit :=
  u <- gets user ;;
  try_catch
    (requests <- select (pending_from memberId u) ;;
     match requests with
     | Some (request0 :: _) =>
         updateError <- mutate (update_status request0 rejected) ;;
         when negb updateError then
           addToast (lit "Connection request declined") success ;;
           setTimeout ReloadMembers 500
     | _ => ret tt
     end)
    (addToast (lit "Failed to decline connection request") error).

Definition handleDisconnectMember (memberId : str) : M unit :=
  u <- gets user ;;
  members0 <- gets (fun w => members (ui w)) ;;
  try_catch
    (error1 <- mutate (on_member_connections
       (filter (fun e => ¬ (member_id e = u ∧ connected_user_id e = memberId
                            ∧ connection_type e = colleague)))) ;;
     error2 <- mutate (on_member_connections
       (filter (fun e => ¬ (member_id e = memberId ∧ connected_user_id e = u
                            ∧ connection_type e = colleague)))) ;;
     if negb error1 || negb error2 then
       removeCachedMembers ;;
       setMembers
         (fmap (fun x => if bool_decide (Member.id x = memberId)
                        then Member.with_connected false x else x) members0) ;;
       addToast (lit "Disconnected") success ;;
       setTimeout ReloadMembers 500
     else
       addToast (lit "Failed to disconnect") error)
    (addToast (lit "Failed to disconnect") error).

Definition new_message (u : str) (to body : str) (t : N) (d : database) : message_row :=
  {| msg_id := fresh_id (fmap msg_id (messages_table d));
     msg_sender_id := u; msg_recipient_id := to; msg_content := body;
     msg_timestamp := t; msg_read := false |}.

Definition handleSendMessage : M unit :=
  u <- gets user ;;
  selected <- gets (fun w => selectedConnection (ui w)) ;;
  input <- gets (fun w => messageInput (ui w)) ;;
  match selected with
  | Some conn =>
      if truthy (trim input) then
        try_catch
          (t <- gets now ;;
           err <- mutate (fun d =>
             on_messages (fun l => l ++ [new_message u (Connection.id conn) input t d]) d) ;;
           when negb err then
             setMessageInput [] ;;
             loadMessages ;;
             addToast (lit "Message sent") success)
          (addToast (lit "Failed to send message") error)
      else ret tt
  | None => ret tt
  end.

(** ** Change-event reactor *)

(** [(a) member_connections of the current user] and
    [(b) media_page_follows of the current user]: reload the creators. *)
Definition on_follow_change : M unit := loadCreators.

(** [(c) UPDATE on profiles]: patch [followers] by id, in both lists,
    and store each patched list. *)
Definition on_profile_update (updatedProfile : profile) : M unit :=
  prevCreators <- gets (fun w => creators (ui w)) ;;
  (let updated :=
     fmap (fun c => if bool_decide (Creator.id c = p_id updatedProfile)
                   then Creator.with_followers (p_followers updatedProfile) c else c)
         prevCreators in
   setCachedCreators updated ;;
   setCreators updated) ;;
  prevMembers <- gets (fun w => members (ui w)) ;;
  (let updated :=
     fmap (fun m => if bool_decide (Member.id m = p_id updatedProfile)
                   then Member.with_followers (p_followers updatedProfile) m else m)
         prevMembers in
   setCachedMembers updated ;;
   setMembers updated).

(** A change notification: the row after and the row before. *)
Record payload (A : Type) := { new : option A; old : option A }.
Arguments new {A} _.
Arguments old {A} _.

(** [payload.new?.f || payload.old?.f] *)
Definition new_or_old {A} (f : A -> str) (p : payload A) : option str :=
  match f <$> new p with
  | Some (c :: s) => Some (c :: s)
  | _ => f <$> old p
  end.

(** [(d) any change of member_connections] *)
Definition on_member_connection_change (p : payload member_connection) : M unit :=
  u <- gets user ;;
  removeCachedMembers ;;
  loadMembers ;;
  let changedMemberId := new_or_old member_id p in
  let changedConnectedId := new_or_old connected_user_id p in
  when bool_decide (changedMemberId = Some u) || bool_decide (changedConnectedId = Some u)
  then loadConnections.

(** [(e) any change of connection_requests] *)
Definition on_connection_request_change (p : payload connection_request) : M unit :=
  u <- gets user ;;
  removeCachedMembers ;;
  loadMembers ;;
  let recipientId := new_or_old recipient_id p in
  when bool_decide (recipientId = Some u)
       && bool_decide (cr_status <$> new p = Some pending)
  then addToast (lit "You have a new connection request") success.

(** The effect that runs when the member signs in.  The loads of
    groups, teams and recommendations, which fill lists that nothing
    else reads, are left out. *)
Definition mount : M unit :=
  loadCreators ;; loadMembers ;; loadConnections ;; loadMessages.

(** ** The event loop *)

Definition run_task (tk : task) : M unit :=
  match tk with
  | ReloadCreators => loadCreators
  | ReloadMembers => loadMembers
  | RemoveToast id => removeToast id
  end.

(** The pending timer that fires next: the least due time, the oldest
    among equals. *)
Fixpoint earliest (l : list (N * task)) : option (N * task) :=
  match l with
  | [] => None
  | x :: l' =>
      match earliest l' with
      | Some y => if (x.1 <=? y.1)%N then Some x else Some y
      | None => Some x
      end
  end.

Fixpoint remove_first (x : N * task) (l : list (N * task)) : list (N * task) :=
  match l with
  | [] => []
  | y :: l' => if bool_decide (y = x) then l' else y :: remove_first x l'
  end.

(** Time runs up to the next timer's due time and its callback runs. *)
Definition fire : M unit := fun w =>
  match earliest (timers w) with
  | None => Returned tt w
  | Some (due, tk) =>
      run_task tk (set_timers (remove_first (due, tk)) (set_now (N.max (now w) due) w))
  end.

(** Time passes, but not past a pending timer. *)
Definition idle (dt : N) : M unit := modify (fun w =>
  match earliest (timers w) with
  | None => set_now (now w + dt)%N w
  | Some (due, _) => set_now (N.min (now w + dt) (N.max (now w) due)) w
  end).

Inductive event :=
| Mount
| FollowChanged
| ProfileUpdated (p : profile)
| MemberConnectionChanged (p : payload member_connection)
| ConnectionRequestChanged (p : payload connection_request)
| FollowCreator (c : Creator.t)
| UnfollowCreator (creatorId : str)
| ConnectMember (m : Member.t)
| AcceptConnectionRequest (memberId : str)
| DeclineConnectionRequest (memberId : str)
| DisconnectMember (memberId : str)
| SelectConnection (c : option Connection.t)
| TypeMessage (s : str)
| SendMessage
| AddToast (message : str) (type : toast_type)
| Remote (f : database -> database)   (* another actor changes the store *)
| Fire
| Idle (dt : N).

Definition handle (e : event) : M unit :=
  match e with
  | Mount => mount
  | FollowChanged => on_follow_change
  | ProfileUpdated p => on_profile_update p
  | MemberConnectionChanged p => on_member_connection_change p
  | ConnectionRequestChanged p => on_connection_request_change p
  | FollowCreator c => handleFollowCreator c
  | UnfollowCreator i => handleUnfollowCreator i
  | ConnectMember m => handleConnectMember m
  | AcceptConnectionRequest i => handleAcceptConnectionRequest i
  | DeclineConnectionRequest i => handleDeclineConnectionRequest i
  | DisconnectMember i => handleDisconnectMember i
  | SelectConnection c => setSelectedConnection c
  | TypeMessage s => setMessageInput s
  | SendMessage => handleSendMessage
  | AddToast m t => addToast m t
  | Remote f => modify (set_db f)
  | Fire => fire
  | Idle dt => idle dt
  end.

Definition step (w : World) (e : event) : World := exec (handle e) w.
Definition run (es : list event) (w : World) : World := foldl step w es.

(** A world to start from: a signed-in member, nothing loaded. *)
Definition boot (u : str) (d : database) (faults : list outcome)
    (s : local_storage) (ids : nat -> str) : World :=
  {| user := u; db := d; net := faults; storage := s; ui := initial_view s;
     toasts := []; now := 0; timers := []; entropy := ids; draws := 0 |}.

(** * Notions the properties are stated with *)

(** The colleague rows of [member_connections] that leave, and that
    reach, an identity. *)
Definition edges_from (i : str) (d : database) : nat :=
  length (filter (fun e => connection_type e = colleague /\ member_id e = i)
                 (member_connections d)).
Definition edges_to (i : str) (d : database) : nat :=
  length (filter (fun e => connection_type e = colleague /\ connected_user_id e = i)
                 (member_connections d)).

(** [m] relates the world it starts in to the world it leaves, whether
    it returns or throws. *)
Definition keeps (R : World -> World -> Prop) {A} (m : M A) : Prop :=
  forall w, R w (final (m w)).

(** A member snapshot with base profile fields only. *)
Definition is_base (m : Member.t) : Prop :=
  Member.connected m = false /\ Member.followers m = None
  /\ Member.requestStatus m = None.

(** Between two worlds the members cache was left alone, or rewritten
    with base snapshots. *)
Definition members_cache_base (w w' : World) : Prop :=
  connect_members_cache (storage w') = connect_members_cache (storage w)
  \/ exists l, connect_members_cache (storage w') = Some l /\ Forall is_base l.

(** The toast [addToast] makes in world [w]. *)
Definition toast_in (w : World) (type : toast_type) (message : str) : Toast.t :=
  {| Toast.id := entropy w (draws w); Toast.type := type; Toast.message := message |}.

(** The creators list with [followed] set to [b] on the entries of id [i]. *)
Definition mark_followed (b : bool) (i : str) (l : list Creator.t) : list Creator.t :=
  (fun x => if bool_decide (Creator.id x = i) then Creator.with_followed b x else x) <$> l.

(** The world after [handleFollowCreator c] and then
    [handleUnfollowCreator c.id]. *)
Definition follow_then_unfollow (c : Creator.t) (w : World) : World :=
  run [FollowCreator c; UnfollowCreator (Creator.id c)] w.

(** A colleague row between the two identities, in either direction. *)
Definition links (a b : str) (e : member_connection) : Prop :=
  connection_type e = colleague
  /\ ((member_id e = a /\ connected_user_id e = b)
      \/ (member_id e = b /\ connected_user_id e = a)).

(** The handler ended by enqueueing the error toast [message]. *)
Definition raises (w w' : World) (message : string) : Prop :=
  toasts w' = toasts w ++ [toast_in w error (lit message)].

(** [i] is one of the identifiers drawn between [w] and [w']. *)
Definition drawn (w w' : World) (i : str) : Prop :=
  exists k, (draws w <= k < draws w')%nat /\ i = entropy w k.

(** What a handler does to the queue and the event loop: the clock
    stands still, toasts are appended under identifiers drawn meanwhile,
    and timers are appended, the removals among them for those
    identifiers. *)
Definition appends (w w' : World) : Prop :=
  now w' = now w /\ entropy w' = entropy w /\ (draws w <= draws w')%nat
  /\ (exists ts, toasts w' = toasts w ++ ts
                 /\ forall t, t ∈ ts -> drawn w w' (Toast.id t))
  /\ (exists tms, timers w' = timers w ++ tms
                  /\ forall due j, (due, RemoveToast j) ∈ tms -> drawn w w' j).

(** The two events of the event loop itself. *)
Definition of_the_loop (e : event) : bool :=
  match e with Fire | Idle _ => true | _ => false end.

(** The timers that remove the toasts identified by [i]. *)
Definition targets (i : str) (x : N * task) : Prop := x.2 = RemoveToast i.

#[local] Instance targets_dec (i : str) (x : N * task) : Decision (targets i x).
Proof. unfold targets. apply _. Defined.

(** Where the toast [T], identified by [i] and due to go at [D], stands:
    still queued with its one removal pending, or gone for good. *)
Definition tracked (i : str) (T : Toast.t) (D : N) (w : World) : Prop :=
  (forall k, (draws w <= k)%nat -> entropy w k ≠ i)
  /\ (((now w <= D)%N /\ T ∈ toasts w
       /\ filter (targets i) (timers w) = [(D, RemoveToast i)])
      \/ ((D <= now w)%N /\ (forall t, t ∈ toasts w -> Toast.id t ≠ i)
          /\ filter (targets i) (timers w) = [])).

(** ** A small store to run the code on *)

Module Demo.
Definition person (i n : string) (k : account_type) : profile :=
  {| p_id := lit i; p_name := lit n; p_avatar_url := []; p_tier := lit "free";
     p_followers := 0; p_bio := []; p_created_at := lit "2024-01-01";
     p_account_type := k |}.

Definition eve := person "u1" "Eve" member.
Definition ann := person "c1" "Ann" creator.
Definition bob := person "c2" "Bob" creator.
Definition cid := person "u2" "Cid" member.
Definition dee := person "u3" "Dee" member.
Definition fay := person "u4" "Fay" member.

Definition edge (a b : string) (k : connection_kind) : member_connection :=
  {| member_id := lit a; connected_user_id := lit b;
     connection_type := k; mc_status := lit "active" |}.

Definition store : database :=
  {| profiles := [eve; ann; bob; cid; dee; fay];
     member_connections :=
       [edge "u1" "c1" follow; edge "u1" "u2" colleague;
        edge "u3" "u1" colleague; edge "u2" "u3" colleague];
     media_page_follows := [{| follower_id := lit "u1"; creator_name := lit "Bob" |}];
     connection_requests :=
       [{| cr_id := 1; sender_id := lit "u4"; recipient_id := lit "u1";
           cr_message := None; cr_status := pending |}];
     messages_table := [] |}.

Definition empty_storage : local_storage :=
  {| available := true; connect_creators_cache := None;
     connect_members_cache := None |}.

(** The [n]-th identifier drawn: distinct for distinct [n]. *)
Definition ids (n : nat) : str := [N.of_nat n].

(** Eve signed in, every gateway call served. *)
Definition world : World := boot (lit "u1") store [] empty_storage ids.

(** The same, with the given outcomes for the gateway calls. *)
Definition world_with (faults : list outcome) : World :=
  boot (lit "u1") store faults empty_storage ids.
End Demo.

(** Eve's page after the first loads, and Ann as the creators list shows
    her. *)
Definition demo_loaded : World := run [Mount] Demo.world.
Definition demo_ann : Creator.t :=
  creator_of {[lit "c1"]} ∅ Demo.ann.

(** Eve also has a colleague edge to Ann. *)
Definition demo_colleague_of_ann : World :=
  run [Remote (on_member_connections (cons (Demo.edge "u1" "c1" colleague))); Mount]
      Demo.world.

(** Eve after disconnecting from Cid. *)
Definition demo_disconnected : World :=
  exec (handleDisconnectMember (lit "u2")) Demo.world.

(** Eve with Cid selected and [draft] typed. *)
Definition demo_drafting (draft : str) : World :=
  run [Mount; SelectConnection (Some (connection_of Demo.cid)); TypeMessage draft]
      Demo.world.

(** Two toasts a second apart: when the first has gone the second is
    still queued. *)
Definition demo_first : World := Demo.world.
Definition demo_second : World :=
  run [AddToast (lit "one") success; Idle 1000] Demo.world.

(** Between two worlds the store, the session and the clock are the same. *)
Definition reads_only (w w' : World) : Prop :=
  db w' = db w /\ user w' = user w /\ now w' = now w /\ entropy w' = entropy w.

(** Between two worlds the toast queue and the timers are the same. *)
Definition silent (w w' : World) : Prop :=
  toasts w' = toasts w /\ timers w' = timers w /\ draws w' = draws w.

(** Newest first. *)
Definition newer_first (a b : Message.t) : Prop :=
  (Message.timestamp b <= Message.timestamp a)%N.

(** The identities the fold of [loadConnections] has seen are those of
    the list built so far, each once. *)
Definition deduplicated (acc : gset str * list Connection.t) : Prop :=
  NoDup (Connection.id <$> acc.2)
  /\ forall i, i ∈ acc.1 <-> i ∈ Connection.id <$> acc.2.

(** Rows, newest first. *)
Definition newer_row_first (a b : message_row) : Prop :=
  (msg_timestamp b <= msg_timestamp a)%N.

(** Eve with three messages waiting, sent at times 5, 9 and 7, the last
    by someone without a profile. *)
Definition demo_inbox : World :=
  run [Remote (on_messages (fun _ =>
         [ {| msg_id := 1; msg_sender_id := lit "u2"; msg_recipient_id := lit "u1";
              msg_content := lit "a"; msg_timestamp := 5; msg_read := false |};
           {| msg_id := 2; msg_sender_id := lit "u3"; msg_recipient_id := lit "u1";
              msg_content := lit "b"; msg_timestamp := 9; msg_read := false |};
           {| msg_id := 3; msg_sender_id := lit "u9"; msg_recipient_id := lit "u1";
              msg_content := lit "c"; msg_timestamp := 7; msg_read := false |} ]))]
      Demo.world.

(** The members list with [requestStatus] set to pending on the entries
    of id [i]. *)
Definition mark_pending (i : str) (l : list Member.t) : list Member.t :=
  (fun x => if bool_decide (Member.id x = i)
            then Member.with_requestStatus req_pending x else x) <$> l.

(** Cid as Eve's members list shows him, and Cid's own session on a
    store. *)
Definition demo_cid : Member.t := base_member Demo.cid.
Definition demo_as (u : string) (d : database) : World :=
  boot (lit u) d [] Demo.empty_storage Demo.ids.

(** Every request row of [w] is still in [w'], at the same place, with
    the same id, sender, recipient and message, and settled if it was. *)
Definition requests_kept (w w' : World) : Prop :=
  forall k r, connection_requests (db w) !! k = Some r ->
    exists r', connection_requests (db w') !! k = Some r'
      /\ cr_id r' = cr_id r /\ sender_id r' = sender_id r
      /\ recipient_id r' = recipient_id r /\ cr_message r' = cr_message r
      /\ (cr_status r ≠ pending -> cr_status r' ≠ pending).

(** The events of this page, as opposed to what other actors do to the
    store. *)
Definition own_event (e : event) : bool :=
  match e with Remote _ => false | _ => true end.

(** Between two worlds the connections list is the same. *)
Definition same_connections (w w' : World) : Prop :=
  connections (ui w') = connections (ui w).

(** The condition under which change (e) notifies: the request is
    addressed to the current user and its new row is pending. *)
Definition notifies (u : str) (p : payload connection_request) : bool :=
  bool_decide (new_or_old recipient_id p = Some u)
  && bool_decide (cr_status <$> new p = Some pending).

(** The queue of [w'] is what was kept of the queue of [w], in the same
    order, followed by what was added: toasts whose identifiers were
    drawn since [w], one after the other in the order of the draws. *)
Definition queue_order (w w' : World) : Prop :=
  entropy w' = entropy w /\ (draws w <= draws w')%nat
  /\ exists kept added ks,
       kept `sublist_of` toasts w /\ toasts w' = kept ++ added
       /\ Toast.id <$> added = entropy w <$> ks
       /\ StronglySorted lt ks
       /\ Forall (fun k => draws w <= k < draws w')%nat ks.

(** With storage unavailable, the storage of [w'] is that of [w]. *)
Definition storage_untouched (w w' : World) : Prop :=
  available (storage w) = false -> storage w' = storage w.

(** The members list with [connected] cleared on the entries of id [i]. *)
Definition mark_disconnected (i : str) (l : list Member.t) : list Member.t :=
  (fun x => if bool_decide (Member.id x = i)
            then Member.with_connected false x else x) <$> l.

(** ** What the page shows *)

(** [s.includes(q)], on code units. *)
Fixpoint starts_with (q s : str) : bool :=
  match q, s with
  | [], _ => true
  | c :: q', d :: s' => (c =? d)%N && starts_with q' s'
  | _ :: _, [] => false
  end.
Fixpoint includes (s q : str) : bool :=
  starts_with q s
  || match s with
     | [] => false
     | _ :: s' => includes s' q
     end.

(** [Array.prototype.sort(compare)].  The sort is stable: an element
    goes before the first one it does not compare greater than, and the
    elements are taken last to first.  For a comparator that orders
    consistently this is the one order the language allows. *)
Fixpoint insert_sorted {A} (compare : A -> A -> Z) (x : A) (l : list A) : list A :=
  match l with
  | [] => [x]
  | y :: l' => if 0 <? compare x y then y :: insert_sorted compare x l' else x :: l
  end.
Definition sort_with {A} (compare : A -> A -> Z) (l : list A) : list A :=
  foldr (insert_sorted compare) [] l.

Section Rendering.

(** [String.prototype.toLowerCase], and the time value
    [new Date(s).getTime()] with [None] for [NaN]: nothing is assumed of
    either. *)
Variable toLowerCase : str -> str.
Variable getTime : str -> option Z.

(** [name.toLowerCase().includes(q) || bio?.toLowerCase().includes(q)],
    with [q] the lower-cased query.  A [bio] that is null gives
    [undefined]; an empty one includes the empty query only, which the
    name includes as well, so for the disjunction the two are alike. *)
Definition matchesSearch (searchQuery name bio : str) : bool :=
  includes (toLowerCase name) (toLowerCase searchQuery)
  || truthy bio && includes (toLowerCase bio) (toLowerCase searchQuery).

(** The comparator of the creators grid.  A difference that is [NaN]
    counts as [0] in a sort. *)
Definition compare_creators (selectedSort : str) (a b : Creator.t) : Z :=
  if bool_decide (selectedSort = lit "trending") then
    Creator.followers b - Creator.followers a
  else if bool_decide (selectedSort = lit "new") then
    match getTime (Creator.created_at b), getTime (Creator.created_at a) with
    | Some tb, Some ta => tb - ta
    | _, _ => 0
    end
  else if bool_decide (selectedSort = lit "popular") then
    Creator.followers b - Creator.followers a
  else 0.

Definition filteredAndSortedCreators (searchQuery selectedSort : str)
    (creators : list Creator.t) : list Creator.t :=
  sort_with (compare_creators selectedSort)
    (filter (fun c => matchesSearch searchQuery (Creator.name c) (Creator.bio c) = true)
            creators).

Definition filteredMembers (searchQuery : str) (members : list Member.t)
    : list Member.t :=
  filter (fun m => matchesSearch searchQuery (Member.name m) (Member.bio m) = true)
         members.

End Rendering.

(** The buttons of a member's card, left to right. *)
Inductive member_button :=
| MessageButton | ConnectedButton | AcceptButton | DeclineButton | ConnectButton.

Definition member_buttons (m : Member.t) : list member_button :=
  if Member.connected m then [MessageButton; ConnectedButton]
  else match Member.requestStatus m with
       | Some req_pending => [AcceptButton; DeclineButton]
       | _ => [ConnectButton]
       end.

(** Their [onClick]; the switch to the messages tab, which changes
    nothing the model holds, is left out. *)
Definition press_member (m : Member.t) (b : member_button) : M unit :=
  match b with
  | MessageButton =>
      connections0 <- gets (fun w => connections (ui w)) ;;
      match List.find (fun c => bool_decide (Connection.id c = Member.id m)) connections0 with
      | Some conn => setSelectedConnection (Some conn)
      | None => ret tt
      end
  | ConnectedButton => handleDisconnectMember (Member.id m)
  | AcceptButton => handleAcceptConnectionRequest (Member.id m)
  | DeclineButton => handleDeclineConnectionRequest (Member.id m)
  | ConnectButton => handleConnectMember m
  end.

(** The conversation pane: the loaded messages the selected connection
    sent. *)
Definition thread (v : view) : list Message.t :=
  match selectedConnection v with
  | Some c => filter (fun m => Message.sender_id m = Connection.id c) (messages v)
  | None => []
  end.

(** Orderings of the creators grid: most followers first, latest first. *)
Definition more_followers_first (a b : Creator.t) : Prop :=
  Creator.followers b <= Creator.followers a.
Definition later_first (getTime : str -> option Z) (a b : Creator.t) : Prop :=
  default 0 (getTime (Creator.created_at b)) <= default 0 (getTime (Creator.created_at a)).

(** ASCII lower-casing and a clock for the examples. *)
Definition ascii_lower (s : str) : str :=
  (fun c => if (65 <=? c)%N && (c <=? 90)%N then (c + 32)%N else c) <$> s.
Definition demo_time (s : str) : option Z := Some (Z.of_nat (length s)).

(** The creators and the members the search keeps. *)
Definition creator_matches (toLowerCase : str -> str) (searchQuery : str)
    (c : Creator.t) : Prop :=
  matchesSearch toLowerCase searchQuery (Creator.name c) (Creator.bio c) = true.

#[local] Instance creator_matches_dec toLowerCase searchQuery c :
  Decision (creator_matches toLowerCase searchQuery c).
Proof. unfold creator_matches. apply _. Defined.

(** The store holds a colleague row between [a] and [b]; [a] has a
    pending request to [b]. *)
Definition linked (d : database) (a b : str) : Prop :=
  exists e, e ∈ member_connections d /\ links a b e.
Definition asked (d : database) (a b : str) : Prop :=
  exists r, r ∈ connection_requests d /\ sender_id r = a /\ recipient_id r = b
            /\ cr_status r = pending.

(** Eve has asked Fay, who has not asked her. *)
Definition demo_asked : World :=
  run [Remote (on_connection_requests (fun _ =>
         [{| cr_id := 1; sender_id := lit "u1"; recipient_id := lit "u4";
             cr_message := None; cr_status := pending |}]))]
      Demo.world.
Definition demo_fay : Member.t :=
  Member.with_requestStatus req_pending (Member.with_followers 0 (base_member Demo.fay)).

(** A store with a member whose id is [constructor], to whom nobody has
    sent a request. *)
Definition demo_constructor : World :=
  boot (lit "u1")
    {| profiles := [Demo.eve; Demo.person "constructor" "Con" member; Demo.cid];
       member_connections := []; media_page_follows := [];
       connection_requests := []; messages_table := [] |}
    [] Demo.empty_storage Demo.ids.

(** [m] ends by returning, never by throwing. *)
Definition returns {A} (m : M A) : Prop :=
  forall w, exists a w', m w = Returned a w'.

(** * Properties *)

(** ** What a served pass computes *)

Lemma loadCreators_served (w : World) :
  served 3 (net w) = true ->
  let cs :=
    creator_of (list_to_set (follows_of (user w) (db w)))
               (list_to_set (media_follows_of (user w) (db w)))
      <$> creator_profiles (db w) in
  creators (ui (exec loadCreators w)) = cs
  ∧ storage (exec loadCreators w) =
      (if available (storage w) then
         {| available := true; connect_creators_cache := Some cs;
            connect_members_cache := connect_members_cache (storage w) |}
       else storage w)
  ∧ db (exec loadCreators w) = db w
  ∧ toasts (exec loadCreators w) = toasts w.
Proof.
  intros H.
  destruct w as [u d nt st v ts t tm en dr]; cbn [net] in H.
  destruct nt as [|[] [|[] [|[] nt]]]; try discriminate H; repeat split.
Qed.

Lemma loadMembers_served (w : World) :
  served 5 (net w) = true ->
  members (ui (exec loadMembers w)) =
    member_of (foldl count_connection ∅ (all_colleagues (db w)))
              (list_to_set (outgoing_colleagues (user w) (db w)
                            ++ incoming_colleagues (user w) (db w)))
              (foldl assign_true ∅ (sent_requests (user w) (db w)))
      <$> member_profiles (user w) (db w).
Proof.
  intros H.
  destruct w as [u d nt st v ts t tm en dr]; cbn [net] in H.
  destruct nt as [|[] [|[] [|[] [|[] [|[] nt]]]]]; try discriminate H; reflexivity.
Qed.

(** ** Follow status (C2) *)

Lemma followed_via_connection (u i : str) (d : database) :
  i ∈ follows_of u d <->
  exists e, e ∈ member_connections d /\ member_id e = u
            /\ connection_type e = follow /\ connected_user_id e = i.
Proof.
  unfold follows_of. rewrite list_elem_of_fmap. split.
  - intros (e & -> & He). apply list_elem_of_filter in He as [[? ?] ?]. eauto 6.
  - intros (e & He & ? & ? & <-). exists e. split; [done|].
    apply list_elem_of_filter. auto.
Qed.

Lemma followed_via_media (u n : str) (d : database) :
  n ∈ media_follows_of u d <->
  exists f, f ∈ media_page_follows d /\ follower_id f = u /\ creator_name f = n.
Proof.
  unfold media_follows_of. rewrite list_elem_of_fmap. split.
  - intros (f & -> & Hf). apply list_elem_of_filter in Hf as [? ?]. eauto.
  - intros (f & Hf & ? & <-). exists f. split; [done|].
    apply list_elem_of_filter. auto.
Qed.

Lemma followed_iff_edges (w : World) :
  served 3 (net w) = true ->
  forall c, c ∈ creators (ui (exec loadCreators w)) ->
    Creator.followed c = true <->
      (exists e, e ∈ member_connections (db w) /\ member_id e = user w
                 /\ connection_type e = follow
                 /\ connected_user_id e = Creator.id c)
      \/ (exists f, f ∈ media_page_follows (db w) /\ follower_id f = user w
                    /\ creator_name f = Creator.name c).
Proof.
  intros H. destruct (loadCreators_served w H) as (-> & _).
  intros c Hc. apply list_elem_of_fmap in Hc as (p & -> & _). cbn.
  rewrite orb_true_iff, !bool_decide_eq_true, !elem_of_list_to_set.
  rewrite followed_via_connection, followed_via_media. reflexivity.
Qed.

(** C2. After a served [loadCreators] pass the list holds the creator
    profiles read, and a listed creator has [followed = true] exactly
    when the current user has a 'follow' row in [member_connections]
    pointing at the creator's id, or a row in [media_page_follows]
    naming the creator. *)
Theorem loadCreators_followed_iff (w : World) :
  served 3 (net w) = true ->
  Creator.id <$> creators (ui (exec loadCreators w)) = p_id <$> creator_profiles (db w)
  /\ forall c, c ∈ creators (ui (exec loadCreators w)) ->
       Creator.followed c = true <->
         (exists e, e ∈ member_connections (db w) /\ member_id e = user w
                    /\ connection_type e = follow
                    /\ connected_user_id e = Creator.id c)
         \/ (exists f, f ∈ media_page_follows (db w) /\ follower_id f = user w
                       /\ creator_name f = Creator.name c).
Proof.
  intros H. split; [|apply followed_iff_edges, H].
  destruct (loadCreators_served w H) as (-> & _).
  rewrite <- list_fmap_compose. reflexivity.
Qed.

Lemma loadCreators_followed_iff_witness :
  served 3 (net Demo.world) = true
  /\ Creator.id <$> creators (ui (exec loadCreators Demo.world))
     = p_id <$> creator_profiles (db Demo.world)
  /\ forall c, c ∈ creators (ui (exec loadCreators Demo.world)) ->
       Creator.followed c = true <->
         (exists e, e ∈ member_connections (db Demo.world)
                    /\ member_id e = user Demo.world
                    /\ connection_type e = follow
                    /\ connected_user_id e = Creator.id c)
         \/ (exists f, f ∈ media_page_follows (db Demo.world)
                       /\ follower_id f = user Demo.world
                       /\ creator_name f = Creator.name c).
Proof.
  split; [reflexivity|]. apply (loadCreators_followed_iff Demo.world). reflexivity.
Defined.

(** The creators list the pass produces on the demo store. *)
Example demo_creators :
  (fun c => (Creator.name c, Creator.followed c))
    <$> creators (ui (exec loadCreators Demo.world))
  = [(lit "Ann", true); (lit "Bob", true)].
Proof. vm_compute. reflexivity. Qed.

(** ** Live connection counts (C3) *)

Lemma count_connection_lookup (k : str) (counts : gmap str Z) (conn : member_connection) :
  default 0 (count_connection counts conn !! k) =
  default 0 (counts !! k)
  + (if bool_decide (member_id conn = k) then 1 else 0)
  + (if bool_decide (connected_user_id conn = k) then 1 else 0).
Proof.
  unfold count_connection.
  destruct (decide (member_id conn = k)) as [Hm|Hm];
    destruct (decide (connected_user_id conn = k)) as [Hc|Hc];
    rewrite ?(bool_decide_eq_true_2 _ Hm), ?(bool_decide_eq_false_2 _ Hm),
            ?(bool_decide_eq_true_2 _ Hc), ?(bool_decide_eq_false_2 _ Hc).
  - rewrite Hm, Hc, !lookup_insert_eq. cbn. lia.
  - rewrite Hm, lookup_insert_eq, lookup_insert_ne by done. cbn. lia.
  - rewrite lookup_insert_ne by done. rewrite Hc, lookup_insert_eq. cbn. lia.
  - rewrite !lookup_insert_ne by done. lia.
Qed.

Lemma connectionCounts_lookup (k : str) (l : list member_connection) (counts : gmap str Z) :
  default 0 (foldl count_connection counts l !! k) =
  default 0 (counts !! k)
  + Z.of_nat (length (filter (fun e => member_id e = k) l))
  + Z.of_nat (length (filter (fun e => connected_user_id e = k) l)).
Proof.
  revert counts. induction l as [|e l IH]; intros counts; cbn [foldl].
  - cbn. lia.
  - rewrite IH, count_connection_lookup, !filter_cons.
    repeat case_bool_decide; repeat case_decide; try contradiction; cbn [length]; lia.
Qed.

Lemma filter_colleagues (P : member_connection -> Prop) `{!forall e, Decision (P e)}
    (d : database) :
  filter P (all_colleagues d)
  = filter (fun e => connection_type e = colleague /\ P e) (member_connections d).
Proof.
  unfold all_colleagues. induction (member_connections d) as [|e l IH]; [reflexivity|].
  rewrite !(filter_cons _ e l). destruct (decide (connection_type e = colleague)) as [Hk|Hk].
  - rewrite filter_cons, IH. destruct (decide (P e)) as [HP|HP].
    + rewrite decide_True by (split; assumption). reflexivity.
    + rewrite decide_False by (intros [_ ?]; contradiction). reflexivity.
  - rewrite IH, decide_False by (intros [? _]; contradiction). reflexivity.
Qed.

(** C3. After a served [loadMembers] pass the list holds the member
    profiles read, and the count shown for a listed member is the number
    of colleague rows of [member_connections], the whole table, that
    leave the member plus the number that reach it; nothing in it depends
    on who is looking, so two viewers of the same store see the same
    count for the same member. *)
Theorem loadMembers_connection_count (w : World) :
  served 5 (net w) = true ->
  Member.id <$> members (ui (exec loadMembers w))
    = p_id <$> member_profiles (user w) (db w)
  /\ (forall m, m ∈ members (ui (exec loadMembers w)) ->
        Member.followers m
        = Some (Z.of_nat (edges_from (Member.id m) (db w) + edges_to (Member.id m) (db w))))
  /\ (forall w2 m m2,
        db w2 = db w -> served 5 (net w2) = true ->
        m ∈ members (ui (exec loadMembers w)) ->
        m2 ∈ members (ui (exec loadMembers w2)) ->
        Member.id m = Member.id m2 ->
        Member.followers m = Member.followers m2).
Proof.
  intros H.
  assert (Hcount : forall w0 m, served 5 (net w0) = true ->
            m ∈ members (ui (exec loadMembers w0)) ->
            Member.followers m
            = Some (Z.of_nat (edges_from (Member.id m) (db w0)
                              + edges_to (Member.id m) (db w0)))).
  { intros w0 m H0 Hm. rewrite (loadMembers_served w0 H0) in Hm.
    apply list_elem_of_fmap in Hm as (p & -> & _). cbn. f_equal.
    rewrite connectionCounts_lookup, lookup_empty. unfold edges_from, edges_to.
    rewrite !filter_colleagues. cbn. lia. }
  split; [|split].
  - rewrite (loadMembers_served w H), <- list_fmap_compose. reflexivity.
  - intros m Hm. apply Hcount; assumption.
  - intros w2 m m2 Hdb H2 Hm Hm2 Hid.
    rewrite (Hcount w m H Hm), (Hcount w2 m2 H2 Hm2), Hdb, Hid. reflexivity.
Qed.

Lemma loadMembers_connection_count_witness :
  served 5 (net Demo.world) = true
  /\ forall m, m ∈ members (ui (exec loadMembers Demo.world)) ->
       Member.followers m
       = Some (Z.of_nat (edges_from (Member.id m) (db Demo.world)
                         + edges_to (Member.id m) (db Demo.world))).
Proof.
  split; [reflexivity|].
  apply (loadMembers_connection_count Demo.world). reflexivity.
Defined.

(** The members list the pass produces on the demo store. *)
Example demo_members :
  (fun m => (Member.name m, Member.followers m, Member.connected m))
    <$> members (ui (exec loadMembers Demo.world))
  = [(lit "Cid", Some 2, true); (lit "Dee", Some 2, true); (lit "Fay", Some 0, false)].
Proof. vm_compute. reflexivity. Qed.

(** ** Relations every step of a computation keeps *)

Section Frame.
Context (R : World -> World -> Prop) `{!Reflexive R} `{!Transitive R}.

Lemma keeps_ret {A} (a : A) : keeps R (ret a).
Proof. intros w. reflexivity. Qed.

Lemma keeps_gets {A} (f : World -> A) : keeps R (gets f).
Proof. intros w. reflexivity. Qed.

Lemma keeps_modify (f : World -> World) : (forall w, R w (f w)) -> keeps R (modify f).
Proof. intros H w. apply H. Qed.

Lemma keeps_bind {A B} (m : M A) (k : A -> M B) :
  keeps R m -> (forall a, keeps R (k a)) -> keeps R (bind m k).
Proof.
  intros Hm Hk w. unfold bind. specialize (Hm w).
  destruct (m w) as [a w'|w']; cbn in *; [|assumption].
  etransitivity; [eassumption|apply Hk].
Qed.

Lemma keeps_try_catch (body handler : M unit) :
  keeps R body -> keeps R handler -> keeps R (try_catch body handler).
Proof.
  intros Hb Hh w. unfold try_catch. specialize (Hb w).
  destruct (body w) as [a w'|w']; cbn in *; [assumption|].
  etransitivity; [eassumption|apply Hh].
Qed.

Lemma keeps_select {A} (q : database -> list A) :
  (forall w l, R w (set_net l w)) -> keeps R (select q).
Proof. intros H w. unfold select. destruct (upcoming _ _); apply H. Qed.

Lemma keeps_mutate (f : database -> database) :
  (forall w l, R w (set_net l w)) -> (forall w, R w (set_db f w)) -> keeps R (mutate f).
Proof.
  intros Hn Hd w. unfold mutate. destruct (upcoming _ _); cbn; try apply Hn.
  etransitivity; [apply Hn|apply Hd].
Qed.
End Frame.

(** Splits a computation along its binds, handlers and branches, and
    leaves the primitive steps to [prim]. *)
Ltac keeps_with prim :=
  repeat first
    [ match goal with
      | |- Reflexive _ => typeclasses eauto
      | |- Transitive _ => typeclasses eauto
      | |- forall _, _ => intros ?
      | |- keeps _ (ret _) => apply keeps_ret
      | |- keeps _ (gets _) => apply keeps_gets
      | |- keeps _ (bind _ _) => apply keeps_bind
      | |- keeps _ (try_catch _ _) => apply keeps_try_catch
      | |- keeps _ (match ?x with _ => _ end) => destruct x
      | |- keeps _ (let _ := _ in _) => cbv zeta
      end
    | progress prim ].

(** ** What reaches the local cache (C1) *)

#[local] Instance members_cache_base_refl : Reflexive members_cache_base.
Proof. intros w. left. reflexivity. Qed.

#[local] Instance members_cache_base_trans : Transitive members_cache_base.
Proof.
  intros w1 w2 w3 [H12|H12] [H23|H23]; unfold members_cache_base.
  - left. congruence.
  - right. assumption.
  - right. rewrite H23. assumption.
  - right. assumption.
Qed.

Lemma base_member_is_base (data : list profile) : Forall is_base (base_member <$> data).
Proof. apply Forall_fmap, Forall_forall. intros p _. repeat split. Qed.

Lemma loadMembers_keeps_cache_base : keeps members_cache_base loadMembers.
Proof.
  unfold loadMembers.
  keeps_with ltac:(first
    [ apply keeps_select; intros; left; reflexivity
    | apply keeps_modify; intros w0; left; reflexivity
    | apply keeps_modify; intros w0; unfold members_cache_base; cbn;
      destruct (available (storage w0));
      [right; eexists; split; [reflexivity|apply base_member_is_base]
      |left; reflexivity] ]).
Qed.

(** C1, as amended. Whatever the gateway does, a [loadMembers] pass
    leaves the members cache alone or stores base snapshots only
    ([connected = false], no live count, no pending status); a served
    pass with storage available stores the base snapshots of the
    profiles read.  A served [loadCreators] pass stores the creators
    list it loaded, [followed] flags as computed. *)
Theorem loadMembers_caches_base_only (w : World) :
  members_cache_base w (exec loadMembers w)
  /\ (served 5 (net w) = true -> available (storage w) = true ->
      connect_members_cache (storage (exec loadMembers w))
      = Some (base_member <$> member_profiles (user w) (db w)))
  /\ (served 3 (net w) = true -> available (storage w) = true ->
      connect_creators_cache (storage (exec loadCreators w))
      = Some (creators (ui (exec loadCreators w)))).
Proof.
  split; [apply loadMembers_keeps_cache_base|split].
  - intros H Ha.
    destruct w as [u d nt [av cc cm] v ts t tm en dr]; cbn in H, Ha; subst av.
    destruct nt as [|[] [|[] [|[] [|[] [|[] nt]]]]]; try discriminate H; reflexivity.
  - intros H Ha. destruct (loadCreators_served w H) as (-> & -> & _).
    rewrite Ha. reflexivity.
Qed.

Lemma loadMembers_caches_base_only_witness :
  connect_members_cache (storage (exec loadMembers Demo.world))
  = Some (base_member <$> member_profiles (user Demo.world) (db Demo.world))
  /\ connect_creators_cache (storage (exec loadCreators Demo.world))
     = Some (creators (ui (exec loadCreators Demo.world))).
Proof.
  destruct (loadMembers_caches_base_only Demo.world) as (_ & Hm & Hc).
  split; [apply Hm|apply Hc]; reflexivity.
Defined.

(** C1 as stated fails: the creators cache written by [loadCreators]
    holds an entry with [followed = true], and after a pass and one
    profile-update callback the members cache holds an entry with
    [connected = true]. *)
Lemma cache_holds_derived_flags :
  (exists l c,
     connect_creators_cache (storage (exec loadCreators Demo.world)) = Some l
     /\ c ∈ l /\ Creator.followed c = true)
  /\ (exists l m,
        connect_members_cache
          (storage (run [Mount; ProfileUpdated Demo.cid] Demo.world)) = Some l
        /\ m ∈ l /\ Member.connected m = true).
Proof.
  split.
  - eexists _, _. split; [vm_compute; reflexivity|].
    split; [apply list_elem_of_here|reflexivity].
  - eexists _, _. split; [vm_compute; reflexivity|].
    split; [apply list_elem_of_here|reflexivity].
Qed.

(** ** Following and unfollowing (C6, C9) *)

Lemma served_add (n m : nat) (l : list outcome) :
  served (n + m) l = served n l && served m (drop n l).
Proof.
  unfold served. revert l. induction n as [|n IH]; intros [|o l]; cbn; try reflexivity.
  - destruct m; reflexivity.
  - rewrite IH. destruct (is_served o); reflexivity.
Qed.

Lemma handleFollowCreator_served (w : World) (c : Creator.t) :
  served 2 (net w) = true ->
  let w' := exec (handleFollowCreator c) w in
  member_connections (db w') = member_connections (db w) ++ [follow_edge (user w) c]
  /\ media_page_follows (db w') = media_page_follows (db w) ++ [media_edge (user w) c]
  /\ creators (ui w') = mark_followed true (Creator.id c) (creators (ui w))
  /\ toasts w' = toasts w ++ [toast_in w success (lit "Now following " ++ Creator.name c)]
  /\ user w' = user w /\ net w' = drop 2 (net w).
Proof.
  intros H. destruct w as [u d nt st v ts t tm en dr]; cbn [net] in H.
  destruct nt as [|[] [|[] nt]]; try discriminate H; repeat split.
Qed.

Lemma handleUnfollowCreator_served (w : World) (creatorId : str) (x : Creator.t) :
  served 2 (net w) = true ->
  List.find (fun y => bool_decide (Creator.id y = creatorId)) (creators (ui w)) = Some x ->
  let w' := exec (handleUnfollowCreator creatorId) w in
  member_connections (db w')
    = filter (fun e => ¬ (member_id e = user w ∧ connected_user_id e = creatorId))
             (member_connections (db w))
  /\ media_page_follows (db w')
     = filter (fun f => ¬ (follower_id f = user w ∧ creator_name f = Creator.name x))
              (media_page_follows (db w))
  /\ creators (ui w') = mark_followed false creatorId (creators (ui w))
  /\ toasts w' = toasts w ++ [toast_in w success (lit "Unfollowed creator")]
  /\ user w' = user w /\ net w' = drop 2 (net w).
Proof.
  intros H Hfind. destruct w as [u d nt st v ts t tm en dr]; cbn [net] in H.
  cbn [ui] in Hfind. unfold exec, handleUnfollowCreator, bind, gets, try_catch.
  cbn [ui]. rewrite Hfind.
  destruct nt as [|[] [|[] nt]]; try discriminate H; repeat split.
Qed.

(** C9. The delete that [handleUnfollowCreator] issues against
    [member_connections] filters on [member_id] and [connected_user_id]
    only: when it is served, no row of any connection type from the
    current user to that id is left, a 'colleague' row included, and
    every other row stays. *)
Theorem unfollow_deletes_every_kind (w : World) (creatorId : str) (x : Creator.t) :
  served 2 (net w) = true ->
  List.find (fun y => bool_decide (Creator.id y = creatorId)) (creators (ui w)) = Some x ->
  forall e : member_connection,
    e ∈ member_connections (db (exec (handleUnfollowCreator creatorId) w))
    <-> e ∈ member_connections (db w)
        /\ ¬ (member_id e = user w /\ connected_user_id e = creatorId).
Proof.
  intros H Hfind e.
  destruct (handleUnfollowCreator_served w creatorId x H Hfind) as (-> & _).
  rewrite list_elem_of_filter. tauto.
Qed.

Lemma find_mark_followed (b : bool) (i : str) (l : list Creator.t) :
  List.find (fun y => bool_decide (Creator.id y = i)) (mark_followed b i l)
  = Creator.with_followed b
      <$> List.find (fun y => bool_decide (Creator.id y = i)) l.
Proof.
  induction l as [|x l IH]; [reflexivity|]. cbn.
  destruct (decide (Creator.id x = i)) as [Hx|Hx].
  - rewrite !(bool_decide_eq_true_2 _ Hx). cbn.
    rewrite ?(bool_decide_eq_true_2 _ Hx). reflexivity.
  - rewrite !(bool_decide_eq_false_2 _ Hx). apply IH.
Qed.

Lemma mark_followed_twice (b b' : bool) (i : str) (l : list Creator.t) :
  mark_followed b' i (mark_followed b i l) = mark_followed b' i l.
Proof.
  unfold mark_followed. rewrite <- list_fmap_compose. apply list_fmap_ext.
  intros _ x _. cbn. destruct (decide (Creator.id x = i)) as [Hx|Hx].
  - rewrite !(bool_decide_eq_true_2 _ Hx). cbn.
    rewrite ?(bool_decide_eq_true_2 _ Hx). reflexivity.
  - rewrite !(bool_decide_eq_false_2 _ Hx). reflexivity.
Qed.

(** C6. Let [c] be the list's entry for its id and let the four writes be
    served.  After [handleFollowCreator c] and [handleUnfollowCreator c.id]
    both report success, every list entry with that id has
    [followed = false], no [member_connections] row leads from the current
    user to [c.id], no [media_page_follows] row of the current user names
    [c.name], and a reload that is served shows the creator unfollowed. *)
Theorem follow_unfollow_round_trip (w : World) (c : Creator.t) :
  served 4 (net w) = true ->
  List.find (fun y => bool_decide (Creator.id y = Creator.id c)) (creators (ui w)) = Some c ->
  let w' := follow_then_unfollow c w in
  Toast.type <$> toasts w' = (Toast.type <$> toasts w) ++ [success; success]
  /\ (forall y, y ∈ creators (ui w') -> Creator.id y = Creator.id c ->
        Creator.followed y = false)
  /\ (forall e, e ∈ member_connections (db w') ->
        ¬ (member_id e = user w /\ connected_user_id e = Creator.id c))
  /\ (forall f, f ∈ media_page_follows (db w') ->
        ¬ (follower_id f = user w /\ creator_name f = Creator.name c))
  /\ (served 3 (net w') = true ->
      forall y, y ∈ creators (ui (exec loadCreators w')) ->
        Creator.id y = Creator.id c -> Creator.name y = Creator.name c ->
        Creator.followed y = false).
Proof.
  intros H Hfind w'.
  change 4%nat with (2 + 2)%nat in H. rewrite served_add in H.
  apply andb_true_iff in H as [H1 H2].
  pose proof (handleFollowCreator_served w c H1) as (Hmc1 & Hmf1 & Hcs1 & Hts1 & Hu1 & Hn1).
  set (w1 := exec (handleFollowCreator c) w) in *.
  assert (Hfind1 : List.find (fun y => bool_decide (Creator.id y = Creator.id c))
                     (creators (ui w1)) = Some (Creator.with_followed true c)).
  { rewrite Hcs1, find_mark_followed, Hfind. reflexivity. }
  rewrite <- Hn1 in H2.
  pose proof (handleUnfollowCreator_served w1 (Creator.id c) _ H2 Hfind1)
    as (Hmc2 & Hmf2 & Hcs2 & Hts2 & Hu2 & Hn2).
  change (exec (handleUnfollowCreator (Creator.id c)) w1) with w' in *.
  assert (Hmc : forall e, e ∈ member_connections (db w') ->
            ¬ (member_id e = user w /\ connected_user_id e = Creator.id c)).
  { intros e He. rewrite Hmc2 in He. apply list_elem_of_filter in He as [He _].
    rewrite <- Hu1. exact He. }
  assert (Hmf : forall f, f ∈ media_page_follows (db w') ->
            ¬ (follower_id f = user w /\ creator_name f = Creator.name c)).
  { intros f Hf. rewrite Hmf2 in Hf. apply list_elem_of_filter in Hf as [Hf _].
    rewrite <- Hu1. exact Hf. }
  split; [|split; [|split; [|split]]]; try assumption.
  - rewrite Hts2, Hts1, !fmap_app, <- !app_assoc. reflexivity.
  - intros y Hy Hid. rewrite Hcs2, Hcs1, mark_followed_twice in Hy.
    apply list_elem_of_fmap in Hy as (x & -> & _).
    destruct (decide (Creator.id x = Creator.id c)) as [Hx|Hx].
    + rewrite (bool_decide_eq_true_2 _ Hx). reflexivity.
    + rewrite (bool_decide_eq_false_2 _ Hx) in Hid. contradiction.
  - intros H3 y Hy Hid Hname.
    pose proof (followed_iff_edges w' H3) as Hiff.
    destruct (Creator.followed y) eqn:Hfl; [|reflexivity]. exfalso.
    apply (Hiff y Hy) in Hfl as [(e & He & Hm & _ & Hc)|(f & Hf & Hfo & Hn)].
    + apply (Hmc e He). rewrite <- Hu1, <- Hu2, <- Hid. auto.
    + apply (Hmf f Hf). rewrite <- Hu1, <- Hu2, <- Hname. auto.
Qed.

Lemma follow_unfollow_round_trip_witness :
  (forall y, y ∈ creators (ui (follow_then_unfollow demo_ann demo_loaded)) ->
     Creator.id y = Creator.id demo_ann -> Creator.followed y = false)
  /\ (forall e, e ∈ member_connections (db (follow_then_unfollow demo_ann demo_loaded)) ->
        ¬ (member_id e = user demo_loaded /\ connected_user_id e = Creator.id demo_ann)).
Proof.
  pose proof (follow_unfollow_round_trip demo_loaded demo_ann) as H.
  destruct H as (_ & H1 & H2 & _);
    [vm_compute; reflexivity|vm_compute; reflexivity|].
  split; assumption.
Defined.

Lemma unfollow_deletes_every_kind_witness :
  Demo.edge "u1" "c1" colleague ∈ member_connections (db demo_colleague_of_ann)
  /\ Demo.edge "u1" "c1" colleague
     ∉ member_connections
         (db (exec (handleUnfollowCreator (lit "c1")) demo_colleague_of_ann)).
Proof.
  split; [apply list_elem_of_here|].
  intros H.
  apply (unfollow_deletes_every_kind demo_colleague_of_ann (lit "c1") demo_ann) in H;
    [|vm_compute; reflexivity|vm_compute; reflexivity].
  destruct H as [_ H]. apply H. split; reflexivity.
Defined.

(** ** Accepting a request (C5) *)

(** C5. [handleAcceptConnectionRequest memberId] reads the pending
    requests from [memberId] to the current user.  When there is one and
    the three calls are served, the table of requests keeps its rows in
    place with their id, sender, recipient and message, the rows with
    the id found have status accepted and the others the status they
    had, and exactly one row is appended to [member_connections]: a
    colleague row from [memberId] to the current user.  When the update
    is not served the store is unchanged, so no row is inserted.  When
    there is no pending request, nothing changes in the store, the
    toasts, the lists, the cache or the timers. *)
Theorem accept_request (w : World) (memberId : str) :
  (forall i rest,
     pending_from memberId (user w) (db w) = i :: rest ->
     (served 3 (net w) = true ->
        (exists r, r ∈ connection_requests (db w) /\ cr_id r = i
                   /\ sender_id r = memberId /\ recipient_id r = user w
                   /\ cr_status r = pending)
        /\ length (connection_requests
                     (db (exec (handleAcceptConnectionRequest memberId) w)))
           = length (connection_requests (db w))
        /\ (forall k r r',
              connection_requests (db w) !! k = Some r ->
              connection_requests
                (db (exec (handleAcceptConnectionRequest memberId) w)) !! k = Some r' ->
              cr_id r' = cr_id r /\ sender_id r' = sender_id r
              /\ recipient_id r' = recipient_id r /\ cr_message r' = cr_message r
              /\ (cr_id r = i -> cr_status r' = accepted)
              /\ (cr_id r ≠ i -> cr_status r' = cr_status r))
        /\ (exists e,
              member_connections (db (exec (handleAcceptConnectionRequest memberId) w))
              = member_connections (db w) ++ [e]
              /\ member_id e = memberId /\ connected_user_id e = user w
              /\ connection_type e = colleague /\ mc_status e = lit "active"))
     /\ (upcoming (net w) 0 = Served -> upcoming (net w) 1 ≠ Served ->
         db (exec (handleAcceptConnectionRequest memberId) w) = db w))
  /\ (pending_from memberId (user w) (db w) = [] ->
      upcoming (net w) 0 ≠ Crashed ->
      db (exec (handleAcceptConnectionRequest memberId) w) = db w
      /\ toasts (exec (handleAcceptConnectionRequest memberId) w) = toasts w
      /\ ui (exec (handleAcceptConnectionRequest memberId) w) = ui w
      /\ storage (exec (handleAcceptConnectionRequest memberId) w) = storage w
      /\ timers (exec (handleAcceptConnectionRequest memberId) w) = timers w).
Proof.
  destruct w as [u d nt st v ts t tm en dr]. cbn [user db net].
  split; [intros i rest Hp; split|intros Hp Hc].
  - intros H.
    assert (Hdb : db (exec (handleAcceptConnectionRequest memberId)
                        (Build_World u d nt st v ts t tm en dr))
                  = on_member_connections (fun l => l ++ [colleague_edge memberId u])
                      (update_status i accepted d)).
    { unfold exec, handleAcceptConnectionRequest, bind, gets, try_catch, select.
      cbn [user db net]. rewrite Hp.
      destruct nt as [|[] [|[] [|[] nt]]]; try discriminate H; reflexivity. }
    rewrite Hdb. cbn [connection_requests member_connections on_member_connections
                      update_status on_connection_requests].
    split_and!.
    + assert (Hi : i ∈ pending_from memberId u d) by (rewrite Hp; apply list_elem_of_here).
      apply list_elem_of_fmap in Hi as (r & -> & Hr).
      apply list_elem_of_filter in Hr as [(Hs & Hrc & Hst) Hr].
      exists r. repeat (split; [done|]). done.
    + apply length_fmap.
    + intros k r r' Hr. rewrite list_lookup_fmap, Hr. cbn. intros [= <-].
      case_bool_decide as Hid; cbn; split_and!; try reflexivity; try done.
    + exists (colleague_edge memberId u). split_and!; reflexivity.
  - intros H0 H1.
    unfold exec, handleAcceptConnectionRequest, bind, gets, try_catch, select.
    cbn [user db net]. rewrite Hp.
    destruct nt as [|[] [|[] nt]]; try discriminate H0; try reflexivity;
      exfalso; apply H1; reflexivity.
  - unfold exec, handleAcceptConnectionRequest, bind, gets, try_catch, select.
    cbn [user db net]. rewrite Hp.
    destruct nt as [|[] nt]; repeat split; exfalso; apply Hc; reflexivity.
Qed.

Lemma accept_request_witness :
  (exists e,
     member_connections (db (exec (handleAcceptConnectionRequest (lit "u4")) Demo.world))
     = member_connections (db Demo.world) ++ [e]
     /\ member_id e = lit "u4" /\ connected_user_id e = user Demo.world
     /\ connection_type e = colleague /\ mc_status e = lit "active")
  /\ db (exec (handleAcceptConnectionRequest (lit "u4")) (Demo.world_with [Served; Refused]))
     = Demo.store
  /\ db (exec (handleAcceptConnectionRequest (lit "u2")) Demo.world) = Demo.store
  /\ toasts (exec (handleAcceptConnectionRequest (lit "u2")) Demo.world) = [].
Proof.
  split; [|split].
  - destruct (accept_request Demo.world (lit "u4")) as [H _].
    destruct (H 1%N []) as [H3 _]; [vm_compute; reflexivity|].
    destruct H3 as (_ & _ & _ & H3); [reflexivity|]. exact H3.
  - destruct (accept_request (Demo.world_with [Served; Refused]) (lit "u4")) as [H _].
    destruct (H 1%N []) as [_ H3]; [vm_compute; reflexivity|].
    apply H3; [reflexivity|discriminate].
  - destruct (accept_request Demo.world (lit "u2")) as [_ H].
    destruct H as (H1 & H2 & _); [vm_compute; reflexivity|discriminate|].
    split; assumption.
Defined.

(** ** Disconnecting (C7) *)

Lemma filter_all {A} (P : A -> Prop) `{!forall x, Decision (P x)} (l : list A) :
  (forall x, x ∈ l -> P x) -> filter P l = l.
Proof.
  induction l as [|x l IH]; intros Hall; [reflexivity|].
  rewrite filter_cons_True by (apply Hall; apply list_elem_of_here).
  f_equal. apply IH. intros y Hy. apply Hall. apply list_elem_of_further, Hy.
Qed.

Lemma filter_none {A} (P : A -> Prop) `{!forall x, Decision (P x)} (l : list A) :
  (forall x, x ∈ l -> ¬ P x) -> filter P l = [].
Proof.
  induction l as [|x l IH]; intros Hall; [reflexivity|].
  rewrite filter_cons_False by (apply Hall; apply list_elem_of_here).
  apply IH. intros y Hy. apply Hall. apply list_elem_of_further, Hy.
Qed.

(** C7. [handleDisconnectMember memberId] issues the delete current
    user -> [memberId] and then the delete [memberId] -> current user,
    each on its own.  When both calls return, it ends with the success
    toast exactly when at least one of them returned no error, and with
    the error toast otherwise.  Served, the two deletes leave no
    colleague row between the two in either direction and touch no other
    row; on a pair with no such row they change nothing in the store and
    the handler still reports success. *)
Theorem disconnect_reports (w : World) (memberId : str) :
  (upcoming (net w) 0 ≠ Crashed -> upcoming (net w) 1 ≠ Crashed ->
   toasts (exec (handleDisconnectMember memberId) w)
   = toasts w ++
       [if is_served (upcoming (net w) 0) || is_served (upcoming (net w) 1)
        then toast_in w success (lit "Disconnected")
        else toast_in w error (lit "Failed to disconnect")])
  /\ (upcoming (net w) 0 = Refused -> upcoming (net w) 1 = Served ->
      member_connections (db (exec (handleDisconnectMember memberId) w))
      = filter (fun e => ¬ (member_id e = memberId ∧ connected_user_id e = user w
                            ∧ connection_type e = colleague))
               (member_connections (db w)))
  /\ (upcoming (net w) 0 = Served -> upcoming (net w) 1 = Refused ->
      member_connections (db (exec (handleDisconnectMember memberId) w))
      = filter (fun e => ¬ (member_id e = user w ∧ connected_user_id e = memberId
                            ∧ connection_type e = colleague))
               (member_connections (db w)))
  /\ (served 2 (net w) = true ->
      (forall e, e ∈ member_connections (db (exec (handleDisconnectMember memberId) w))
                 <-> e ∈ member_connections (db w) /\ ¬ links (user w) memberId e)
      /\ ((forall e, e ∈ member_connections (db w) -> ¬ links (user w) memberId e) ->
          db (exec (handleDisconnectMember memberId) w) = db w
          /\ toasts (exec (handleDisconnectMember memberId) w)
             = toasts w ++ [toast_in w success (lit "Disconnected")])).
Proof.
  destruct w as [u d nt st v ts t tm en dr]. cbn [user db net toasts].
  split; [|split; [|split]].
  - intros H0 H1.
    destruct nt as [|[] [|[] nt]]; try reflexivity;
      exfalso; first [apply H0; reflexivity|apply H1; reflexivity].
  - intros H0 H1. destruct nt as [|[] [|[] nt]]; try discriminate; reflexivity.
  - intros H0 H1. destruct nt as [|[] [|[] nt]]; try discriminate; reflexivity.
  - intros H.
    set (P1 := fun e => ¬ (member_id e = u ∧ connected_user_id e = memberId
                           ∧ connection_type e = colleague)).
    set (P2 := fun e => ¬ (member_id e = memberId ∧ connected_user_id e = u
                           ∧ connection_type e = colleague)).
    assert (Hdb : db (exec (handleDisconnectMember memberId)
                        (Build_World u d nt st v ts t tm en dr))
                  = on_member_connections (filter P2)
                      (on_member_connections (filter P1) d)).
    { destruct nt as [|[] [|[] nt]]; try discriminate H; reflexivity. }
    rewrite Hdb. cbn [member_connections on_member_connections].
    split.
    + intros e. rewrite !list_elem_of_filter. unfold P1, P2, links. tauto.
    + intros Hnone. split.
      * destruct d as [ps mcs mfs crs ms]. unfold on_member_connections.
        cbn [member_connections profiles media_page_follows connection_requests
             messages_table] in *.
        f_equal. rewrite (filter_all P1).
        -- apply filter_all. intros e He Hl. apply (Hnone e He).
           unfold links. tauto.
        -- intros e He Hl. apply (Hnone e He). unfold links. tauto.
      * destruct nt as [|[] [|[] nt]]; try discriminate H; reflexivity.
Qed.

Lemma disconnect_reports_witness :
  db (exec (handleDisconnectMember (lit "u2")) demo_disconnected) = db demo_disconnected
  /\ toasts (exec (handleDisconnectMember (lit "u2")) demo_disconnected)
     = toasts demo_disconnected
       ++ [toast_in demo_disconnected success (lit "Disconnected")].
Proof.
  destruct (disconnect_reports Demo.world (lit "u2")) as (_ & _ & _ & H1).
  destruct H1 as [H1 _]; [reflexivity|].
  destruct (disconnect_reports demo_disconnected (lit "u2")) as (_ & _ & _ & H2).
  destruct H2 as [_ H2]; [reflexivity|].
  apply H2. intros e He. apply H1 in He as [_ He]. exact He.
Defined.

(** ** Sending a message (C8) *)

Lemma trim_start_nil (s : str) :
  trim_start s = [] <-> forallb is_white_space s = true.
Proof.
  induction s as [|c s IH]; cbn; [tauto|].
  destruct (is_white_space c); cbn; [exact IH|]. split; discriminate.
Qed.

Lemma forallb_rev {A} (f : A -> bool) (l : list A) :
  forallb f (rev l) = forallb f l.
Proof.
  induction l as [|x l IH]; [reflexivity|]. cbn.
  rewrite forallb_app, IH. cbn. rewrite andb_true_r. apply andb_comm.
Qed.

Lemma trim_start_suffix (s : str) :
  forallb is_white_space s = false ->
  forallb is_white_space (trim_start s) = false.
Proof.
  induction s as [|c s IH]; cbn; [discriminate|].
  destruct (is_white_space c) eqn:Hc; cbn; [exact IH|].
  intros _. rewrite Hc. reflexivity.
Qed.

(** [!messageInput.trim()] holds exactly for the empty and the
    whitespace-only drafts. *)
Lemma trim_blank (s : str) :
  truthy (trim s) = negb (forallb is_white_space s).
Proof.
  unfold trim. destruct (forallb is_white_space s) eqn:Hs.
  - apply trim_start_nil in Hs. rewrite Hs. reflexivity.
  - apply trim_start_suffix in Hs. rewrite <- forallb_rev in Hs.
    destruct (trim_start (rev (trim_start s))) as [|c r] eqn:Hr.
    + apply trim_start_nil in Hr. congruence.
    + cbn. destruct (rev r ++ [c]) eqn:Happ; [|reflexivity].
      apply app_eq_nil in Happ as [_ Happ]. discriminate.
Qed.

Example trim_examples :
  trim (lit "  a b  ") = lit "a b"
  /\ trim [0x20; 0x09; 0x0A; 0xA0; 0x3000; 0xFEFF]%N = []
  /\ trim [0x200B]%N = [0x200B]%N.
Proof. repeat split. Qed.

(** C8. With no connection selected, or with an empty or
    whitespace-only draft, [handleSendMessage] leaves the world as it
    is: no row, same draft.  Otherwise, when the insert and the reload
    are served, it appends exactly one row to [messages] carrying the
    draft, the current time and [read = false], clears the draft and
    sets the message list to what the reload reads. *)
Theorem send_message (w : World) :
  (selectedConnection (ui w) = None
   \/ forallb is_white_space (messageInput (ui w)) = true ->
   exec handleSendMessage w = w)
  /\ (forall conn,
        selectedConnection (ui w) = Some conn ->
        forallb is_white_space (messageInput (ui w)) = false ->
        served 2 (net w) = true ->
        (exists m,
           messages_table (db (exec handleSendMessage w)) = messages_table (db w) ++ [m]
           /\ msg_sender_id m = user w /\ msg_recipient_id m = Connection.id conn
           /\ msg_content m = messageInput (ui w)
           /\ msg_timestamp m = now w /\ msg_read m = false)
        /\ messageInput (ui (exec handleSendMessage w)) = []
        /\ messages (ui (exec handleSendMessage w))
           = message_of <$> inbox (user w) (db (exec handleSendMessage w))
        /\ toasts (exec handleSendMessage w)
           = toasts w ++ [toast_in w success (lit "Message sent")]).
Proof.
  split.
  - intros Hblank. unfold exec, handleSendMessage, bind, gets.
    destruct (selectedConnection (ui w)) as [conn|]; [|reflexivity].
    destruct Hblank as [Hsel|Hws]; [discriminate|].
    rewrite trim_blank, Hws. reflexivity.
  - intros conn Hsel Hws H.
    destruct w as [u d nt st v ts t tm en dr]. cbn [ui net user db now toasts] in *.
    unfold exec, handleSendMessage, bind, gets. cbn [ui].
    rewrite Hsel, trim_blank, Hws. cbn [negb].
    destruct nt as [|[] [|[] nt]]; try discriminate H;
      (split; [eexists; split; [reflexivity|repeat split]|repeat split]).
Qed.

Lemma send_message_witness :
  exec handleSendMessage (demo_drafting (lit "   ")) = demo_drafting (lit "   ")
  /\ messageInput (ui (exec handleSendMessage (demo_drafting (lit "hi")))) = []
  /\ exists m,
       messages_table (db (exec handleSendMessage (demo_drafting (lit "hi"))))
       = messages_table (db (demo_drafting (lit "hi"))) ++ [m]
       /\ msg_content m = lit "hi" /\ msg_read m = false.
Proof.
  split.
  - apply (send_message (demo_drafting (lit "   "))). right. reflexivity.
  - destruct (send_message (demo_drafting (lit "hi"))) as [_ H].
    destruct (H (connection_of Demo.cid)) as ((m & Hm & _ & _ & Hc & _ & Hr) & Hd & _);
      [reflexivity|reflexivity|reflexivity|].
    split; [exact Hd|]. exists m. split; [exact Hm|]. split; [exact Hc|exact Hr].
Defined.

(** ** Failures and the toast queue (C4) *)

(** C4, as amended.  [handleFollowCreator], [handleUnfollowCreator] and
    [handleConnectMember] enqueue an error toast whenever a gateway call
    of theirs is not served, and [handleUnfollowCreator] also when the
    creator is not in the list; [handleDisconnectMember] does so when
    both deletes return an error or one of them throws; and every
    mutating handler does so when a lookup or write it awaits throws. *)
Theorem failures_surface (w : World) :
  (forall c, served 2 (net w) = false ->
     raises w (exec (handleFollowCreator c) w) "Failed to follow creator")
  /\ (forall i,
        (List.find (fun y => bool_decide (Creator.id y = i)) (creators (ui w)) = None ->
         raises w (exec (handleUnfollowCreator i) w) "Creator not found")
        /\ (forall x,
              List.find (fun y => bool_decide (Creator.id y = i)) (creators (ui w)) = Some x ->
              served 2 (net w) = false ->
              raises w (exec (handleUnfollowCreator i) w) "Failed to unfollow creator"))
  /\ (forall m, served 1 (net w) = false ->
        raises w (exec (handleConnectMember m) w) "Failed to send connection request")
  /\ (forall i,
        upcoming (net w) 0 = Crashed \/ upcoming (net w) 1 = Crashed
        \/ (upcoming (net w) 0 = Refused /\ upcoming (net w) 1 = Refused) ->
        raises w (exec (handleDisconnectMember i) w) "Failed to disconnect")
  /\ (forall i,
        upcoming (net w) 0 = Crashed
        \/ (pending_from i (user w) (db w) ≠ [] /\ upcoming (net w) 0 = Served
            /\ (upcoming (net w) 1 = Crashed
                \/ (upcoming (net w) 1 = Served /\ upcoming (net w) 2 = Crashed))) ->
        raises w (exec (handleAcceptConnectionRequest i) w)
          "Failed to accept connection request")
  /\ (forall i,
        upcoming (net w) 0 = Crashed
        \/ (pending_from i (user w) (db w) ≠ [] /\ upcoming (net w) 0 = Served
            /\ upcoming (net w) 1 = Crashed) ->
        raises w (exec (handleDeclineConnectionRequest i) w)
          "Failed to decline connection request")
  /\ (forall conn,
        selectedConnection (ui w) = Some conn ->
        forallb is_white_space (messageInput (ui w)) = false ->
        upcoming (net w) 0 = Crashed ->
        raises w (exec handleSendMessage w) "Failed to send message").
Proof.
  destruct w as [u d nt st v ts t tm en dr]. unfold raises.
  cbn [net ui user db toasts].
  repeat match goal with |- _ /\ _ => split end.
  - intros c H. destruct nt as [|[] [|[] nt]]; try discriminate H; reflexivity.
  - intros i. split.
    + intros Hf. unfold exec, handleUnfollowCreator, bind, gets, try_catch.
      cbn [ui]. rewrite Hf. reflexivity.
    + intros x Hf H. unfold exec, handleUnfollowCreator, bind, gets, try_catch.
      cbn [ui]. rewrite Hf.
      destruct nt as [|[] [|[] nt]]; try discriminate H; reflexivity.
  - intros m H. destruct nt as [|[] nt]; try discriminate H; reflexivity.
  - intros i H.
    destruct nt as [|[] [|[] nt]]; try reflexivity; exfalso;
      cbn in H; intuition discriminate.
  - intros i H.
    unfold exec, handleAcceptConnectionRequest, bind, gets, try_catch, select.
    cbn [user db net].
    destruct (pending_from i u d) as [|r rest];
      destruct nt as [|[] [|[] [|[] nt]]]; try reflexivity; exfalso;
        cbn in H; intuition (discriminate || congruence).
  - intros i H.
    unfold exec, handleDeclineConnectionRequest, bind, gets, try_catch, select.
    cbn [user db net].
    destruct (pending_from i u d) as [|r rest];
      destruct nt as [|[] [|[] nt]]; try reflexivity; exfalso;
        cbn in H; intuition (discriminate || congruence).
  - intros conn Hsel Hws H.
    unfold exec, handleSendMessage, bind, gets. cbn [ui].
    rewrite Hsel, trim_blank, Hws. cbn [negb].
    destruct nt as [|[] nt]; try discriminate H; reflexivity.
Qed.

Lemma failures_surface_witness :
  raises (Demo.world_with [Served; Refused])
    (exec (handleFollowCreator demo_ann) (Demo.world_with [Served; Refused]))
    "Failed to follow creator"
  /\ raises (Demo.world_with [Refused; Refused])
       (exec (handleDisconnectMember (lit "u2")) (Demo.world_with [Refused; Refused]))
       "Failed to disconnect"
  /\ raises (Demo.world_with [Served; Crashed])
       (exec (handleAcceptConnectionRequest (lit "u4")) (Demo.world_with [Served; Crashed]))
       "Failed to accept connection request".
Proof.
  split; [|split].
  - destruct (failures_surface (Demo.world_with [Served; Refused])) as (H & _).
    exact (H demo_ann eq_refl).
  - destruct (failures_surface (Demo.world_with [Refused; Refused]))
      as (_ & _ & _ & H & _).
    exact (H (lit "u2") (or_intror (or_intror (conj eq_refl eq_refl)))).
  - destruct (failures_surface (Demo.world_with [Served; Crashed]))
      as (_ & _ & _ & _ & H & _).
    apply (H (lit "u4")). right.
    split; [vm_compute; discriminate|]. split; [reflexivity|]. left. reflexivity.
Defined.

(** C4 as stated fails.  [handleDisconnectMember] whose first delete
    returns an error and whose second is served ends with the success
    toast alone; [handleAcceptConnectionRequest] whose update returns an
    error enqueues nothing. *)
Lemma failure_not_surfaced :
  upcoming (net (Demo.world_with [Refused; Served])) 0 = Refused
  /\ Toast.type
       <$> toasts (exec (handleDisconnectMember (lit "u2"))
                        (Demo.world_with [Refused; Served]))
     = [success]
  /\ upcoming (net (Demo.world_with [Served; Refused])) 1 = Refused
  /\ toasts (exec (handleAcceptConnectionRequest (lit "u4"))
                  (Demo.world_with [Served; Refused]))
     = [].
Proof. repeat split. Qed.

(** ** The life of a toast (C10) *)

Lemma appends_same (w w' : World) :
  now w' = now w -> entropy w' = entropy w -> draws w' = draws w ->
  toasts w' = toasts w -> timers w' = timers w -> appends w w'.
Proof.
  intros Hn He Hd Ht Htm. unfold appends. rewrite Hn, He, Hd, Ht, Htm.
  split_and!; [reflexivity|reflexivity|lia| |].
  - exists []. rewrite app_nil_r. split; [reflexivity|]. intros t0 H. inversion H.
  - exists []. rewrite app_nil_r. split; [reflexivity|]. intros due j H. inversion H.
Qed.

#[local] Instance appends_refl : Reflexive appends.
Proof. intros w. apply appends_same; reflexivity. Qed.

#[local] Instance appends_trans : Transitive appends.
Proof.
  intros w1 w2 w3 (Hn & He & Hd & (ts & Hts & Hids) & (tms & Htms & Hrm))
                  (Hn' & He' & Hd' & (ts' & Hts' & Hids') & (tms' & Htms' & Hrm')).
  assert (Hl : forall i, drawn w1 w2 i -> drawn w1 w3 i).
  { intros i (k & Hk & ->). exists k. split; [lia|reflexivity]. }
  assert (Hr : forall i, drawn w2 w3 i -> drawn w1 w3 i).
  { intros i (k & Hk & ->). exists k. split; [lia|]. rewrite He. reflexivity. }
  unfold appends. split_and!; [congruence|congruence|lia| |].
  - exists (ts ++ ts'). split; [rewrite Hts', Hts, app_assoc; reflexivity|].
    intros t0 Ht0. apply elem_of_app in Ht0 as [Ht0|Ht0]; auto.
  - exists (tms ++ tms'). split; [rewrite Htms', Htms, app_assoc; reflexivity|].
    intros due j Hj. apply elem_of_app in Hj as [Hj|Hj]; eauto.
Qed.

Lemma addToast_appends (message : str) (type : toast_type) :
  keeps appends (addToast message type).
Proof.
  intros w. cbn. unfold appends. cbn. split_and!; [reflexivity|reflexivity|lia| |].
  - eexists. split; [reflexivity|]. intros t0 Ht0.
    apply list_elem_of_singleton in Ht0 as ->. exists (draws w). cbn.
    split; [lia|reflexivity].
  - eexists. split; [reflexivity|]. intros due j Hj.
    apply list_elem_of_singleton in Hj. injection Hj as _ ->.
    exists (draws w). cbn. split; [lia|reflexivity].
Qed.

Lemma setTimeout_appends (tk : task) (delay : N) :
  (forall j, tk ≠ RemoveToast j) -> keeps appends (setTimeout tk delay).
Proof.
  intros Htk w. cbn. unfold appends. cbn. split_and!; [reflexivity|reflexivity|lia| |].
  - exists []. rewrite app_nil_r. split; [reflexivity|]. intros t0 H. inversion H.
  - eexists. split; [reflexivity|]. intros due j Hj.
    apply list_elem_of_singleton in Hj. injection Hj as _ Hj.
    exfalso. apply (Htk j). symmetry. exact Hj.
Qed.

(** Steps that touch neither the queue nor the event loop. *)
Ltac appends_prim :=
  first
    [ apply addToast_appends
    | apply setTimeout_appends; intros ?; discriminate
    | apply keeps_select; intros; apply appends_same; reflexivity
    | apply keeps_mutate;
      first [typeclasses eauto|intros; apply appends_same; reflexivity]
    | apply keeps_modify; intros; apply appends_same; reflexivity
    | assumption ].

Lemma loadCreators_appends : keeps appends loadCreators.
Proof. unfold loadCreators. keeps_with appends_prim. Qed.

Lemma loadMembers_appends : keeps appends loadMembers.
Proof. unfold loadMembers. keeps_with appends_prim. Qed.

Lemma loadConnections_appends : keeps appends loadConnections.
Proof. unfold loadConnections. keeps_with appends_prim. Qed.

Lemma loadMessages_appends : keeps appends loadMessages.
Proof. unfold loadMessages. keeps_with appends_prim. Qed.

Lemma handle_appends (e : event) :
  of_the_loop e = false -> keeps appends (handle e).
Proof.
  pose proof loadCreators_appends. pose proof loadMembers_appends.
  pose proof loadConnections_appends. pose proof loadMessages_appends.
  destruct e; cbn [of_the_loop handle]; try discriminate; intros _.
  - unfold mount. keeps_with appends_prim.
  - unfold on_follow_change. assumption.
  - unfold on_profile_update. keeps_with appends_prim.
  - unfold on_member_connection_change. keeps_with appends_prim.
  - unfold on_connection_request_change. keeps_with appends_prim.
  - unfold handleFollowCreator. keeps_with appends_prim.
  - unfold handleUnfollowCreator. keeps_with appends_prim.
  - unfold handleConnectMember. keeps_with appends_prim.
  - unfold handleAcceptConnectionRequest. keeps_with appends_prim.
  - unfold handleDeclineConnectionRequest. keeps_with appends_prim.
  - unfold handleDisconnectMember. keeps_with appends_prim.
  - keeps_with appends_prim.
  - keeps_with appends_prim.
  - unfold handleSendMessage. keeps_with appends_prim.
  - apply addToast_appends.
  - keeps_with appends_prim.
Qed.

Lemma earliest_least (l : list (N * task)) (x : N * task) :
  earliest l = Some x -> x ∈ l /\ forall y, y ∈ l -> (x.1 <= y.1)%N.
Proof.
  revert x. induction l as [|a l IH]; intros x; cbn; [discriminate|].
  destruct (earliest l) as [y|] eqn:Hy.
  - destruct (IH y eq_refl) as [Hin Hle].
    destruct (N.leb_spec a.1 y.1) as [Hay|Hay]; intros [= <-].
    + split; [apply list_elem_of_here|]. intros z Hz.
      apply elem_of_cons in Hz as [->|Hz]; [lia|]. specialize (Hle z Hz). lia.
    + split; [apply list_elem_of_further, Hin|]. intros z Hz.
      apply elem_of_cons in Hz as [->|Hz]; [lia|]. apply Hle, Hz.
  - intros [= <-]. destruct l as [|b l]; [|cbn in Hy; destruct (earliest l);
      [destruct (_ <=? _)%N|]; discriminate].
    split; [apply list_elem_of_here|]. intros z Hz.
    apply list_elem_of_singleton in Hz as ->. lia.
Qed.

Lemma filter_remove_first_other (i : str) (x : N * task) (l : list (N * task)) :
  ¬ targets i x -> filter (targets i) (remove_first x l) = filter (targets i) l.
Proof.
  intros Hx. induction l as [|y l IH]; [reflexivity|]. cbn [remove_first].
  case_bool_decide as Hy.
  - subst y. rewrite filter_cons_False by assumption. reflexivity.
  - rewrite !filter_cons, IH. reflexivity.
Qed.

Lemma filter_remove_first_only (i : str) (x : N * task) (l : list (N * task)) :
  filter (targets i) l = [x] -> filter (targets i) (remove_first x l) = [].
Proof.
  induction l as [|y l IH]; [discriminate|]. cbn [remove_first].
  rewrite filter_cons. case_bool_decide as Hy.
  - subst y. destruct (decide (targets i x)); [congruence|].
    intros Hf. assert (Hx : x ∈ filter (targets i) l) by (rewrite Hf; apply list_elem_of_here).
    apply list_elem_of_filter in Hx as [Hx _]. contradiction.
  - destruct (decide (targets i y)) as [Ht|Ht]; [congruence|].
    intros Hf. rewrite filter_cons_False by assumption. apply IH, Hf.
Qed.

Section Tracked.
Context (i : str) (T : Toast.t) (D : N) (HT : Toast.id T = i).

Lemma tracked_appends (w w' : World) :
  tracked i T D w -> appends w w' -> tracked i T D w'.
Proof.
  intros [Hfresh Hphase] (Hn & He & Hd & (ts & Hts & Hids) & (tms & Htms & Hrm)).
  assert (Hnew : filter (targets i) tms = []).
  { apply filter_none. intros [due tk] Hx Ht. unfold targets in Ht. cbn in Ht.
    subst tk.
    destruct (Hrm due i Hx) as (k & Hk & Hi). apply (Hfresh k); [lia|]. auto. }
  split.
  - intros k Hk. rewrite He. apply Hfresh. lia.
  - rewrite Hn, Hts, Htms, filter_app, Hnew, app_nil_r.
    destruct Hphase as [(Hnow & Hin & Hf)|(Hnow & Hout & Hf)]; [left|right].
    + split_and!; [assumption| |assumption]. apply elem_of_app. left. assumption.
    + split_and!; [assumption| |assumption]. intros t0 Ht0.
      apply elem_of_app in Ht0 as [Ht0|Ht0]; [apply Hout, Ht0|].
      destruct (Hids t0 Ht0) as (k & Hk & ->). apply Hfresh. lia.
Qed.

Lemma tracked_due (w : World) (x : N * task) :
  tracked i T D w -> (now w <= D)%N -> T ∈ toasts w ->
  earliest (timers w) = Some x -> (x.1 <= D)%N.
Proof.
  intros [_ [(_ & _ & Hf)|(_ & Hout & _)]] Hnow Hin Hx.
  - apply earliest_least in Hx as [_ Hle].
    apply (Hle (D, RemoveToast i)).
    assert (H : (D, RemoveToast i) ∈ filter (targets i) (timers w))
      by (rewrite Hf; apply list_elem_of_here).
    apply list_elem_of_filter in H as [_ H]. exact H.
  - exfalso. apply (Hout T Hin HT).
Qed.

Lemma tracked_idle (w : World) (dt : N) :
  tracked i T D w -> tracked i T D (exec (idle dt) w).
Proof.
  intros Hw. pose proof Hw as [Hfresh Hphase]. unfold exec, idle, modify. cbn [final].
  destruct (earliest (timers w)) as [[due tk]|] eqn:Hx.
  - split; [exact Hfresh|]. cbn [now toasts timers set_now].
    destruct Hphase as [(Hnow & Hin & Hf)|(Hnow & Hout & Hf)]; [left|right].
    + pose proof (tracked_due w _ Hw Hnow Hin Hx) as Hdue. cbn in Hdue.
      split_and!; [lia|assumption|assumption].
    + split_and!; [lia|assumption|assumption].
  - split; [exact Hfresh|]. cbn [now toasts timers set_now].
    destruct Hphase as [(Hnow & Hin & Hf)|(Hnow & Hout & Hf)]; [exfalso|right].
    + destruct (timers w) as [|a l]; [discriminate Hf|].
      cbn in Hx. destruct (earliest l); [destruct (_ <=? _)%N|]; discriminate.
    + split_and!; [lia|assumption|assumption].
Qed.

Lemma tracked_fire (w : World) :
  tracked i T D w -> tracked i T D (exec fire w).
Proof.
  intros Hw. pose proof Hw as [Hfresh Hphase]. unfold exec, fire.
  destruct (earliest (timers w)) as [[due tk]|] eqn:Hx; [|exact Hw].
  set (w2 := set_timers (remove_first (due, tk)) (set_now (N.max (now w) due) w)).
  destruct (decide (tk = RemoveToast i)) as [->|Htk].
  - (* the removal of [T] itself *)
    cbn [run_task]. unfold removeToast, modify. cbn [final].
    split; [exact Hfresh|]. cbn [now toasts timers set_toasts set_timers set_now w2].
    destruct Hphase as [(Hnow & Hin & Hf)|(Hnow & Hout & Hf)].
    + assert (Hd : (due, RemoveToast i) ∈ filter (targets i) (timers w)).
      { apply list_elem_of_filter. split; [reflexivity|].
        apply earliest_least in Hx as [Hx _]. exact Hx. }
      rewrite Hf in Hd. apply list_elem_of_singleton in Hd. injection Hd as ->.
      right. split_and!; [lia| |apply filter_remove_first_only, Hf].
      intros t0 Ht0. apply list_elem_of_filter in Ht0 as [Ht0 _]. exact Ht0.
    + exfalso. apply earliest_least in Hx as [Hx _].
      assert (Hd : (due, RemoveToast i) ∈ filter (targets i) (timers w))
        by (apply list_elem_of_filter; split; [reflexivity|exact Hx]).
      rewrite Hf in Hd. inversion Hd.
  - (* some other timer *)
    assert (Hw2 : tracked i T D w2).
    { split; [exact Hfresh|]. cbn [now toasts timers set_timers set_now w2].
      rewrite filter_remove_first_other by (unfold targets; cbn; congruence).
      destruct Hphase as [(Hnow & Hin & Hf)|(Hnow & Hout & Hf)]; [left|right].
      - pose proof (tracked_due w _ Hw Hnow Hin Hx) as Hdue. cbn in Hdue.
        split_and!; [lia|assumption|assumption].
      - split_and!; [lia|assumption|assumption]. }
    destruct tk as [| |j]; cbn [run_task].
    + apply (tracked_appends w2); [exact Hw2|apply loadCreators_appends].
    + apply (tracked_appends w2); [exact Hw2|apply loadMembers_appends].
    + unfold removeToast, modify. cbn [final].
      destruct Hw2 as [Hfresh2 Hphase2]. split; [exact Hfresh2|].
      cbn [now toasts timers set_toasts].
      destruct Hphase2 as [(Hnow & Hin & Hf)|(Hnow & Hout & Hf)]; [left|right].
      * split_and!; [assumption| |assumption].
        apply list_elem_of_filter. split; [|exact Hin]. congruence.
      * split_and!; [assumption| |assumption].
        intros t0 Ht0. apply list_elem_of_filter in Ht0 as [_ Ht0]. apply Hout, Ht0.
Qed.

Lemma tracked_step (w : World) (e : event) :
  tracked i T D w -> tracked i T D (step w e).
Proof.
  intros Hw. destruct (of_the_loop e) eqn:He.
  - destruct e; try discriminate He; [apply tracked_fire|apply tracked_idle]; exact Hw.
  - apply (tracked_appends w); [exact Hw|]. apply handle_appends, He.
Qed.

Lemma tracked_run (es : list event) (w : World) :
  tracked i T D w -> tracked i T D (run es w).
Proof.
  revert w. induction es as [|e es IH]; intros w Hw; [exact Hw|].
  apply IH, tracked_step, Hw.
Qed.
End Tracked.

(** C10.  [addToast] appends its toast at the end of the queue and
    schedules one removal 4000 ms (the spec's 4 time units) later.  The
    removal deletes the entries carrying that toast's identifier and no
    other.  When the identifier is the toast's own (no removal for it is
    pending, and it is not drawn again), then whatever events follow,
    other toasts, handlers, reloads and timers in any number, the toast
    is in the queue at every time before its due time and no entry with
    its identifier is in the queue at any time after it. *)
Theorem toast_lifetime (w : World) (message : str) (type : toast_type) :
  let i := entropy w (draws w) in
  let T := toast_in w type message in
  let D := (now w + 4000)%N in
  let w1 := exec (addToast message type) w in
  toasts w1 = toasts w ++ [T]
  /\ timers w1 = timers w ++ [(D, RemoveToast i)]
  /\ (forall w0 t, t ∈ toasts (exec (removeToast i) w0)
                   <-> t ∈ toasts w0 /\ Toast.id t ≠ i)
  /\ ((forall due, (due, RemoveToast i) ∉ timers w) ->
      (forall k, (draws w < k)%nat -> entropy w k ≠ i) ->
      forall es,
        ((now (run es w1) < D)%N -> T ∈ toasts (run es w1))
        /\ ((D < now (run es w1))%N ->
            forall t, t ∈ toasts (run es w1) -> Toast.id t ≠ i)).
Proof.
  intros i T D w1. split_and!; [reflexivity|reflexivity| |].
  - intros w0 t0. unfold exec, removeToast, modify. cbn [final toasts set_toasts].
    rewrite list_elem_of_filter. tauto.
  - intros Hnone Hfresh es.
    assert (H1 : tracked i T D w1).
    { split.
      - intros k Hk. apply Hfresh. unfold w1 in Hk. cbn in Hk. lia.
      - left. unfold w1, D. cbn.
        split_and!; [lia|apply elem_of_app; right; apply list_elem_of_here|].
        rewrite filter_app, filter_none.
        + cbn. rewrite decide_True by reflexivity. reflexivity.
        + intros [due tk] Hx Ht. unfold targets in Ht. cbn in Ht. subst tk.
          apply (Hnone due Hx). }
    pose proof (tracked_run i T D eq_refl es w1 H1) as [_ Hphase]. split.
    + intros Hlt. destruct Hphase as [(_ & Hin & _)|(Hge & _ & _)]; [exact Hin|lia].
    + intros Hgt. destruct Hphase as [(Hle & _ & _)|(_ & Hout & _)]; [lia|exact Hout].
Qed.

Lemma toast_lifetime_witness :
  toast_in demo_second error (lit "two")
    ∈ toasts (run [Idle 3000; Fire] (exec (addToast (lit "two") error) demo_second))
  /\ forall t,
       t ∈ toasts (run [Idle 1000; AddToast (lit "two") error; Idle 3000; Fire; Idle 500]
                       (exec (addToast (lit "one") success) demo_first)) ->
       Toast.id t ≠ entropy demo_first (draws demo_first).
Proof.
  split.
  - destruct (toast_lifetime demo_second (lit "two") error) as (_ & _ & _ & H).
    assert (Hnone : forall due,
              (due, RemoveToast (entropy demo_second (draws demo_second)))
              ∉ timers demo_second).
    { intros due Hd. vm_compute in Hd. apply list_elem_of_singleton in Hd. discriminate. }
    assert (Hfresh : forall k, (draws demo_second < k)%nat ->
              entropy demo_second k ≠ entropy demo_second (draws demo_second)).
    { intros k Hk Hi. vm_compute in Hk. injection Hi as Hi. lia. }
    destruct (H Hnone Hfresh [Idle 3000; Fire]) as [Hin _].
    apply Hin. vm_compute. reflexivity.
  - destruct (toast_lifetime demo_first (lit "one") success) as (_ & _ & _ & H).
    assert (Hnone : forall due,
              (due, RemoveToast (entropy demo_first (draws demo_first)))
              ∉ timers demo_first).
    { intros due Hd. inversion Hd. }
    assert (Hfresh : forall k, (draws demo_first < k)%nat ->
              entropy demo_first k ≠ entropy demo_first (draws demo_first)).
    { intros k Hk Hi. vm_compute in Hk. injection Hi as Hi. lia. }
    destruct (H Hnone Hfresh
                [Idle 1000; AddToast (lit "two") error; Idle 3000; Fire; Idle 500])
      as [_ Hout].
    apply Hout. vm_compute. reflexivity.
Defined.

Example demo_queue_after_first_expiry :
  Toast.message
    <$> toasts (run [AddToast (lit "one") success; Idle 1000;
                     AddToast (lit "two") error; Idle 3000; Fire] Demo.world)
  = [lit "two"].
Proof. vm_compute. reflexivity. Qed.

(** Why the identifier has to be the toast's own: were the same
    identifier drawn twice, the first removal would take both toasts. *)
Example same_identifier_twice :
  toasts (run [AddToast (lit "one") success; Idle 1000;
               AddToast (lit "two") error; Idle 3000; Fire]
              (boot (lit "u1") Demo.store [] Demo.empty_storage (fun _ => lit "x")))
  = [].
Proof. vm_compute. reflexivity. Qed.

(** * Further properties of the loads, the handlers and the reactor *)

(** ** The members pass *)

Lemma loadMembers_served_state (w : World) :
  served 5 (net w) = true ->
  pendingRequests (ui (exec loadMembers w))
    = foldl assign_true ∅ (sent_requests (user w) (db w))
  /\ creators (ui (exec loadMembers w)) = creators (ui w)
  /\ membersLoaded (ui (exec loadMembers w)) = true
  /\ db (exec loadMembers w) = db w
  /\ user (exec loadMembers w) = user w
  /\ net (exec loadMembers w) = drop 5 (net w).
Proof.
  intros H.
  destruct w as [u d nt st v ts t tm en dr]; cbn [net] in H.
  destruct nt as [|[] [|[] [|[] [|[] [|[] nt]]]]]; try discriminate H; repeat split.
Qed.

Lemma prototype_setter_inherited : lit "__proto__" ∈ object_prototype.
Proof. apply (bool_decide_unpack _). vm_compute. exact I. Qed.

(** The own properties the assignments of [loadMembers] leave. *)
Lemma assign_true_lookup (l : list str) (obj : gmap str bool) (k : str) :
  foldl assign_true obj l !! k
  = if bool_decide (k ∈ l /\ k ≠ lit "__proto__") then Some true else obj !! k.
Proof.
  revert obj. induction l as [|x l IH]; intros obj; cbn [foldl].
  - rewrite bool_decide_eq_false_2; [reflexivity|].
    intros [Hk _]. apply elem_of_nil in Hk. contradiction.
  - rewrite IH. destruct (decide (k ∈ l /\ k ≠ lit "__proto__")) as [Hl|Hl].
    + rewrite !bool_decide_eq_true_2; [reflexivity| |exact Hl].
      destruct Hl as [Hl Hp]. split; [apply list_elem_of_further, Hl|exact Hp].
    + rewrite (bool_decide_eq_false_2 _ Hl). unfold assign_true.
      destruct (decide (x = lit "__proto__")) as [Hx|Hx].
      * rewrite (bool_decide_eq_true_2 _ Hx), bool_decide_eq_false_2; [reflexivity|].
        intros [[->|Hk]%elem_of_cons Hp]; [contradiction|]. apply Hl. split; assumption.
      * rewrite (bool_decide_eq_false_2 _ Hx). destruct (decide (x = k)) as [->|Hxk].
        -- rewrite lookup_insert_eq, bool_decide_eq_true_2; [reflexivity|].
           split; [apply list_elem_of_here|exact Hx].
        -- rewrite lookup_insert_ne by exact Hxk.
           rewrite bool_decide_eq_false_2; [reflexivity|].
           intros [[->|Hk]%elem_of_cons Hp]; [contradiction|]. apply Hl. split; assumption.
Qed.

(** What the plain object reads as after them. *)
Lemma pending_map_reads (l : list str) (k : str) :
  reads_truthy (foldl assign_true ∅ l) k = true <-> k ∈ l \/ k ∈ object_prototype.
Proof.
  unfold reads_truthy. rewrite assign_true_lookup, lookup_empty.
  case_bool_decide as Hk.
  - split; [intros _; left; apply Hk|reflexivity].
  - rewrite bool_decide_eq_true. split; [intros Hp; right; exact Hp|].
    intros [Hl|Hp]; [|exact Hp].
    destruct (decide (k = lit "__proto__")) as [->|Hn].
    + apply prototype_setter_inherited.
    + exfalso. apply Hk. split; assumption.
Qed.

Lemma connected_with_iff (u i : str) (d : database) :
  i ∈ outgoing_colleagues u d ++ incoming_colleagues u d
  <-> exists e, e ∈ member_connections d /\ links u i e.
Proof.
  unfold outgoing_colleagues, incoming_colleagues, links.
  rewrite elem_of_app, !list_elem_of_fmap. split.
  - intros [(e & -> & He)|(e & -> & He)];
      apply list_elem_of_filter in He as [[? ?] ?]; exists e; tauto.
  - intros (e & He & Hc & [[Hm Hk]|[Hm Hk]]).
    + left. exists e. split; [auto|]. apply list_elem_of_filter. auto.
    + right. exists e. split; [auto|]. apply list_elem_of_filter. auto.
Qed.

Lemma sent_request_iff (u i : str) (d : database) :
  i ∈ sent_requests u d
  <-> exists r, r ∈ connection_requests d /\ sender_id r = u
                /\ recipient_id r = i /\ cr_status r = pending.
Proof.
  unfold sent_requests. rewrite list_elem_of_fmap. split.
  - intros (r & -> & Hr). apply list_elem_of_filter in Hr as [[? ?] ?]. eauto 6.
  - intros (r & Hr & ? & <- & ?). exists r. split; [done|].
    apply list_elem_of_filter. auto.
Qed.

(** X1. After a served [loadMembers] pass a listed member has
    [connected = true] exactly when the store holds a colleague row
    between the current user and the member, in either direction. *)
Theorem loadMembers_connected_iff (w : World) :
  served 5 (net w) = true ->
  forall m, m ∈ members (ui (exec loadMembers w)) ->
    Member.connected m = true
    <-> exists e, e ∈ member_connections (db w) /\ links (user w) (Member.id m) e.
Proof.
  intros H m Hm. rewrite (loadMembers_served w H) in Hm.
  apply list_elem_of_fmap in Hm as (p & -> & _). cbn.
  rewrite bool_decide_eq_true, elem_of_list_to_set. apply connected_with_iff.
Qed.

Lemma loadMembers_connected_iff_witness :
  served 5 (net Demo.world) = true
  /\ forall m, m ∈ members (ui (exec loadMembers Demo.world)) ->
       Member.connected m = true
       <-> exists e, e ∈ member_connections (db Demo.world)
                     /\ links (user Demo.world) (Member.id m) e.
Proof.
  split; [reflexivity|]. apply (loadMembers_connected_iff Demo.world). reflexivity.
Defined.

(** X2. After a served [loadMembers] pass a listed member shows
    [requestStatus = 'pending'] exactly when the store holds a pending
    request sent by the current user to that member, or the member's id
    names a property of [Object.prototype], which the plain object
    [pendingRequestsMap] inherits; otherwise it shows ['none'].  A
    pending request in the other direction does not show.  The own
    properties of the [pendingRequests] object are the recipients of the
    user's pending requests, except [__proto__]. *)
Theorem loadMembers_request_status (w : World) :
  served 5 (net w) = true ->
  (forall m, m ∈ members (ui (exec loadMembers w)) ->
     (Member.requestStatus m = Some req_pending
      \/ Member.requestStatus m = Some req_none)
     /\ (Member.requestStatus m = Some req_pending
         <-> (exists r, r ∈ connection_requests (db w) /\ sender_id r = user w
                        /\ recipient_id r = Member.id m /\ cr_status r = pending)
             \/ Member.id m ∈ object_prototype))
  /\ (forall k,
        default false (pendingRequests (ui (exec loadMembers w)) !! k) = true
        <-> k ≠ lit "__proto__"
            /\ exists r, r ∈ connection_requests (db w) /\ sender_id r = user w
                         /\ recipient_id r = k /\ cr_status r = pending).
Proof.
  intros H. split.
  - intros m Hm. rewrite (loadMembers_served w H) in Hm.
    apply list_elem_of_fmap in Hm as (p & -> & _). cbn.
    rewrite <- sent_request_iff, <- pending_map_reads.
    destruct (reads_truthy _ _).
    + split; [left; reflexivity|]. split; reflexivity.
    + split; [right; reflexivity|]. split; discriminate.
  - intros k. destruct (loadMembers_served_state w H) as (-> & _).
    rewrite assign_true_lookup, lookup_empty, <- sent_request_iff.
    case_bool_decide as Hk; cbn.
    + split; [intros _; destruct Hk; split; assumption|reflexivity].
    + split; [discriminate|]. intros [Hp Hl]. destruct Hk. split; assumption.
Qed.

Lemma loadMembers_request_status_witness :
  served 5 (net Demo.world) = true
  /\ forall k,
       default false (pendingRequests (ui (exec loadMembers Demo.world)) !! k) = true
       <-> k ≠ lit "__proto__"
           /\ exists r, r ∈ connection_requests (db Demo.world)
                        /\ sender_id r = user Demo.world
                        /\ recipient_id r = k /\ cr_status r = pending.
Proof.
  split; [reflexivity|].
  destruct (loadMembers_request_status Demo.world) as [_ H]; [reflexivity|exact H].
Defined.

(** X3. A served pass lists at most 100 creators and at most 50
    members; each listed entry is a profile of the store of the right
    account type, the members list never holds the current user, and
    when the store has no more profiles than the limit every one of them
    is listed. *)
Theorem loads_bounded (w : World) :
  served 5 (net w) = true ->
  (length (creators (ui (exec loadCreators w))) <= 100)%nat
  /\ (forall c, c ∈ creators (ui (exec loadCreators w)) ->
        exists p, p ∈ profiles (db w) /\ p_account_type p = creator
                  /\ p_id p = Creator.id c /\ p_name p = Creator.name c)
  /\ (length (members (ui (exec loadMembers w))) <= 50)%nat
  /\ (forall m, m ∈ members (ui (exec loadMembers w)) ->
        Member.id m ≠ user w
        /\ exists p, p ∈ profiles (db w) /\ p_account_type p = member
                     /\ p_id p = Member.id m /\ p_name p = Member.name m)
  /\ ((length (profiles (db w)) <= 50)%nat ->
      (forall p, p ∈ profiles (db w) -> p_account_type p = creator ->
         p_id p ∈ Creator.id <$> creators (ui (exec loadCreators w)))
      /\ (forall p, p ∈ profiles (db w) -> p_account_type p = member ->
            p_id p ≠ user w ->
            p_id p ∈ Member.id <$> members (ui (exec loadMembers w)))).
Proof.
  intros H.
  assert (H3 : served 3 (net w) = true).
  { change 5%nat with (3 + 2)%nat in H. rewrite served_add in H.
    apply andb_true_iff in H as [H _]. exact H. }
  destruct (loadCreators_served w H3) as (-> & _). rewrite (loadMembers_served w H).
  split_and!.
  - rewrite length_fmap. unfold creator_profiles. rewrite length_take. lia.
  - intros c Hc. apply list_elem_of_fmap in Hc as (p & -> & Hp).
    apply subseteq_take, list_elem_of_filter in Hp as [Hk Hp]. exists p. auto.
  - rewrite length_fmap. unfold member_profiles. rewrite length_take. lia.
  - intros m Hm. apply list_elem_of_fmap in Hm as (p & -> & Hp).
    apply subseteq_take, list_elem_of_filter in Hp as [[Hk Hne] Hp].
    split; [exact Hne|]. exists p. auto.
  - intros Hlen. split.
    + intros p Hp Hk. apply list_elem_of_fmap.
      exists (creator_of (list_to_set (follows_of (user w) (db w)))
                         (list_to_set (media_follows_of (user w) (db w))) p).
      split; [reflexivity|]. apply list_elem_of_fmap. exists p. split; [reflexivity|].
      unfold creator_profiles. rewrite take_ge.
      * apply list_elem_of_filter. auto.
      * pose proof (length_filter (fun p => p_account_type p = creator)
                      (profiles (db w))). lia.
    + intros p Hp Hk Hne. apply list_elem_of_fmap.
      eexists. split; [|apply list_elem_of_fmap; exists p; split; [reflexivity|]].
      * reflexivity.
      * unfold member_profiles. rewrite take_ge.
        -- apply list_elem_of_filter. auto.
        -- pose proof (length_filter
                         (fun p => p_account_type p = member ∧ p_id p ≠ user w)
                         (profiles (db w))). lia.
Qed.

Lemma loads_bounded_witness :
  (length (creators (ui (exec loadCreators Demo.world))) <= 100)%nat
  /\ (length (members (ui (exec loadMembers Demo.world))) <= 50)%nat
  /\ forall m, m ∈ members (ui (exec loadMembers Demo.world)) ->
       Member.id m ≠ user Demo.world.
Proof.
  destruct (loads_bounded Demo.world) as (Hc & _ & Hm & Hu & _); [reflexivity|].
  split; [exact Hc|]. split; [exact Hm|]. intros m Hin. apply (Hu m Hin).
Defined.

(** ** What the loads leave alone *)

#[local] Instance reads_only_refl : Reflexive reads_only.
Proof. intros w. repeat split. Qed.

#[local] Instance reads_only_trans : Transitive reads_only.
Proof.
  intros w1 w2 w3 (? & ? & ? & ?) (? & ? & ? & ?). unfold reads_only.
  split_and!; congruence.
Qed.

#[local] Instance silent_refl : Reflexive silent.
Proof. intros w. repeat split. Qed.

#[local] Instance silent_trans : Transitive silent.
Proof.
  intros w1 w2 w3 (? & ? & ?) (? & ? & ?). unfold silent. split_and!; congruence.
Qed.

Lemma addToast_reads_only (message : str) (type : toast_type) :
  keeps reads_only (addToast message type).
Proof. intros w. repeat split. Qed.

Ltac reads_only_prim :=
  first
    [ apply addToast_reads_only
    | apply keeps_select; intros; repeat split
    | apply keeps_modify; intros; repeat split ].

Ltac silent_prim :=
  first
    [ apply keeps_select; intros; repeat split
    | apply keeps_modify; intros; repeat split ].

Lemma loadMembers_silent : keeps silent loadMembers.
Proof. unfold loadMembers. keeps_with silent_prim. Qed.

Lemma loadConnections_silent : keeps silent loadConnections.
Proof. unfold loadConnections. keeps_with silent_prim. Qed.

Lemma loadMessages_silent : keeps silent loadMessages.
Proof. unfold loadMessages. keeps_with silent_prim. Qed.

Lemma loadCreators_reads_only : keeps reads_only loadCreators.
Proof. unfold loadCreators. keeps_with reads_only_prim. Qed.

Lemma loadMembers_reads_only : keeps reads_only loadMembers.
Proof. unfold loadMembers. keeps_with reads_only_prim. Qed.

Lemma loadConnections_reads_only : keeps reads_only loadConnections.
Proof. unfold loadConnections. keeps_with reads_only_prim. Qed.

Lemma loadMessages_reads_only : keeps reads_only loadMessages.
Proof. unfold loadMessages. keeps_with reads_only_prim. Qed.

(** X4. Whatever the gateway does (served, error returned, promise
    rejected, at any call), the four loads never write to the store, and
    [loadMembers], [loadConnections] and [loadMessages] never touch the
    toast queue or the timers: their failures are silent. *)
Theorem loads_only_read (w : World) :
  reads_only w (exec loadCreators w)
  /\ reads_only w (exec loadMembers w)
  /\ reads_only w (exec loadConnections w)
  /\ reads_only w (exec loadMessages w)
  /\ silent w (exec loadMembers w)
  /\ silent w (exec loadConnections w)
  /\ silent w (exec loadMessages w).
Proof.
  split_and!.
  - apply loadCreators_reads_only.
  - apply loadMembers_reads_only.
  - apply loadConnections_reads_only.
  - apply loadMessages_reads_only.
  - apply loadMembers_silent.
  - apply loadConnections_silent.
  - apply loadMessages_silent.
Qed.

(** X5. How [loadCreators] degrades.  When the profile read returns an
    error the lists, the flags and the cache stay as they were and no
    toast is raised.  When a read throws, the creators list and the
    cache stay as they were and the error toast 'Failed to load
    creators' is raised.  When only the read of the follow rows returns
    an error it counts as empty: a creator then shows as followed
    exactly when the legacy relation names it. *)
Theorem loadCreators_degrades (w : World) :
  (upcoming (net w) 0 = Refused ->
   ui (exec loadCreators w) = ui w /\ storage (exec loadCreators w) = storage w
   /\ toasts (exec loadCreators w) = toasts w)
  /\ (upcoming (net w) 0 = Crashed
      \/ (upcoming (net w) 0 = Served
          /\ (upcoming (net w) 1 = Crashed
              \/ (upcoming (net w) 1 ≠ Crashed /\ upcoming (net w) 2 = Crashed))) ->
      ui (exec loadCreators w) = ui w /\ storage (exec loadCreators w) = storage w
      /\ raises w (exec loadCreators w) "Failed to load creators")
  /\ (upcoming (net w) 0 = Served -> upcoming (net w) 1 = Refused ->
      upcoming (net w) 2 = Served ->
      forall c, c ∈ creators (ui (exec loadCreators w)) ->
        Creator.followed c = true
        <-> exists f, f ∈ media_page_follows (db w) /\ follower_id f = user w
                      /\ creator_name f = Creator.name c).
Proof.
  destruct w as [u d nt st v ts t tm en dr]. unfold raises.
  cbn [net ui storage toasts user db].
  split_and!.
  - intros H. destruct nt as [|[] nt]; try discriminate H. repeat split.
  - intros H.
    destruct nt as [|[] [|[] [|[] nt]]]; cbn in H;
      try (exfalso; intuition (discriminate || congruence)); repeat split.
  - intros H0 H1 H2 c Hc.
    assert (Hl : creators (ui (exec loadCreators (Build_World u d nt st v ts t tm en dr)))
                 = creator_of ∅ (list_to_set (media_follows_of u d))
                     <$> creator_profiles d).
    { destruct nt as [|[] [|[] [|[] nt]]]; try discriminate; reflexivity. }
    rewrite Hl in Hc. apply list_elem_of_fmap in Hc as (p & -> & _).
    cbn [Creator.followed Creator.name creator_of].
    rewrite orb_true_iff, !bool_decide_eq_true, elem_of_list_to_set, followed_via_media.
    split; [intros [Hin|Hin]; [|exact Hin]|auto].
    apply elem_of_empty in Hin. contradiction.
Qed.

Lemma loadCreators_degrades_witness :
  (forall c, c ∈ creators (ui (exec loadCreators (Demo.world_with [Served; Refused]))) ->
     Creator.followed c = true
     <-> exists f, f ∈ media_page_follows Demo.store /\ follower_id f = lit "u1"
                   /\ creator_name f = Creator.name c)
  /\ raises (Demo.world_with [Served; Crashed])
       (exec loadCreators (Demo.world_with [Served; Crashed]))
       "Failed to load creators".
Proof.
  split.
  - destruct (loadCreators_degrades (Demo.world_with [Served; Refused])) as (_ & _ & H).
    exact (H eq_refl eq_refl eq_refl).
  - destruct (loadCreators_degrades (Demo.world_with [Served; Crashed])) as (_ & H & _).
    apply H. right. split; [reflexivity|]. left. reflexivity.
Defined.

(** ** The connections list and the inbox *)

Lemma profile_of_Some (d : database) (i : str) (p : profile) :
  profile_of d i = Some p -> p ∈ profiles d /\ p_id p = i.
Proof.
  unfold profile_of. intros H. apply find_some in H as [Hin Hid].
  split; [apply list_elem_of_In, Hin|]. apply bool_decide_eq_true in Hid. exact Hid.
Qed.

Lemma add_connection_deduplicated (acc : gset str * list Connection.t)
    (conn : option profile) :
  deduplicated acc -> deduplicated (add_connection acc conn).
Proof.
  intros [Hnd Hset]. unfold add_connection.
  destruct conn as [p|]; [|split; assumption].
  case_bool_decide as Hin; [split; assumption|]. unfold deduplicated. cbn [fst snd].
  split.
  - rewrite fmap_app. cbn. apply NoDup_app. split; [exact Hnd|]. split.
    + intros i Hi Hp. apply list_elem_of_singleton in Hp as ->.
      apply Hin, Hset, Hi.
    + apply NoDup_singleton.
  - intros i. rewrite fmap_app, elem_of_app, elem_of_union, elem_of_singleton. cbn.
    rewrite list_elem_of_singleton, Hset. tauto.
Qed.

Lemma add_connections_spec (l : list (option profile))
    (acc : gset str * list Connection.t) :
  deduplicated acc ->
  deduplicated (foldl add_connection acc l)
  /\ (length (foldl add_connection acc l).2 <= length acc.2 + length l)%nat
  /\ (forall c, c ∈ (foldl add_connection acc l).2 ->
        c ∈ acc.2 \/ exists p, Some p ∈ l /\ c = connection_of p)
  /\ (forall i, i ∈ Connection.id <$> acc.2 ->
        i ∈ Connection.id <$> (foldl add_connection acc l).2)
  /\ (forall p, Some p ∈ l ->
        p_id p ∈ Connection.id <$> (foldl add_connection acc l).2).
Proof.
  revert acc. induction l as [|x l IH]; intros acc Hacc; cbn [foldl].
  - split_and!; [exact Hacc|cbn; lia|auto|auto|].
    intros p Hp. apply elem_of_nil in Hp. contradiction.
  - pose proof (add_connection_deduplicated acc x Hacc) as Hacc'.
    destruct (IH _ Hacc') as (Hd & Hlen & Hin & Hkeep & Hall).
    assert (Hstep : (length (add_connection acc x).2 <= S (length acc.2))%nat
                    /\ (forall c, c ∈ (add_connection acc x).2 ->
                          c ∈ acc.2 \/ exists p, x = Some p /\ c = connection_of p)
                    /\ (forall i, i ∈ Connection.id <$> acc.2 ->
                          i ∈ Connection.id <$> (add_connection acc x).2)
                    /\ (forall p, x = Some p ->
                          p_id p ∈ Connection.id <$> (add_connection acc x).2)).
    { unfold add_connection. destruct x as [p|].
      - case_bool_decide as Hp; cbn [fst snd].
        + split_and!; [lia|auto|auto|]. intros q [= <-].
          apply Hacc, Hp.
        + rewrite length_app, fmap_app. cbn. split_and!; [lia| | |].
          * intros c Hc. apply elem_of_app in Hc as [Hc|Hc]; [auto|].
            apply list_elem_of_singleton in Hc. eauto.
          * intros i Hi. apply elem_of_app. auto.
          * intros q [= <-]. apply elem_of_app. right. apply list_elem_of_here.
      - split_and!; [lia|auto|auto|discriminate]. }
    destruct Hstep as (Hlen1 & Hin1 & Hkeep1 & Hnew1).
    split_and!; [exact Hd|cbn [length]; lia| | |].
    + intros c Hc. destruct (Hin c Hc) as [Hc1|(p & Hp & ->)].
      * destruct (Hin1 c Hc1) as [Hc0|(p & -> & ->)]; [auto|].
        right. exists p. split; [apply list_elem_of_here|reflexivity].
      * right. exists p. split; [apply list_elem_of_further, Hp|reflexivity].
    + intros i Hi. apply Hkeep, Hkeep1, Hi.
    + intros p Hp. apply elem_of_cons in Hp as [<-|Hp].
      * apply Hkeep, Hnew1. reflexivity.
      * apply Hall, Hp.
Qed.

Lemma loadConnections_served (w : World) :
  served 2 (net w) = true ->
  connections (ui (exec loadConnections w))
  = (foldl add_connection
       (foldl add_connection (∅, []) (outgoing_with_profiles (user w) (db w)))
       (incoming_with_profiles (user w) (db w))).2.
Proof.
  intros H. destruct w as [u d nt st v ts t tm en dr]; cbn [net] in H.
  destruct nt as [|[] [|[] nt]]; try discriminate H; reflexivity.
Qed.

Lemma with_profile_linked (u : str) (d : database) (p : profile) :
  Some p ∈ outgoing_with_profiles u d ++ incoming_with_profiles u d ->
  p ∈ profiles d /\ exists e, e ∈ member_connections d /\ links u (p_id p) e.
Proof.
  unfold outgoing_with_profiles, incoming_with_profiles. intros Hp.
  assert (Hi : exists i, i ∈ outgoing_colleagues u d ++ incoming_colleagues u d
                         /\ profile_of d i = Some p).
  { apply elem_of_app in Hp as [Hp|Hp]; apply subseteq_take in Hp;
      apply list_elem_of_fmap in Hp as (i & Hi & Hin); exists i;
        (split; [apply elem_of_app; auto|auto]). }
  destruct Hi as (i & Hi & Hf). apply profile_of_Some in Hf as [Hin <-].
  split; [exact Hin|]. apply connected_with_iff, Hi.
Qed.

(** X6. After a served [loadConnections] pass the connections list holds
    no identity twice and at most 100 entries; every entry is the profile
    of someone joined to the current user by a colleague row in one
    direction or the other, and everyone who came back from either read
    with a profile is listed. *)
Theorem loadConnections_deduplicates (w : World) :
  served 2 (net w) = true ->
  NoDup (Connection.id <$> connections (ui (exec loadConnections w)))
  /\ (length (connections (ui (exec loadConnections w))) <= 100)%nat
  /\ (forall c, c ∈ connections (ui (exec loadConnections w)) ->
        Connection.isFollowing c = true
        /\ (exists p, p ∈ profiles (db w) /\ p_id p = Connection.id c
                      /\ p_name p = Connection.name c)
        /\ exists e, e ∈ member_connections (db w)
                     /\ links (user w) (Connection.id c) e)
  /\ (forall p, Some p ∈ outgoing_with_profiles (user w) (db w)
                         ++ incoming_with_profiles (user w) (db w) ->
        p_id p ∈ Connection.id <$> connections (ui (exec loadConnections w))).
Proof.
  intros H. rewrite (loadConnections_served w H).
  set (out := outgoing_with_profiles (user w) (db w)).
  set (inc := incoming_with_profiles (user w) (db w)).
  assert (H0 : deduplicated (∅, [])).
  { split; [apply NoDup_nil_2|]. intros i. cbn. rewrite elem_of_empty, elem_of_nil. tauto. }
  destruct (add_connections_spec out _ H0) as (Hd1 & Hlen1 & Hin1 & _ & Hall1).
  destruct (add_connections_spec inc _ Hd1) as ([Hnd _] & Hlen2 & Hin2 & Hkeep2 & Hall2).
  split_and!.
  - exact Hnd.
  - assert (length out <= 50 /\ length inc <= 50)%nat as [? ?].
    { unfold out, inc, outgoing_with_profiles, incoming_with_profiles.
      rewrite !length_take. lia. }
    cbn [length snd] in Hlen1. lia.
  - intros c Hc.
    assert (Hp : exists p, Some p ∈ out ++ inc /\ c = connection_of p).
    { destruct (Hin2 c Hc) as [Hc1|(p & Hp & ->)].
      - destruct (Hin1 c Hc1) as [Hc0|(p & Hp & ->)].
        + apply elem_of_nil in Hc0. contradiction.
        + exists p. split; [apply elem_of_app; auto|reflexivity].
      - exists p. split; [apply elem_of_app; auto|reflexivity]. }
    destruct Hp as (p & Hp & ->). apply with_profile_linked in Hp as [Hin Hl].
    split; [reflexivity|]. split; [|exact Hl]. exists p. auto.
  - intros p Hp. apply elem_of_app in Hp as [Hp|Hp].
    + apply Hkeep2, Hall1, Hp.
    + apply Hall2, Hp.
Qed.

Lemma loadConnections_deduplicates_witness :
  NoDup (Connection.id <$> connections (ui (exec loadConnections Demo.world)))
  /\ (length (connections (ui (exec loadConnections Demo.world))) <= 100)%nat.
Proof.
  destruct (loadConnections_deduplicates Demo.world) as (H1 & H2 & _); [reflexivity|].
  split; assumption.
Defined.

(** Eve's connections on the demo store: Cid (outgoing) and Dee
    (incoming). *)
Example demo_connections :
  Connection.name <$> connections (ui (exec loadConnections Demo.world))
  = [lit "Cid"; lit "Dee"].
Proof. vm_compute. reflexivity. Qed.

Lemma insert_desc_elem (m x : message_row) (l : list message_row) :
  x ∈ insert_desc m l <-> x = m \/ x ∈ l.
Proof.
  induction l as [|y l IH]; cbn.
  - rewrite list_elem_of_singleton, elem_of_nil. tauto.
  - destruct (_ <? _)%N; rewrite !elem_of_cons; [tauto|]. rewrite IH. tauto.
Qed.

Lemma insert_desc_sorted (m : message_row) (l : list message_row) :
  StronglySorted newer_row_first l -> StronglySorted newer_row_first (insert_desc m l).
Proof.
  induction 1 as [|y l Hl IH Hy]; cbn.
  - apply SSorted_cons; [apply SSorted_nil|apply Forall_nil_2].
  - destruct (N.ltb_spec (msg_timestamp y) (msg_timestamp m)) as [Hlt|Hge].
    + apply SSorted_cons; [apply SSorted_cons; assumption|].
      apply Forall_cons. split; [unfold newer_row_first; lia|].
      eapply Forall_impl; [exact Hy|]. unfold newer_row_first. intros z Hz. lia.
    + apply SSorted_cons; [exact IH|]. apply Forall_forall. intros z Hz.
      apply insert_desc_elem in Hz as [->|Hz]; [exact Hge|].
      rewrite Forall_forall in Hy. apply Hy, Hz.
Qed.

Lemma order_desc_sorted (l : list message_row) :
  StronglySorted newer_row_first (order_desc l).
Proof.
  induction l as [|x l IH]; cbn; [apply SSorted_nil|apply insert_desc_sorted, IH].
Qed.

Lemma order_desc_elem (x : message_row) (l : list message_row) :
  x ∈ order_desc l <-> x ∈ l.
Proof.
  induction l as [|y l IH]; cbn; [reflexivity|].
  rewrite insert_desc_elem, elem_of_cons, IH. reflexivity.
Qed.

Lemma insert_desc_length (m : message_row) (l : list message_row) :
  length (insert_desc m l) = S (length l).
Proof.
  induction l as [|y l IH]; cbn; [reflexivity|].
  destruct (_ <? _)%N; cbn; [reflexivity|]. rewrite IH. reflexivity.
Qed.

Lemma order_desc_length (l : list message_row) : length (order_desc l) = length l.
Proof.
  induction l as [|y l IH]; [reflexivity|].
  change (order_desc (y :: l)) with (insert_desc y (order_desc l)).
  rewrite insert_desc_length, IH. reflexivity.
Qed.

Lemma StronglySorted_take {A} (R : A -> A -> Prop) (n : nat) (l : list A) :
  StronglySorted R l -> StronglySorted R (take n l).
Proof.
  intros Hl. revert n. induction Hl as [|x l Hl IH Hx]; intros [|n]; cbn;
    try apply SSorted_nil.
  apply SSorted_cons; [apply IH|]. apply Forall_take, Hx.
Qed.

Lemma loadMessages_served (w : World) :
  served 1 (net w) = true ->
  messages (ui (exec loadMessages w)) = message_of <$> inbox (user w) (db w).
Proof.
  intros H. destruct w as [u d nt st v ts t tm en dr]; cbn [net] in H.
  destruct nt as [|[] nt]; try discriminate H; reflexivity.
Qed.

(** X7. After a served [loadMessages] pass the message list is ordered
    newest first and holds at most 50 entries; each is a row of
    [messages] addressed to the current user, shown with the sender's
    name, or with 'Unknown' and no avatar when the sender has no
    profile; and when at most 50 rows are addressed to the user every
    one of them is shown. *)
Theorem loadMessages_newest_first (w : World) :
  served 1 (net w) = true ->
  StronglySorted newer_first (messages (ui (exec loadMessages w)))
  /\ (length (messages (ui (exec loadMessages w))) <= 50)%nat
  /\ (forall m, m ∈ messages (ui (exec loadMessages w)) ->
        (exists row, row ∈ messages_table (db w) /\ msg_recipient_id row = user w
                     /\ msg_id row = Message.id m
                     /\ msg_sender_id row = Message.sender_id m
                     /\ msg_content row = Message.content m
                     /\ msg_timestamp row = Message.timestamp m
                     /\ msg_read row = Message.read m)
        /\ (profile_of (db w) (Message.sender_id m) = None ->
            Message.sender_name m = lit "Unknown" /\ Message.sender_avatar m = []))
  /\ ((length (filter (fun row => msg_recipient_id row = user w)
                      (messages_table (db w))) <= 50)%nat ->
      forall row, row ∈ messages_table (db w) -> msg_recipient_id row = user w ->
        msg_id row ∈ Message.id <$> messages (ui (exec loadMessages w))).
Proof.
  intros H. rewrite (loadMessages_served w H). unfold inbox.
  set (mine := filter (fun row => msg_recipient_id row = user w) (messages_table (db w))).
  split_and!.
  - rewrite <- list_fmap_compose.
    apply (StronglySorted_fmap _ newer_row_first); [intros x y Hxy; exact Hxy|].
    apply StronglySorted_take, order_desc_sorted.
  - rewrite !length_fmap, length_take. lia.
  - intros m Hm. rewrite <- list_fmap_compose in Hm.
    apply list_elem_of_fmap in Hm as (row & -> & Hrow).
    apply subseteq_take, order_desc_elem, list_elem_of_filter in Hrow as [Hto Hin].
    split; [exists row; cbn; auto 10|]. cbn. intros ->. split; reflexivity.
  - intros Hlen row Hin Hto. rewrite <- !list_fmap_compose.
    apply list_elem_of_fmap. exists row. split; [reflexivity|].
    rewrite take_ge by (rewrite order_desc_length; exact Hlen).
    apply order_desc_elem, list_elem_of_filter. auto.
Qed.

Lemma loadMessages_newest_first_witness :
  StronglySorted newer_first (messages (ui (exec loadMessages demo_inbox)))
  /\ (length (messages (ui (exec loadMessages demo_inbox))) <= 50)%nat.
Proof.
  destruct (loadMessages_newest_first demo_inbox) as (H1 & H2 & _); [reflexivity|].
  split; assumption.
Defined.

(** The inbox on that store. *)
Example demo_messages :
  (fun m => (Message.timestamp m, Message.sender_name m))
    <$> messages (ui (exec loadMessages demo_inbox))
  = [(9%N, lit "Dee"); (7%N, lit "Unknown"); (5%N, lit "Cid")].
Proof. vm_compute. reflexivity. Qed.

(** ** Requests: connect, accept, decline *)

Lemma handleConnectMember_served (w : World) (m : Member.t) :
  served 1 (net w) = true ->
  db (exec (handleConnectMember m) w)
    = on_connection_requests (fun l => l ++ [new_request (user w) m (db w)]) (db w)
  /\ members (ui (exec (handleConnectMember m) w))
     = mark_pending (Member.id m) (members (ui w))
  /\ pendingRequests (ui (exec (handleConnectMember m) w))
     = <[Member.id m := true]> (pendingRequests (ui w))
  /\ toasts (exec (handleConnectMember m) w)
     = toasts w ++ [toast_in w success (lit "Connection request sent to " ++ Member.name m)]
  /\ timers (exec (handleConnectMember m) w)
     = timers w ++ [((now w + 4000)%N, RemoveToast (entropy w (draws w)))].
Proof.
  intros H. destruct w as [u d nt st v ts t tm en dr]; cbn [net] in H.
  destruct nt as [|[] nt]; try discriminate H; repeat split.
Qed.

(** X8. [handleConnectMember] never writes to [member_connections],
    whatever the gateway does.  Served, it appends exactly one request,
    pending, from the current user to the member and with no message;
    marks the member's entries pending in the list and in the
    [pendingRequests] map, leaving other entries as they are; and raises
    the success toast.  Not served, it leaves the store and the list as
    they were. *)
Theorem connect_sends_request (w : World) (m : Member.t) :
  member_connections (db (exec (handleConnectMember m) w)) = member_connections (db w)
  /\ (served 1 (net w) = true ->
      (exists r, connection_requests (db (exec (handleConnectMember m) w))
                 = connection_requests (db w) ++ [r]
                 /\ sender_id r = user w /\ recipient_id r = Member.id m
                 /\ cr_status r = pending /\ cr_message r = None)
      /\ (forall k x, members (ui w) !! k = Some x ->
            members (ui (exec (handleConnectMember m) w)) !! k
            = Some (if bool_decide (Member.id x = Member.id m)
                    then Member.with_requestStatus req_pending x else x))
      /\ pendingRequests (ui (exec (handleConnectMember m) w)) !! Member.id m = Some true
      /\ toasts (exec (handleConnectMember m) w)
         = toasts w
           ++ [toast_in w success (lit "Connection request sent to " ++ Member.name m)])
  /\ (served 1 (net w) = false ->
      db (exec (handleConnectMember m) w) = db w
      /\ members (ui (exec (handleConnectMember m) w)) = members (ui w)).
Proof.
  split_and!.
  - destruct w as [u d nt st v ts t tm en dr].
    destruct nt as [|[] nt]; reflexivity.
  - intros H.
    destruct (handleConnectMember_served w m H) as (Hdb & Hms & Hp & Hts & _).
    rewrite Hdb, Hms, Hp, Hts. split_and!.
    + eexists. split; [reflexivity|]. repeat split.
    + intros k x Hk. unfold mark_pending. rewrite list_lookup_fmap, Hk. reflexivity.
    + apply lookup_insert_eq.
    + reflexivity.
  - intros H. destruct w as [u d nt st v ts t tm en dr]; cbn [net] in H.
    destruct nt as [|[] nt]; try discriminate H; repeat split.
Qed.

Lemma connect_sends_request_witness :
  exists r, connection_requests (db (exec (handleConnectMember demo_cid) demo_loaded))
            = connection_requests (db demo_loaded) ++ [r]
            /\ sender_id r = user demo_loaded /\ recipient_id r = Member.id demo_cid
            /\ cr_status r = pending /\ cr_message r = None.
Proof.
  destruct (connect_sends_request demo_loaded demo_cid) as (_ & H & _).
  destruct H as (H & _); [reflexivity|exact H].
Defined.

Lemma handleAccept_served (w : World) (memberId : str) (i : N) (rest : list N) :
  served 3 (net w) = true ->
  pending_from memberId (user w) (db w) = i :: rest ->
  db (exec (handleAcceptConnectionRequest memberId) w)
    = on_member_connections (fun l => l ++ [colleague_edge memberId (user w)])
        (update_status i accepted (db w))
  /\ toasts (exec (handleAcceptConnectionRequest memberId) w)
     = toasts w ++ [toast_in w success (lit "Connection accepted")]
  /\ timers (exec (handleAcceptConnectionRequest memberId) w)
     = timers w ++ [((now w + 4000)%N, RemoveToast (entropy w (draws w)));
                    ((now w + 500)%N, ReloadMembers)].
Proof.
  intros H Hp. destruct w as [u d nt st v ts t tm en dr]; cbn [net user db] in *.
  unfold exec, handleAcceptConnectionRequest, bind, gets, try_catch, select.
  cbn [user db net]. rewrite Hp.
  destruct nt as [|[] [|[] [|[] nt]]]; try discriminate H;
    (split_and!; [reflexivity|reflexivity|cbn; rewrite <- app_assoc; reflexivity]).
Qed.

Lemma pending_from_elem (a b : str) (d : database) (i : N) :
  i ∈ pending_from a b d
  <-> exists r, r ∈ connection_requests d /\ cr_id r = i /\ sender_id r = a
                /\ recipient_id r = b /\ cr_status r = pending.
Proof.
  unfold pending_from. rewrite list_elem_of_fmap. split.
  - intros (r & -> & Hr). apply list_elem_of_filter in Hr as [(? & ? & ?) ?]. eauto 8.
  - intros (r & Hr & <- & ? & ? & ?). exists r. split; [done|].
    apply list_elem_of_filter. auto.
Qed.

Lemma pending_from_app (a b : str) (d : database) (r : connection_request) :
  pending_from a b (on_connection_requests (fun l => l ++ [r]) d)
  = pending_from a b d
    ++ (if decide (sender_id r = a ∧ recipient_id r = b ∧ cr_status r = pending)
        then [cr_id r] else []).
Proof.
  unfold pending_from. cbn. rewrite filter_app, fmap_app. f_equal.
  rewrite filter_cons, filter_nil. destruct (decide _); reflexivity.
Qed.

(** Settling the request [i] takes it, and nothing else, out of the
    pending ones. *)
Lemma pending_from_update (a b : str) (d : database) (i : N) (s : request_status) :
  s ≠ pending ->
  pending_from a b (update_status i s d) = filter (fun j => j ≠ i) (pending_from a b d).
Proof.
  intros Hs. unfold pending_from, update_status, on_connection_requests.
  cbn [connection_requests].
  induction (connection_requests d) as [|r l IH]; [reflexivity|].
  rewrite (fmap_cons _ r l), !filter_cons.
  destruct (decide (cr_id r = i)) as [Hi|Hi].
  - rewrite (bool_decide_eq_true_2 _ Hi).
    rewrite decide_False by (cbn; intros (_ & _ & Hst); apply Hs; exact Hst).
    rewrite IH. destruct (decide (_ ∧ _)); [|reflexivity].
    rewrite fmap_cons, filter_cons_False by (intros Hne; apply Hne; exact Hi).
    reflexivity.
  - rewrite (bool_decide_eq_false_2 _ Hi).
    destruct (decide (_ ∧ _)); [|exact IH].
    rewrite !fmap_cons, filter_cons_True by exact Hi. rewrite IH. reflexivity.
Qed.

Lemma handleAccept_nothing_pending (w : World) (memberId : str) :
  pending_from memberId (user w) (db w) = [] ->
  upcoming (net w) 0 ≠ Crashed ->
  db (exec (handleAcceptConnectionRequest memberId) w) = db w
  /\ toasts (exec (handleAcceptConnectionRequest memberId) w) = toasts w
  /\ timers (exec (handleAcceptConnectionRequest memberId) w) = timers w.
Proof.
  intros Hp Hc. destruct w as [u d nt st v ts t tm en dr]; cbn [net user db] in *.
  unfold exec, handleAcceptConnectionRequest, bind, gets, try_catch, select.
  cbn [user db net]. rewrite Hp.
  destruct nt as [|[] nt]; repeat split; exfalso; apply Hc; reflexivity.
Qed.

(** X9. A member sends a request and the recipient accepts it, each call
    served.  The store then holds exactly one more [member_connections]
    row, a colleague row from the sender to the recipient; a served
    [loadMembers] pass of either of the two shows the other one as
    connected.  The sender's pass shows the recipient with
    [requestStatus = 'none'] when the sender had no pending request to
    the recipient before and the recipient's id names no property of
    [Object.prototype], and with ['pending'] when it names one. *)
Theorem connect_then_accept (wa wb : World) (m : Member.t) :
  served 1 (net wa) = true ->
  user wb = Member.id m ->
  db wb = db (exec (handleConnectMember m) wa) ->
  served 3 (net wb) = true ->
  (exists e,
     member_connections (db (exec (handleAcceptConnectionRequest (user wa)) wb))
     = member_connections (db wa) ++ [e]
     /\ member_id e = user wa /\ connected_user_id e = Member.id m
     /\ connection_type e = colleague /\ mc_status e = lit "active")
  /\ (forall va x,
        user va = user wa ->
        db va = db (exec (handleAcceptConnectionRequest (user wa)) wb) ->
        served 5 (net va) = true ->
        x ∈ members (ui (exec loadMembers va)) -> Member.id x = Member.id m ->
        Member.connected x = true
        /\ (pending_from (user wa) (Member.id m) (db wa) = [] ->
            Member.id m ∉ object_prototype ->
            Member.requestStatus x = Some req_none)
        /\ (Member.id m ∈ object_prototype ->
            Member.requestStatus x = Some req_pending))
  /\ (forall vb x,
        user vb = Member.id m ->
        db vb = db (exec (handleAcceptConnectionRequest (user wa)) wb) ->
        served 5 (net vb) = true ->
        x ∈ members (ui (exec loadMembers vb)) -> Member.id x = user wa ->
        Member.connected x = true).
Proof.
  intros Ha Hub Hdb Hb.
  destruct (handleConnectMember_served wa m Ha) as (Hdb1 & _).
  rewrite Hdb1 in Hdb.
  set (r := new_request (user wa) m (db wa)) in *.
  assert (Hp1 : pending_from (user wa) (user wb) (db wb)
                = pending_from (user wa) (Member.id m) (db wa) ++ [cr_id r]).
  { rewrite Hdb, Hub, pending_from_app.
    rewrite decide_True by (repeat split). reflexivity. }
  destruct (pending_from (user wa) (user wb) (db wb)) as [|i rest] eqn:Hp.
  { destruct (pending_from (user wa) (Member.id m) (db wa)); discriminate Hp1. }
  destruct (handleAccept_served wb (user wa) i rest Hb Hp) as (Hdb2 & _).
  set (w2 := exec (handleAcceptConnectionRequest (user wa)) wb) in *.
  assert (Hmc : member_connections (db w2)
                = member_connections (db wa) ++ [colleague_edge (user wa) (Member.id m)]).
  { rewrite Hdb2, Hdb, Hub. reflexivity. }
  assert (Hedge : colleague_edge (user wa) (Member.id m) ∈ member_connections (db w2)).
  { rewrite Hmc. apply elem_of_app. right. apply list_elem_of_here. }
  split_and!.
  - exists (colleague_edge (user wa) (Member.id m)).
    split; [exact Hmc|]. split_and!; reflexivity.
  - intros va x Hu Hd Hs Hx Hid.
    rewrite (loadMembers_served va Hs) in Hx.
    apply list_elem_of_fmap in Hx as (p & -> & _). cbn in Hid. cbn. split_and!.
    + rewrite bool_decide_eq_true, elem_of_list_to_set, connected_with_iff.
      exists (colleague_edge (user wa) (Member.id m)). rewrite Hd, Hu, Hid.
      split; [exact Hedge|]. split; [reflexivity|]. left. split; reflexivity.
    + intros Hnone Hproto.
      destruct (reads_truthy _ _) eqn:Hd0; [|reflexivity]. exfalso.
      apply pending_map_reads in Hd0 as [Hd0|Hd0];
        [|rewrite Hid in Hd0; contradiction].
      apply sent_request_iff in Hd0 as (q & Hq & Hsq & Hrq & Hstq).
      assert (Hin : cr_id q ∈ pending_from (user wa) (Member.id m) (db w2)).
      { apply pending_from_elem. exists q. rewrite <- Hd, <- Hu, <- Hid. auto. }
      rewrite Hdb2 in Hin.
      change (pending_from (user wa) (Member.id m)
                (on_member_connections
                   (fun l => l ++ [colleague_edge (user wa) (user wb)])
                   (update_status i accepted (db wb))))
        with (pending_from (user wa) (Member.id m) (update_status i accepted (db wb)))
        in Hin.
      rewrite pending_from_update in Hin by discriminate.
      rewrite <- Hub, Hp in Hin. rewrite Hnone in Hp1. cbn in Hp1.
      injection Hp1 as -> ->. rewrite filter_cons_False in Hin by (intros Hne; apply Hne; reflexivity).
      apply elem_of_nil in Hin. exact Hin.
    + intros Hproto.
      destruct (reads_truthy _ _) eqn:Hd0; [reflexivity|].
      assert (Ht : reads_truthy (foldl assign_true ∅ (sent_requests (user va) (db va)))
                     (p_id p) = true)
        by (apply pending_map_reads; right; rewrite Hid; exact Hproto).
      rewrite Ht in Hd0. discriminate Hd0.
  - intros vb x Hu Hd Hs Hx Hid.
    rewrite (loadMembers_served vb Hs) in Hx.
    apply list_elem_of_fmap in Hx as (p & -> & _). cbn in Hid. cbn.
    rewrite bool_decide_eq_true, elem_of_list_to_set, connected_with_iff.
    exists (colleague_edge (user wa) (Member.id m)). rewrite Hd, Hu, Hid.
    split; [exact Hedge|]. split; [reflexivity|]. right. split; reflexivity.
Qed.

Lemma connect_then_accept_witness :
  exists e,
    member_connections
      (db (exec (handleAcceptConnectionRequest (user demo_loaded))
             (demo_as "u2" (db (exec (handleConnectMember demo_cid) demo_loaded)))))
    = member_connections (db demo_loaded) ++ [e]
    /\ member_id e = user demo_loaded /\ connected_user_id e = Member.id demo_cid
    /\ connection_type e = colleague /\ mc_status e = lit "active".
Proof.
  destruct (connect_then_accept demo_loaded
              (demo_as "u2" (db (exec (handleConnectMember demo_cid) demo_loaded)))
              demo_cid) as (H & _); [reflexivity|reflexivity|reflexivity|reflexivity|].
  exact H.
Defined.

Lemma handleDecline_served (w : World) (memberId : str) (i : N) (rest : list N) :
  served 2 (net w) = true ->
  pending_from memberId (user w) (db w) = i :: rest ->
  db (exec (handleDeclineConnectionRequest memberId) w) = update_status i rejected (db w)
  /\ toasts (exec (handleDeclineConnectionRequest memberId) w)
     = toasts w ++ [toast_in w success (lit "Connection request declined")]
  /\ timers (exec (handleDeclineConnectionRequest memberId) w)
     = timers w ++ [((now w + 4000)%N, RemoveToast (entropy w (draws w)));
                    ((now w + 500)%N, ReloadMembers)]
  /\ user (exec (handleDeclineConnectionRequest memberId) w) = user w
  /\ net (exec (handleDeclineConnectionRequest memberId) w) = drop 2 (net w).
Proof.
  intros H Hp. destruct w as [u d nt st v ts t tm en dr]; cbn [net user db] in *.
  unfold exec, handleDeclineConnectionRequest, bind, gets, try_catch, select.
  cbn [user db net]. rewrite Hp.
  destruct nt as [|[] [|[] nt]]; try discriminate H;
    (split_and!; [reflexivity|reflexivity|cbn; rewrite <- app_assoc; reflexivity
                 |reflexivity|reflexivity]).
Qed.

(** X10. [handleDeclineConnectionRequest], served on a pending request
    from [memberId]: the request found is set to rejected, no
    [member_connections] row is added, the success toast is raised and a
    members reload is set 500 ms ahead.  The request leaves the pending
    ones for good: when it was the only one, a later accept of the same
    member changes nothing in the store and raises no toast. *)
Theorem decline_settles (w : World) (memberId : str) (i : N) (rest : list N) :
  served 2 (net w) = true ->
  pending_from memberId (user w) (db w) = i :: rest ->
  member_connections (db (exec (handleDeclineConnectionRequest memberId) w))
  = member_connections (db w)
  /\ (exists r, r ∈ connection_requests (db w) /\ cr_id r = i
                /\ sender_id r = memberId /\ recipient_id r = user w
                /\ with_status rejected r
                   ∈ connection_requests
                       (db (exec (handleDeclineConnectionRequest memberId) w)))
  /\ pending_from memberId (user w) (db (exec (handleDeclineConnectionRequest memberId) w))
     = filter (fun j => j ≠ i) rest
  /\ toasts (exec (handleDeclineConnectionRequest memberId) w)
     = toasts w ++ [toast_in w success (lit "Connection request declined")]
  /\ ((now w + 500)%N, ReloadMembers)
     ∈ timers (exec (handleDeclineConnectionRequest memberId) w)
  /\ (rest = [] ->
      upcoming (net w) 2 ≠ Crashed ->
      db (exec (handleAcceptConnectionRequest memberId)
            (exec (handleDeclineConnectionRequest memberId) w))
      = db (exec (handleDeclineConnectionRequest memberId) w)
      /\ toasts (exec (handleAcceptConnectionRequest memberId)
                   (exec (handleDeclineConnectionRequest memberId) w))
         = toasts (exec (handleDeclineConnectionRequest memberId) w)).
Proof.
  intros H Hp.
  destruct (handleDecline_served w memberId i rest H Hp) as (Hdb & Hts & Htm & Hu & Hn).
  set (w' := exec (handleDeclineConnectionRequest memberId) w) in *.
  assert (Hpend : pending_from memberId (user w) (db w') = filter (fun j => j ≠ i) rest).
  { rewrite Hdb, pending_from_update by discriminate. rewrite Hp.
    rewrite filter_cons_False by (intros Hne; apply Hne; reflexivity). reflexivity. }
  split_and!.
  - rewrite Hdb. reflexivity.
  - assert (Hi : i ∈ pending_from memberId (user w) (db w))
      by (rewrite Hp; apply list_elem_of_here).
    apply pending_from_elem in Hi as (r & Hr & Hid & Hs & Hrc & _).
    exists r. split_and!; try assumption. rewrite Hdb. cbn.
    apply list_elem_of_fmap. exists r. split; [|exact Hr].
    rewrite bool_decide_eq_true_2 by exact Hid. reflexivity.
  - exact Hpend.
  - exact Hts.
  - rewrite Htm. apply elem_of_app. right. apply list_elem_of_further, list_elem_of_here.
  - intros -> Hc.
    destruct (handleAccept_nothing_pending w' memberId) as (Hd2 & Ht2 & _).
    + rewrite Hu. exact Hpend.
    + rewrite Hn. unfold upcoming in *. rewrite lookup_drop. exact Hc.
    + split; assumption.
Qed.

Lemma decline_settles_witness :
  member_connections (db (exec (handleDeclineConnectionRequest (lit "u4")) Demo.world))
  = member_connections (db Demo.world)
  /\ pending_from (lit "u4") (lit "u1")
       (db (exec (handleDeclineConnectionRequest (lit "u4")) Demo.world)) = [].
Proof.
  destruct (decline_settles Demo.world (lit "u4") 1%N []) as (H1 & _ & H2 & _);
    [reflexivity|vm_compute; reflexivity|].
  split; [exact H1|exact H2].
Defined.

(** X11. When [handleAcceptConnectionRequest] finds a pending request
    and its update is served but the insert of the colleague row returns
    an error, the request stays accepted, no row is added, and nothing
    is shown or scheduled; the request being no longer pending, the
    handler will not find it again. *)
Theorem accept_without_edge (w : World) (memberId : str) (i : N) (rest : list N) :
  pending_from memberId (user w) (db w) = i :: rest ->
  upcoming (net w) 0 = Served -> upcoming (net w) 1 = Served ->
  upcoming (net w) 2 = Refused ->
  db (exec (handleAcceptConnectionRequest memberId) w) = update_status i accepted (db w)
  /\ member_connections (db (exec (handleAcceptConnectionRequest memberId) w))
     = member_connections (db w)
  /\ (i ∉ pending_from memberId (user w)
            (db (exec (handleAcceptConnectionRequest memberId) w)))
  /\ toasts (exec (handleAcceptConnectionRequest memberId) w) = toasts w
  /\ timers (exec (handleAcceptConnectionRequest memberId) w) = timers w
  /\ storage (exec (handleAcceptConnectionRequest memberId) w) = storage w.
Proof.
  intros Hp H0 H1 H2.
  assert (Hall : db (exec (handleAcceptConnectionRequest memberId) w)
                 = update_status i accepted (db w)
                 /\ toasts (exec (handleAcceptConnectionRequest memberId) w) = toasts w
                 /\ timers (exec (handleAcceptConnectionRequest memberId) w) = timers w
                 /\ storage (exec (handleAcceptConnectionRequest memberId) w) = storage w).
  { destruct w as [u d nt st v ts t tm en dr]; cbn [net user db] in *.
    unfold exec, handleAcceptConnectionRequest, bind, gets, try_catch, select.
    cbn [user db net]. rewrite Hp.
    destruct nt as [|[] [|[] [|[] nt]]]; try discriminate; repeat split. }
  destruct Hall as (Hdb & Hts & Htm & Hst). rewrite Hdb.
  split_and!; try assumption; [reflexivity|reflexivity|].
  rewrite pending_from_update by discriminate. intros Hin.
  apply list_elem_of_filter in Hin as [Hne _]. apply Hne. reflexivity.
Qed.

Lemma accept_without_edge_witness :
  member_connections
    (db (exec (handleAcceptConnectionRequest (lit "u4"))
           (Demo.world_with [Served; Served; Refused])))
  = member_connections Demo.store
  /\ toasts (exec (handleAcceptConnectionRequest (lit "u4"))
               (Demo.world_with [Served; Served; Refused])) = [].
Proof.
  destruct (accept_without_edge (Demo.world_with [Served; Served; Refused])
              (lit "u4") 1%N []) as (_ & H1 & _ & H2 & _);
    [vm_compute; reflexivity|reflexivity|reflexivity|reflexivity|].
  split; [exact H1|exact H2].
Defined.

(** ** The life of a request *)

Lemma requests_kept_same (w w' : World) :
  connection_requests (db w') = connection_requests (db w) -> requests_kept w w'.
Proof. intros H k r Hk. exists r. rewrite H. auto 10. Qed.

#[local] Instance requests_kept_refl : Reflexive requests_kept.
Proof. intros w. apply requests_kept_same. reflexivity. Qed.

#[local] Instance requests_kept_trans : Transitive requests_kept.
Proof.
  intros w1 w2 w3 H12 H23 k r Hk.
  destruct (H12 k r Hk) as (r2 & Hk2 & ? & ? & ? & ? & Hs2).
  destruct (H23 k r2 Hk2) as (r3 & Hk3 & ? & ? & ? & ? & Hs3).
  exists r3. split_and!; try congruence. auto.
Qed.

Lemma requests_kept_append (w : World) (x : database -> connection_request) :
  requests_kept w (set_db (fun d => on_connection_requests (fun l => l ++ [x d]) d) w).
Proof.
  intros k r Hk. exists r. cbn. rewrite lookup_app_l by (eapply lookup_lt_Some, Hk).
  auto 10.
Qed.

Lemma requests_kept_update (w : World) (i : N) (s : request_status) :
  s ≠ pending -> requests_kept w (set_db (update_status i s) w).
Proof.
  intros Hs k r Hk. cbn. rewrite list_lookup_fmap, Hk. cbn.
  eexists. split; [reflexivity|]. case_bool_decide; cbn; auto 10.
Qed.

Lemma addToast_requests_kept (message : str) (type : toast_type) :
  keeps requests_kept (addToast message type).
Proof. intros w. apply requests_kept_same. reflexivity. Qed.

Ltac requests_prim :=
  first
    [ apply addToast_requests_kept
    | apply keeps_select; intros; apply requests_kept_same; reflexivity
    | apply keeps_modify; intros; apply requests_kept_same; reflexivity
    | apply keeps_mutate;
      first [ typeclasses eauto
            | intros; apply requests_kept_same; reflexivity
            | intros; apply requests_kept_append
            | intros; apply requests_kept_update; discriminate ]
    | assumption ].

Lemma loadCreators_requests_kept : keeps requests_kept loadCreators.
Proof. unfold loadCreators. keeps_with requests_prim. Qed.

Lemma loadMembers_requests_kept : keeps requests_kept loadMembers.
Proof. unfold loadMembers. keeps_with requests_prim. Qed.

Lemma loadConnections_requests_kept : keeps requests_kept loadConnections.
Proof. unfold loadConnections. keeps_with requests_prim. Qed.

Lemma loadMessages_requests_kept : keeps requests_kept loadMessages.
Proof. unfold loadMessages. keeps_with requests_prim. Qed.

Lemma fire_requests_kept : keeps requests_kept fire.
Proof.
  intros w. unfold fire. destruct (earliest (timers w)) as [[due tk]|]; [|reflexivity].
  set (w2 := set_timers (remove_first (due, tk)) (set_now (N.max (now w) due) w)).
  transitivity w2; [apply requests_kept_same; reflexivity|].
  destruct tk; cbn [run_task].
  - apply (loadCreators_requests_kept w2).
  - apply (loadMembers_requests_kept w2).
  - apply requests_kept_same. reflexivity.
Qed.

Lemma idle_requests_kept (dt : N) : keeps requests_kept (idle dt).
Proof.
  intros w. apply requests_kept_same. unfold idle, modify. cbn.
  destruct (earliest (timers w)) as [[due tk]|]; reflexivity.
Qed.

Lemma handle_requests_kept (e : event) :
  own_event e = true -> keeps requests_kept (handle e).
Proof.
  pose proof loadCreators_requests_kept. pose proof loadMembers_requests_kept.
  pose proof loadConnections_requests_kept. pose proof loadMessages_requests_kept.
  destruct e; cbn [own_event handle]; try discriminate; intros _.
  - unfold mount. keeps_with requests_prim.
  - unfold on_follow_change. assumption.
  - unfold on_profile_update. keeps_with requests_prim.
  - unfold on_member_connection_change. keeps_with requests_prim.
  - unfold on_connection_request_change. keeps_with requests_prim.
  - unfold handleFollowCreator. keeps_with requests_prim.
  - unfold handleUnfollowCreator. keeps_with requests_prim.
  - unfold handleConnectMember. keeps_with requests_prim.
  - unfold handleAcceptConnectionRequest. keeps_with requests_prim.
  - unfold handleDeclineConnectionRequest. keeps_with requests_prim.
  - unfold handleDisconnectMember. keeps_with requests_prim.
  - keeps_with requests_prim.
  - keeps_with requests_prim.
  - unfold handleSendMessage. keeps_with requests_prim.
  - apply addToast_requests_kept.
  - apply fire_requests_kept.
  - apply idle_requests_kept.
Qed.

(** X12. Along any sequence of this page's events (loads, callbacks,
    handlers, timers) no [connection_requests] row is deleted or moved,
    none changes its id, sender, recipient or message, and a request
    that is accepted or rejected never becomes pending again. *)
Theorem requests_never_reopen (es : list event) (w : World) :
  forallb own_event es = true -> requests_kept w (run es w).
Proof.
  revert w. induction es as [|e es IH]; intros w H; [reflexivity|].
  cbn in H. apply andb_true_iff in H as [He Hes].
  change (run (e :: es) w) with (run es (step w e)).
  etransitivity; [apply (handle_requests_kept e He)|apply IH, Hes].
Qed.

Lemma requests_never_reopen_witness :
  requests_kept Demo.world
    (run [Mount; DeclineConnectionRequest (lit "u4"); AcceptConnectionRequest (lit "u4");
          ConnectMember demo_cid; Fire] Demo.world).
Proof. apply requests_never_reopen. reflexivity. Defined.

(** The request of the demo store after that run: rejected, and still
    the first row. *)
Example demo_request_after :
  cr_status
    <$> connection_requests
          (db (run [Mount; DeclineConnectionRequest (lit "u4");
                    AcceptConnectionRequest (lit "u4");
                    ConnectMember demo_cid; Fire] Demo.world))
  = [rejected; pending].
Proof. vm_compute. reflexivity. Qed.

(** ** Following: what a reload shows afterwards *)

(** X13. [handleFollowCreator] has no rollback.  When the first insert
    is served and the second returns an error, the follow row stays in
    [member_connections], the list is not touched, the error toast is
    raised and no reload is scheduled; a later served [loadCreators]
    pass of the same user shows every creator with that id as followed.
    When the first returns an error and the second is served, the
    [media_page_follows] row stays, with the same effect on every
    creator of that name. *)
Theorem follow_half_done (w : World) (c : Creator.t) :
  (upcoming (net w) 0 = Served -> upcoming (net w) 1 = Refused ->
   member_connections (db (exec (handleFollowCreator c) w))
   = member_connections (db w) ++ [follow_edge (user w) c]
   /\ media_page_follows (db (exec (handleFollowCreator c) w)) = media_page_follows (db w)
   /\ creators (ui (exec (handleFollowCreator c) w)) = creators (ui w)
   /\ raises w (exec (handleFollowCreator c) w) "Failed to follow creator"
   /\ timers (exec (handleFollowCreator c) w)
      = timers w ++ [((now w + 4000)%N, RemoveToast (entropy w (draws w)))]
   /\ forall v y, user v = user w -> db v = db (exec (handleFollowCreator c) w) ->
        served 3 (net v) = true ->
        y ∈ creators (ui (exec loadCreators v)) -> Creator.id y = Creator.id c ->
        Creator.followed y = true)
  /\ (upcoming (net w) 0 = Refused -> upcoming (net w) 1 = Served ->
      member_connections (db (exec (handleFollowCreator c) w)) = member_connections (db w)
      /\ media_page_follows (db (exec (handleFollowCreator c) w))
         = media_page_follows (db w) ++ [media_edge (user w) c]
      /\ creators (ui (exec (handleFollowCreator c) w)) = creators (ui w)
      /\ raises w (exec (handleFollowCreator c) w) "Failed to follow creator"
      /\ forall v y, user v = user w -> db v = db (exec (handleFollowCreator c) w) ->
           served 3 (net v) = true ->
           y ∈ creators (ui (exec loadCreators v)) -> Creator.name y = Creator.name c ->
           Creator.followed y = true).
Proof.
  split.
  - intros H0 H1.
    assert (Hall : member_connections (db (exec (handleFollowCreator c) w))
                   = member_connections (db w) ++ [follow_edge (user w) c]
                   /\ media_page_follows (db (exec (handleFollowCreator c) w))
                      = media_page_follows (db w)
                   /\ creators (ui (exec (handleFollowCreator c) w)) = creators (ui w)
                   /\ raises w (exec (handleFollowCreator c) w) "Failed to follow creator"
                   /\ timers (exec (handleFollowCreator c) w)
                      = timers w ++ [((now w + 4000)%N, RemoveToast (entropy w (draws w)))]).
    { destruct w as [u d nt st v ts t tm en dr]; cbn [net] in *.
      destruct nt as [|[] [|[] nt]]; try discriminate; repeat split. }
    destruct Hall as (Hmc & Hmf & Hcs & Hr & Htm).
    split_and!; try assumption.
    intros v y Hu Hd Hs Hy Hid. apply (followed_iff_edges v Hs y Hy). left.
    exists (follow_edge (user w) c). rewrite Hd, Hmc, Hu, Hid.
    split; [apply elem_of_app; right; apply list_elem_of_here|]. repeat split.
  - intros H0 H1.
    assert (Hall : member_connections (db (exec (handleFollowCreator c) w))
                   = member_connections (db w)
                   /\ media_page_follows (db (exec (handleFollowCreator c) w))
                      = media_page_follows (db w) ++ [media_edge (user w) c]
                   /\ creators (ui (exec (handleFollowCreator c) w)) = creators (ui w)
                   /\ raises w (exec (handleFollowCreator c) w) "Failed to follow creator").
    { destruct w as [u d nt st v ts t tm en dr]; cbn [net] in *.
      destruct nt as [|[] [|[] nt]]; try discriminate; repeat split. }
    destruct Hall as (Hmc & Hmf & Hcs & Hr).
    split_and!; try assumption.
    intros v y Hu Hd Hs Hy Hn. apply (followed_iff_edges v Hs y Hy). right.
    exists (media_edge (user w) c). rewrite Hd, Hmf, Hu, Hn.
    split; [apply elem_of_app; right; apply list_elem_of_here|]. repeat split.
Qed.

Lemma follow_half_done_witness :
  member_connections
    (db (exec (handleFollowCreator demo_ann) (Demo.world_with [Served; Refused])))
  = member_connections Demo.store ++ [follow_edge (lit "u1") demo_ann]
  /\ raises (Demo.world_with [Served; Refused])
       (exec (handleFollowCreator demo_ann) (Demo.world_with [Served; Refused]))
       "Failed to follow creator".
Proof.
  destruct (follow_half_done (Demo.world_with [Served; Refused]) demo_ann) as [H _].
  destruct (H eq_refl eq_refl) as (H1 & _ & _ & H2 & _). split; [exact H1|exact H2].
Defined.

(** X14. After a served [handleFollowCreator c], every list entry with
    the id of [c] is marked followed, a creators reload is set 1000 ms
    ahead, and that reload, served, shows every creator with that id as
    followed: the optimistic flag and the store agree. *)
Theorem follow_confirmed_by_reload (w : World) (c : Creator.t) :
  served 5 (net w) = true ->
  (forall y, y ∈ creators (ui (exec (handleFollowCreator c) w)) ->
     Creator.id y = Creator.id c -> Creator.followed y = true)
  /\ ((now w + 1000)%N, ReloadCreators) ∈ timers (exec (handleFollowCreator c) w)
  /\ (forall y, y ∈ creators (ui (exec loadCreators (exec (handleFollowCreator c) w))) ->
        Creator.id y = Creator.id c -> Creator.followed y = true).
Proof.
  intros H. change 5%nat with (2 + 3)%nat in H. rewrite served_add in H.
  apply andb_true_iff in H as [H2 H3].
  pose proof (handleFollowCreator_served w c H2) as (Hmc & _ & Hcs & _ & Hu & Hn).
  split_and!.
  - intros y Hy Hid. rewrite Hcs in Hy. apply list_elem_of_fmap in Hy as (x & -> & _).
    destruct (decide (Creator.id x = Creator.id c)) as [Hx|Hx].
    + rewrite (bool_decide_eq_true_2 _ Hx). reflexivity.
    + rewrite (bool_decide_eq_false_2 _ Hx) in Hid. contradiction.
  - destruct w as [u d nt st v ts t tm en dr]; cbn [net] in H2.
    destruct nt as [|[] [|[] nt]]; try discriminate H2; cbn;
      rewrite !elem_of_app, !list_elem_of_singleton; auto.
  - intros y Hy Hid. rewrite <- Hn in H3.
    apply (followed_iff_edges _ H3 y Hy). left.
    exists (follow_edge (user w) c). rewrite Hmc, Hu, Hid.
    split; [apply elem_of_app; right; apply list_elem_of_here|]. repeat split.
Qed.

Lemma follow_confirmed_by_reload_witness :
  served 5 (net demo_loaded) = true
  /\ forall y,
       y ∈ creators (ui (exec loadCreators
                           (exec (handleFollowCreator (creator_of ∅ ∅ Demo.bob)) demo_loaded))) ->
       Creator.id y = lit "c2" -> Creator.followed y = true.
Proof.
  split; [reflexivity|].
  destruct (follow_confirmed_by_reload demo_loaded (creator_of ∅ ∅ Demo.bob))
    as (_ & _ & H); [reflexivity|exact H].
Defined.

(** X15. [handleUnfollowCreator] on an id that is not in the creators
    list issues no gateway call at all: the store, follow rows for that
    id included, and the lists stay as they were, and nothing but the
    removal of the error toast is scheduled. *)
Theorem unfollow_unlisted (w : World) (creatorId : str) :
  List.find (fun y => bool_decide (Creator.id y = creatorId)) (creators (ui w)) = None ->
  db (exec (handleUnfollowCreator creatorId) w) = db w
  /\ net (exec (handleUnfollowCreator creatorId) w) = net w
  /\ ui (exec (handleUnfollowCreator creatorId) w) = ui w
  /\ timers (exec (handleUnfollowCreator creatorId) w)
     = timers w ++ [((now w + 4000)%N, RemoveToast (entropy w (draws w)))].
Proof.
  intros Hf. destruct w as [u d nt st v ts t tm en dr]. cbn [ui] in Hf.
  unfold exec, handleUnfollowCreator, bind, gets, try_catch. cbn [ui].
  rewrite Hf. repeat split.
Qed.

Lemma unfollow_unlisted_witness :
  Demo.edge "u1" "c1" follow
    ∈ member_connections (db (exec (handleUnfollowCreator (lit "c1")) Demo.world)).
Proof.
  destruct (unfollow_unlisted Demo.world (lit "c1")) as (H & _); [reflexivity|].
  rewrite H. apply list_elem_of_here.
Defined.

(** X16. When the insert of [handleSendMessage] returns an error, no row
    is added, the draft and the message list stay as they were, and no
    toast is raised. *)
Theorem send_refused (w : World) (conn : Connection.t) :
  selectedConnection (ui w) = Some conn ->
  forallb is_white_space (messageInput (ui w)) = false ->
  upcoming (net w) 0 = Refused ->
  db (exec handleSendMessage w) = db w
  /\ ui (exec handleSendMessage w) = ui w
  /\ toasts (exec handleSendMessage w) = toasts w
  /\ timers (exec handleSendMessage w) = timers w.
Proof.
  intros Hsel Hws H.
  destruct w as [u d nt st v ts t tm en dr]. cbn [ui net] in *.
  unfold exec, handleSendMessage, bind, gets. cbn [ui].
  rewrite Hsel, trim_blank, Hws. cbn [negb].
  destruct nt as [|[] nt]; try discriminate H; repeat split.
Qed.

Lemma send_refused_witness :
  messageInput
    (ui (exec handleSendMessage
           (run [SelectConnection (Some (connection_of Demo.cid)); TypeMessage (lit "hi")]
                (Demo.world_with [Refused]))))
  = lit "hi".
Proof.
  destruct (send_refused
              (run [SelectConnection (Some (connection_of Demo.cid)); TypeMessage (lit "hi")]
                   (Demo.world_with [Refused]))
              (connection_of Demo.cid)) as (_ & H & _);
    [reflexivity|reflexivity|reflexivity|].
  rewrite H. reflexivity.
Defined.

(** ** The change-event reactor *)

(** X17. The profile-update callback issues no gateway call and leaves
    the store, the toasts and the timers alone.  In both lists it keeps
    the length and the order, and changes nothing but [followers]:
    entries with the updated profile's id get its [followers] value,
    which for a member replaces the live connection count, and the other
    entries stay as they are. *)
Theorem profile_update_patches (w : World) (p : profile) :
  db (exec (on_profile_update p) w) = db w
  /\ net (exec (on_profile_update p) w) = net w
  /\ toasts (exec (on_profile_update p) w) = toasts w
  /\ timers (exec (on_profile_update p) w) = timers w
  /\ (forall k c, creators (ui w) !! k = Some c ->
        exists c', creators (ui (exec (on_profile_update p) w)) !! k = Some c'
          /\ Creator.with_followers 0 c' = Creator.with_followers 0 c
          /\ Creator.followers c'
             = if bool_decide (Creator.id c = p_id p) then p_followers p
               else Creator.followers c)
  /\ length (creators (ui (exec (on_profile_update p) w))) = length (creators (ui w))
  /\ (forall k m, members (ui w) !! k = Some m ->
        exists m', members (ui (exec (on_profile_update p) w)) !! k = Some m'
          /\ Member.with_followers 0 m' = Member.with_followers 0 m
          /\ Member.followers m'
             = if bool_decide (Member.id m = p_id p) then Some (p_followers p)
               else Member.followers m)
  /\ length (members (ui (exec (on_profile_update p) w))) = length (members (ui w)).
Proof.
  destruct w as [u d nt st v ts t tm en dr]. cbn.
  split_and!; try reflexivity.
  - intros k c Hk. rewrite list_lookup_fmap, Hk. cbn. eexists. split; [reflexivity|].
    case_bool_decide; split; reflexivity.
  - apply length_fmap.
  - intros k m Hk. rewrite list_lookup_fmap, Hk. cbn. eexists. split; [reflexivity|].
    case_bool_decide; split; reflexivity.
  - apply length_fmap.
Qed.

Lemma loadMembers_returns (w : World) : loadMembers w = Returned tt (exec loadMembers w).
Proof.
  unfold exec, loadMembers, try_catch.
  match goal with |- context [match ?b w with _ => _ end] => destruct (b w) as [[] w'|w'] end;
    reflexivity.
Qed.

Lemma loadMembers_keeps_entropy (w : World) :
  entropy (exec loadMembers w) = entropy w /\ user (exec loadMembers w) = user w
  /\ now (exec loadMembers w) = now w.
Proof. destruct (loadMembers_reads_only w) as (_ & ? & ? & ?). auto. Qed.

(** X18. The callback for changes of [connection_requests] raises the
    toast 'You have a new connection request' exactly when the change is
    addressed to the current user and its new row is pending, and never
    another toast, whatever the gateway does to the reload it starts;
    it never writes to the store. *)
Theorem request_change_notifies (w : World) (p : payload connection_request) :
  toasts (exec (on_connection_request_change p) w)
  = toasts w
    ++ (if notifies (user w) p
        then [toast_in w success (lit "You have a new connection request")]
        else [])
  /\ db (exec (on_connection_request_change p) w) = db w.
Proof.
  unfold exec, on_connection_request_change, bind, gets, removeCachedMembers, modify.
  set (w0 := set_storage _ w).
  rewrite (loadMembers_returns w0).
  destruct (loadMembers_silent w0) as (Hts & Htm & Hdr).
  destruct (loadMembers_reads_only w0) as (Hdb & Hu & Hn & He).
  change (final (loadMembers w0)) with (exec loadMembers w0) in *.
  set (w1 := exec loadMembers w0) in *.
  fold (notifies (user w) p). destruct (notifies (user w) p).
  - cbn -[lit]. unfold toast_in. rewrite Hts, Hdr, He, Hdb. split; reflexivity.
  - cbn -[lit]. rewrite Hts, Hdb, app_nil_r. split; reflexivity.
Qed.

Ltac same_connections_prim :=
  first
    [ apply keeps_select; intros; reflexivity
    | apply keeps_modify; intros; reflexivity ].

#[local] Instance same_connections_refl : Reflexive same_connections.
Proof. intros w. reflexivity. Qed.

#[local] Instance same_connections_trans : Transitive same_connections.
Proof. intros w1 w2 w3 H12 H23. unfold same_connections in *. congruence. Qed.

Lemma loadMembers_same_connections : keeps same_connections loadMembers.
Proof. unfold loadMembers. keeps_with same_connections_prim. Qed.

(** X19. The callback for changes of [member_connections] never writes
    to the store and never touches the toasts.  When neither end of the
    changed row is the current user, the connections list stays as it
    was, whatever the gateway does; when one end is, and the seven reads
    are served, the list is the one [loadConnections] builds from the
    store. *)
Theorem member_connection_change_reloads (w : World) (p : payload member_connection) :
  db (exec (on_member_connection_change p) w) = db w
  /\ toasts (exec (on_member_connection_change p) w) = toasts w
  /\ (new_or_old member_id p ≠ Some (user w) ->
      new_or_old connected_user_id p ≠ Some (user w) ->
      connections (ui (exec (on_member_connection_change p) w)) = connections (ui w))
  /\ (new_or_old member_id p = Some (user w)
      \/ new_or_old connected_user_id p = Some (user w) ->
      served 7 (net w) = true ->
      connections (ui (exec (on_member_connection_change p) w))
      = (foldl add_connection
           (foldl add_connection (∅, []) (outgoing_with_profiles (user w) (db w)))
           (incoming_with_profiles (user w) (db w))).2).
Proof.
  unfold exec, on_member_connection_change, bind, gets, removeCachedMembers, modify.
  set (w0 := set_storage _ w).
  rewrite (loadMembers_returns w0).
  destruct (loadMembers_silent w0) as (Hts & Htm & Hdr).
  destruct (loadMembers_reads_only w0) as (Hdb & Hu & Hn & He).
  pose proof (loadMembers_same_connections w0) as Hcs. unfold same_connections in Hcs.
  change (final (loadMembers w0)) with (exec loadMembers w0) in *.
  set (w1 := exec loadMembers w0) in *.
  destruct (bool_decide (new_or_old member_id p = Some (user w))
            || bool_decide (new_or_old connected_user_id p = Some (user w))) eqn:Hb.
  - cbv beta iota.
    destruct (loadConnections_reads_only w1) as (Hdb2 & _).
    destruct (loadConnections_silent w1) as (Hts2 & _).
    change (final (loadConnections w1)) with (exec loadConnections w1) in *.
    split_and!.
    + rewrite Hdb2, Hdb. reflexivity.
    + rewrite Hts2, Hts. reflexivity.
    + intros H1 H2. apply orb_true_iff in Hb as [Hb|Hb];
        apply bool_decide_eq_true in Hb; contradiction.
    + intros _ H7. change 7%nat with (5 + 2)%nat in H7. rewrite served_add in H7.
      apply andb_true_iff in H7 as [H5 H2].
      destruct (loadMembers_served_state w0 H5) as (_ & _ & _ & _ & _ & Hnet).
      change (net w0) with (net w) in Hnet. fold w1 in Hnet. rewrite <- Hnet in H2.
      rewrite (loadConnections_served w1 H2), Hu, Hdb. reflexivity.
  - cbv beta iota. unfold ret. cbn [final]. split_and!.
    + exact Hdb.
    + exact Hts.
    + intros _ _. exact Hcs.
    + intros [H1|H1] _; apply orb_false_iff in Hb as [Hb1 Hb2];
        [apply bool_decide_eq_false in Hb1|apply bool_decide_eq_false in Hb2];
        contradiction.
Qed.

Lemma member_connection_change_reloads_witness :
  connections
    (ui (exec (on_member_connection_change
                 {| new := Some (Demo.edge "u2" "u3" colleague); old := None |})
              Demo.world))
  = connections (ui Demo.world).
Proof.
  destruct (member_connection_change_reloads Demo.world
              {| new := Some (Demo.edge "u2" "u3" colleague); old := None |})
    as (_ & _ & H & _).
  apply H; vm_compute; discriminate.
Defined.

(** ** The order of the toast queue *)

Lemma queue_order_same (w w' : World) :
  entropy w' = entropy w -> draws w' = draws w -> toasts w' = toasts w ->
  queue_order w w'.
Proof.
  intros He Hd Ht. split; [exact He|]. split; [lia|].
  exists (toasts w), [], []. rewrite app_nil_r.
  split_and!; [reflexivity|exact Ht|reflexivity|constructor|constructor].
Qed.

#[local] Instance queue_order_refl : Reflexive queue_order.
Proof. intros w. apply queue_order_same; reflexivity. Qed.

Lemma StronglySorted_sublist {A} (R : A -> A -> Prop) (l1 l2 : list A) :
  l1 `sublist_of` l2 -> StronglySorted R l2 -> StronglySorted R l1.
Proof.
  induction 1 as [|x l1 l2 Hs IH|x l1 l2 Hs IH]; intros Hl2.
  - constructor.
  - apply StronglySorted_inv in Hl2 as [Hl2 Hx]. constructor; [apply IH, Hl2|].
    rewrite Forall_forall in Hx |- *. intros y Hy. apply Hx.
    apply (elem_of_sublist l1); assumption.
  - apply StronglySorted_inv in Hl2 as [Hl2 _]. apply IH, Hl2.
Qed.

(** What is left of a run of toasts made by successive draws was made by
    successive draws. *)
Lemma sublist_of_drawn (en : nat -> str) (l a : list Toast.t) (ks : list nat) :
  l `sublist_of` a -> Toast.id <$> a = en <$> ks ->
  exists ks', ks' `sublist_of` ks /\ Toast.id <$> l = en <$> ks'.
Proof.
  intros Hs. revert ks. induction Hs as [|x l a Hs IH|x l a Hs IH]; intros ks Hks.
  - exists []. split; [apply sublist_nil_l|reflexivity].
  - destruct ks as [|k ks]; [discriminate Hks|]. injection Hks as Hk Hks.
    destruct (IH ks Hks) as (ks' & Hsub & Hids).
    exists (k :: ks'). split; [by constructor|]. cbn. by rewrite Hk, Hids.
  - destruct ks as [|k ks]; [discriminate Hks|]. injection Hks as _ Hks.
    destruct (IH ks Hks) as (ks' & Hsub & Hids).
    exists ks'. split; [by constructor|exact Hids].
Qed.

#[local] Instance queue_order_trans : Transitive queue_order.
Proof.
  intros w1 w2 w3 (He1 & Hd1 & k1 & a1 & ks1 & Hk1 & H12 & Hi1 & Hs1 & Hr1)
                  (He2 & Hd2 & k2 & a2 & ks2 & Hk2 & H23 & Hi2 & Hs2 & Hr2).
  split; [congruence|]. split; [lia|].
  rewrite H12 in Hk2. apply sublist_app_r in Hk2 as (l1 & l2 & -> & Hl1 & Hl2).
  destruct (sublist_of_drawn (entropy w1) l2 a1 ks1 Hl2 Hi1) as (ks' & Hsub & Hi').
  exists l1, (l2 ++ a2), (ks' ++ ks2).
  rewrite Forall_forall in Hr1, Hr2.
  split_and!.
  - etransitivity; eassumption.
  - rewrite H23, app_assoc. reflexivity.
  - rewrite !fmap_app, Hi', Hi2, He1. reflexivity.
  - apply StronglySorted_app_2.
    + intros x y Hx Hy. apply (elem_of_sublist _ ks1) in Hx; [|exact Hsub].
      specialize (Hr1 x Hx). specialize (Hr2 y Hy). cbn in *. lia.
    + apply (StronglySorted_sublist _ ks' ks1); assumption.
    + exact Hs2.
  - apply Forall_forall. intros x [Hx|Hx]%elem_of_app.
    + apply (elem_of_sublist _ ks1) in Hx; [|exact Hsub].
      specialize (Hr1 x Hx). cbn in *. lia.
    + specialize (Hr2 x Hx). cbn in *. lia.
Qed.

Lemma addToast_queue_order (message : str) (type : toast_type) :
  keeps queue_order (addToast message type).
Proof.
  intros w. cbn. split; [reflexivity|]. split; [cbn; lia|].
  exists (toasts w), [toast_in w type message], [draws w]. cbn.
  split_and!; [reflexivity|reflexivity|reflexivity| |].
  - repeat constructor.
  - constructor; [lia|constructor].
Qed.

Lemma removeToast_queue_order (id : str) : keeps queue_order (removeToast id).
Proof.
  intros w. cbn. split; [reflexivity|]. split; [cbn; lia|].
  exists (filter (fun t => Toast.id t ≠ id) (toasts w)), [], []. rewrite app_nil_r.
  split_and!; [apply sublist_filter|reflexivity|reflexivity|constructor|constructor].
Qed.

Ltac queue_prim :=
  first
    [ apply addToast_queue_order
    | apply keeps_select; intros; apply queue_order_same; reflexivity
    | apply keeps_mutate;
      first [typeclasses eauto|intros; apply queue_order_same; reflexivity]
    | apply keeps_modify; intros; apply queue_order_same; reflexivity
    | assumption ].

Lemma loads_queue_order :
  keeps queue_order loadCreators /\ keeps queue_order loadMembers
  /\ keeps queue_order loadConnections /\ keeps queue_order loadMessages.
Proof.
  unfold loadCreators, loadMembers, loadConnections, loadMessages.
  split_and!; keeps_with queue_prim.
Qed.

Lemma fire_queue_order : keeps queue_order fire.
Proof.
  destruct loads_queue_order as (Hc & Hm & _).
  intros w. unfold fire. destruct (earliest (timers w)) as [[due tk]|]; [|reflexivity].
  set (w2 := set_timers (remove_first (due, tk)) (set_now (N.max (now w) due) w)).
  transitivity w2; [apply queue_order_same; reflexivity|].
  destruct tk as [| |i]; cbn [run_task].
  - apply (Hc w2).
  - apply (Hm w2).
  - apply (removeToast_queue_order i w2).
Qed.

Lemma idle_queue_order (dt : N) : keeps queue_order (idle dt).
Proof.
  intros w. apply queue_order_same; unfold idle, modify; cbn;
    destruct (earliest (timers w)) as [[due tk]|]; reflexivity.
Qed.

Lemma step_queue_order (w : World) (e : event) : queue_order w (step w e).
Proof.
  destruct loads_queue_order as (Hc & Hm & Hn & Hg).
  assert (H : keeps queue_order (handle e)); [|apply H].
  destruct e; cbn [handle].
  - unfold mount. keeps_with queue_prim.
  - unfold on_follow_change. assumption.
  - unfold on_profile_update. keeps_with queue_prim.
  - unfold on_member_connection_change. keeps_with queue_prim.
  - unfold on_connection_request_change. keeps_with queue_prim.
  - unfold handleFollowCreator. keeps_with queue_prim.
  - unfold handleUnfollowCreator. keeps_with queue_prim.
  - unfold handleConnectMember. keeps_with queue_prim.
  - unfold handleAcceptConnectionRequest. keeps_with queue_prim.
  - unfold handleDeclineConnectionRequest. keeps_with queue_prim.
  - unfold handleDisconnectMember. keeps_with queue_prim.
  - keeps_with queue_prim.
  - keeps_with queue_prim.
  - unfold handleSendMessage. keeps_with queue_prim.
  - apply addToast_queue_order.
  - keeps_with queue_prim.
  - apply fire_queue_order.
  - apply idle_queue_order.
Qed.

(** X20. The toast queue is first in, first out.  Along any sequence of
    events the toasts that are still queued keep the order they had, and
    the toasts added since stand behind all of them, in the order in
    which they were made. *)
Theorem toasts_keep_order (es : list event) (w : World) : queue_order w (run es w).
Proof.
  revert w. induction es as [|e es IH]; intros w; [reflexivity|].
  change (run (e :: es) w) with (run es (step w e)).
  etransitivity; [apply step_queue_order|apply IH].
Qed.

(** The relation tells worlds apart: a queue in another order is not
    the queue kept. *)
Example queue_order_reversed :
  ¬ queue_order (run [AddToast (lit "one") success; AddToast (lit "two") success] Demo.world)
      (set_toasts (@rev Toast.t)
         (run [AddToast (lit "one") success; AddToast (lit "two") success] Demo.world)).
Proof.
  intros (_ & _ & kept & added & ks & Hk & Ht & Hi & _ & Hr).
  destruct ks as [|k ks].
  - destruct added; [|discriminate Hi]. rewrite app_nil_r in Ht. subst kept.
    vm_compute in Hk.
    apply sublist_cons_l in Hk as (l1 & l2 & Hl & Hsub).
    destruct l1 as [|x1 [|x2 l1]]; simplify_eq/=.
    + apply sublist_nil_r in Hsub. discriminate Hsub.
    + destruct l1; discriminate.
  - apply Forall_cons in Hr as [Hr _]. vm_compute in Hr. lia.
Qed.

(** ** Disconnecting: what a reload shows afterwards *)

Lemma handleDisconnect_served (w : World) (memberId : str) :
  served 2 (net w) = true ->
  member_connections (db (exec (handleDisconnectMember memberId) w))
  = filter (fun e => ¬ (member_id e = memberId ∧ connected_user_id e = user w
                        ∧ connection_type e = colleague))
      (filter (fun e => ¬ (member_id e = user w ∧ connected_user_id e = memberId
                           ∧ connection_type e = colleague))
              (member_connections (db w)))
  /\ members (ui (exec (handleDisconnectMember memberId) w))
     = mark_disconnected memberId (members (ui w))
  /\ getCachedMembers (storage (exec (handleDisconnectMember memberId) w)) = None
  /\ timers (exec (handleDisconnectMember memberId) w)
     = timers w ++ [((now w + 4000)%N, RemoveToast (entropy w (draws w)));
                    ((now w + 500)%N, ReloadMembers)].
Proof.
  intros H. destruct w as [u d nt [[] cc cm] v ts t tm en dr]; cbn [net] in H;
    destruct nt as [|[] [|[] nt]]; try discriminate H;
      (split_and!; [reflexivity|reflexivity|reflexivity
                   |cbn; rewrite <- app_assoc; reflexivity]).
Qed.

(** X21. After a served [handleDisconnectMember memberId] the member's
    entries show [connected = false] at once, the cached members list is
    dropped, and a members reload is set 500 ms ahead; a served
    [loadMembers] pass on the resulting store shows the pair as not
    connected from either side, whichever direction the row had. *)
Theorem disconnect_then_reload (w : World) (memberId : str) :
  served 2 (net w) = true ->
  (forall k x, members (ui w) !! k = Some x ->
     members (ui (exec (handleDisconnectMember memberId) w)) !! k
     = Some (if bool_decide (Member.id x = memberId)
             then Member.with_connected false x else x))
  /\ getCachedMembers (storage (exec (handleDisconnectMember memberId) w)) = None
  /\ ((now w + 500)%N, ReloadMembers) ∈ timers (exec (handleDisconnectMember memberId) w)
  /\ (forall v x,
        db v = db (exec (handleDisconnectMember memberId) w) ->
        served 5 (net v) = true ->
        x ∈ members (ui (exec loadMembers v)) ->
        (user v = user w /\ Member.id x = memberId)
        \/ (user v = memberId /\ Member.id x = user w) ->
        Member.connected x = false).
Proof.
  intros H. destruct (handleDisconnect_served w memberId H) as (Hmc & Hms & Hc & Htm).
  split_and!.
  - intros k x Hk. rewrite Hms. unfold mark_disconnected.
    rewrite list_lookup_fmap, Hk. reflexivity.
  - exact Hc.
  - rewrite Htm. apply elem_of_app. right. apply list_elem_of_further, list_elem_of_here.
  - intros v x Hd Hs Hx Hwho.
    rewrite (loadMembers_served v Hs) in Hx.
    apply list_elem_of_fmap in Hx as (p & -> & _). cbn in Hwho. cbn.
    apply bool_decide_eq_false. rewrite elem_of_list_to_set, connected_with_iff.
    intros (e & He & Hc0 & Hl). rewrite Hd, Hmc in He.
    apply list_elem_of_filter in He as [Hn2 He].
    apply list_elem_of_filter in He as [Hn1 _].
    destruct Hwho as [[Hu Hi]|[Hu Hi]]; rewrite Hu, Hi in Hl;
      destruct Hl as [[? ?]|[? ?]]; tauto.
Qed.

Lemma disconnect_then_reload_witness :
  served 2 (net demo_loaded) = true
  /\ forall x,
       x ∈ members
             (ui (exec loadMembers
                    (demo_as "u3" (db (exec (handleDisconnectMember (lit "u3")) demo_loaded)))))
       -> Member.id x = lit "u1" -> Member.connected x = false.
Proof.
  split; [reflexivity|]. intros x Hx Hid.
  destruct (disconnect_then_reload demo_loaded (lit "u3")) as (_ & _ & _ & H);
    [reflexivity|].
  apply (H (demo_as "u3" (db (exec (handleDisconnectMember (lit "u3")) demo_loaded))) x);
    [reflexivity|reflexivity|exact Hx|].
  right. split; [reflexivity|exact Hid].
Defined.

(** ** The cache and the next session *)

#[local] Instance storage_untouched_refl : Reflexive storage_untouched.
Proof. intros w _. reflexivity. Qed.

#[local] Instance storage_untouched_trans : Transitive storage_untouched.
Proof.
  intros w1 w2 w3 H12 H23 Hu. unfold storage_untouched in *.
  rewrite H23, H12; auto. rewrite H12; auto.
Qed.

Ltac storage_prim :=
  first
    [ apply keeps_select; intros ? ? ?; reflexivity
    | apply keeps_modify; intros ? ?; reflexivity
    | apply keeps_modify; intros w0 Hu; cbn; rewrite Hu; reflexivity ].

Lemma addToast_storage_untouched (message : str) (type : toast_type) :
  keeps storage_untouched (addToast message type).
Proof. intros w _. reflexivity. Qed.

Lemma loadCreators_storage_untouched : keeps storage_untouched loadCreators.
Proof.
  unfold loadCreators.
  keeps_with ltac:(first [apply addToast_storage_untouched|storage_prim]).
Qed.

Lemma loadMembers_storage_untouched : keeps storage_untouched loadMembers.
Proof. unfold loadMembers. keeps_with storage_prim. Qed.

(** X22. What the next session starts from.  After a served
    [loadCreators] pass with storage available, the initial state read
    from the cache is the creators list just loaded and [creatorsLoaded]
    is set.  After a served [loadMembers] pass it is the same members in
    the same order, each with its profile fields and with
    [connected = false], no count and no request status.  With storage
    unavailable both passes leave the storage alone, whatever the
    gateway does, and the initial lists are empty with both flags
    unset. *)
Theorem next_session_starts_from_cache (w : World) :
  (available (storage w) = true -> served 3 (net w) = true ->
   creators (initial_view (storage (exec loadCreators w)))
   = creators (ui (exec loadCreators w))
   /\ creatorsLoaded (initial_view (storage (exec loadCreators w))) = true)
  /\ (available (storage w) = true -> served 5 (net w) = true ->
      membersLoaded (initial_view (storage (exec loadMembers w))) = true
      /\ length (members (initial_view (storage (exec loadMembers w))))
         = length (members (ui (exec loadMembers w)))
      /\ forall k m, members (ui (exec loadMembers w)) !! k = Some m ->
           exists m', members (initial_view (storage (exec loadMembers w))) !! k = Some m'
             /\ is_base m'
             /\ Member.id m' = Member.id m /\ Member.name m' = Member.name m
             /\ Member.avatar_url m' = Member.avatar_url m
             /\ Member.tier m' = Member.tier m /\ Member.bio m' = Member.bio m)
  /\ (available (storage w) = false ->
      storage (exec loadCreators w) = storage w
      /\ storage (exec loadMembers w) = storage w
      /\ creators (initial_view (storage w)) = []
      /\ members (initial_view (storage w)) = []
      /\ creatorsLoaded (initial_view (storage w)) = false
      /\ membersLoaded (initial_view (storage w)) = false).
Proof.
  split_and!.
  - intros Ha H. destruct (loadCreators_served w H) as (-> & -> & _).
    rewrite Ha. split; reflexivity.
  - intros Ha H.
    assert (Hst : storage (exec loadMembers w)
                  = {| available := true;
                       connect_creators_cache := connect_creators_cache (storage w);
                       connect_members_cache :=
                         Some (base_member <$> member_profiles (user w) (db w)) |}).
    { destruct w as [u d nt [av cc cm] v ts t tm en dr]; cbn in H, Ha; subst av.
      destruct nt as [|[] [|[] [|[] [|[] [|[] nt]]]]]; try discriminate H; reflexivity. }
    rewrite Hst, (loadMembers_served w H). cbn. split_and!.
    + reflexivity.
    + rewrite !length_fmap. reflexivity.
    + intros k m Hk. rewrite list_lookup_fmap in Hk. rewrite list_lookup_fmap.
      destruct (member_profiles (user w) (db w) !! k) as [p|]; [|discriminate Hk].
      cbn in Hk. injection Hk as <-. exists (base_member p).
      split; [reflexivity|]. repeat split.
  - intros Hu. split_and!.
    + apply (loadCreators_storage_untouched w Hu).
    + apply (loadMembers_storage_untouched w Hu).
    + unfold initial_view, getCachedCreators. cbn. rewrite Hu. reflexivity.
    + unfold initial_view, getCachedMembers. cbn. rewrite Hu. reflexivity.
    + unfold initial_view, getCachedCreators. cbn. rewrite Hu. reflexivity.
    + unfold initial_view, getCachedMembers. cbn. rewrite Hu. reflexivity.
Qed.

Lemma next_session_starts_from_cache_witness :
  creators (initial_view (storage (exec loadCreators Demo.world)))
  = creators (ui (exec loadCreators Demo.world))
  /\ length (members (initial_view (storage (exec loadMembers Demo.world))))
     = length (members (ui (exec loadMembers Demo.world))).
Proof.
  destruct (next_session_starts_from_cache Demo.world) as (Hc & Hm & _).
  destruct (Hc eq_refl eq_refl) as (Hc1 & _).
  destruct (Hm eq_refl eq_refl) as (_ & Hm1 & _).
  split; [exact Hc1|exact Hm1].
Defined.

(** ** From the draft to the recipient's inbox *)

Lemma handleSendMessage_inserts (w : World) (conn : Connection.t) :
  selectedConnection (ui w) = Some conn ->
  forallb is_white_space (messageInput (ui w)) = false ->
  upcoming (net w) 0 = Served ->
  db (exec handleSendMessage w)
  = on_messages
      (fun l => l ++ [new_message (user w) (Connection.id conn) (messageInput (ui w))
                        (now w) (db w)])
      (db w).
Proof.
  intros Hsel Hws H.
  destruct w as [u d nt st v ts t tm en dr]. cbn [ui net user db now] in *.
  unfold exec, handleSendMessage, bind, gets. cbn [ui].
  rewrite Hsel, trim_blank, Hws. cbn [negb].
  destruct nt as [|[] [|[] nt]]; try discriminate H; reflexivity.
Qed.

(** X23. A message whose insert is served reaches the recipient: when
    fewer than 50 rows were addressed to the recipient, a served
    [loadMessages] pass of the recipient lists an entry with the draft
    as sent, untrimmed, the sender's id, the time of sending and
    [read = false]. *)
Theorem message_reaches_inbox (w v : World) (conn : Connection.t) :
  selectedConnection (ui w) = Some conn ->
  forallb is_white_space (messageInput (ui w)) = false ->
  upcoming (net w) 0 = Served ->
  user v = Connection.id conn ->
  db v = db (exec handleSendMessage w) ->
  served 1 (net v) = true ->
  (length (filter (fun row => msg_recipient_id row = Connection.id conn)
                  (messages_table (db w))) < 50)%nat ->
  exists m, m ∈ messages (ui (exec loadMessages v))
            /\ Message.content m = messageInput (ui w)
            /\ Message.sender_id m = user w
            /\ Message.timestamp m = now w
            /\ Message.read m = false.
Proof.
  intros Hsel Hws H Hu Hd Hs Hroom.
  rewrite (handleSendMessage_inserts w conn Hsel Hws H) in Hd.
  set (row := new_message (user w) (Connection.id conn) (messageInput (ui w))
                (now w) (db w)) in *.
  rewrite (loadMessages_served v Hs). unfold inbox. rewrite Hu, Hd. cbn [messages_table on_messages].
  exists (message_of (row, profile_of
                             (on_messages (fun l => l ++ [row]) (db w))
                             (msg_sender_id row))).
  split; [|repeat split].
  apply list_elem_of_fmap. eexists. split; [reflexivity|].
  apply list_elem_of_fmap. exists row. split; [reflexivity|].
  rewrite take_ge.
  - apply order_desc_elem, list_elem_of_filter. split; [reflexivity|].
    apply elem_of_app. right. apply list_elem_of_here.
  - rewrite order_desc_length, filter_app, length_app. cbn.
    rewrite decide_True by reflexivity. cbn. lia.
Qed.

Lemma message_reaches_inbox_witness :
  exists m,
    m ∈ messages
          (ui (exec loadMessages
                 (demo_as "u2" (db (exec handleSendMessage (demo_drafting (lit "hi")))))))
    /\ Message.content m = lit "hi".
Proof.
  pose proof (message_reaches_inbox (demo_drafting (lit "hi"))
              (demo_as "u2" (db (exec handleSendMessage (demo_drafting (lit "hi")))))
              (connection_of Demo.cid)) as H.
  assert (H1 : selectedConnection (ui (demo_drafting (lit "hi"))) = Some (connection_of Demo.cid)) by reflexivity.
  assert (H2 : forallb is_white_space (messageInput (ui (demo_drafting (lit "hi")))) = false) by reflexivity.
  assert (H3 : upcoming (net (demo_drafting (lit "hi"))) 0 = Served) by reflexivity.
  assert (H4 : user (demo_as "u2" (db (exec handleSendMessage (demo_drafting (lit "hi")))))
               = Connection.id (connection_of Demo.cid)) by reflexivity.
  assert (H5 : db (demo_as "u2" (db (exec handleSendMessage (demo_drafting (lit "hi")))))
               = db (exec handleSendMessage (demo_drafting (lit "hi"))))
    by (vm_compute; reflexivity).
  specialize (H H1 H2 H3 H4 H5 eq_refl).
  destruct H as (m & Hm & Hc & _); [vm_compute; lia|].
  exists m. split; [exact Hm|exact Hc].
Defined.

(** ** The creators grid and the search box *)

Lemma starts_with_refl (s : str) : starts_with s s = true.
Proof. induction s as [|c s IH]; [done|]. cbn. by rewrite N.eqb_refl. Qed.

Lemma includes_refl (s : str) : includes s s = true.
Proof. destruct s; cbn; [done|]. by rewrite N.eqb_refl, starts_with_refl. Qed.

Lemma includes_empty (s : str) : includes s [] = true.
Proof. by destruct s. Qed.

Section SortFacts.
Context {A : Type}.
Implicit Types (compare : A -> A -> Z) (l : list A).

Lemma insert_sorted_split compare x l :
  exists l1 l2, l = l1 ++ l2 /\ insert_sorted compare x l = l1 ++ x :: l2
    /\ (forall y, y ∈ l1 -> 0 < compare x y)
    /\ (forall y, head l2 = Some y -> compare x y <= 0).
Proof.
  induction l as [|y l IH]; cbn.
  - exists [], []. split_and!; [done|done|intros ? []%elem_of_nil|done].
  - destruct (0 <? compare x y) eqn:E.
    + destruct IH as (l1 & l2 & -> & -> & H1 & H2).
      exists (y :: l1), l2. split_and!; [done|done| |done].
      intros z [->|Hz]%elem_of_cons; [lia|auto].
    + exists [], (y :: l). split_and!; [done|done|intros ? []%elem_of_nil|].
      intros z [= <-]. lia.
Qed.

Lemma insert_sorted_Permutation compare x l :
  insert_sorted compare x l ≡ₚ x :: l.
Proof.
  destruct (insert_sorted_split compare x l) as (l1 & l2 & -> & -> & _).
  symmetry. apply Permutation_middle.
Qed.

Lemma sort_with_cons compare x l :
  sort_with compare (x :: l) = insert_sorted compare x (sort_with compare l).
Proof. reflexivity. Qed.

Lemma sort_with_Permutation compare l : sort_with compare l ≡ₚ l.
Proof.
  induction l as [|x l IH]; [done|]. rewrite sort_with_cons.
  rewrite insert_sorted_Permutation. by constructor.
Qed.

(** A comparator that never says "greater" leaves the list as it is. *)
Lemma sort_with_unordered compare l :
  (forall a b, compare a b <= 0) -> sort_with compare l = l.
Proof.
  intros H. induction l as [|x l IH]; [done|]. rewrite sort_with_cons, IH.
  destruct l as [|y l]; [done|]. cbn.
  destruct (0 <? compare x y) eqn:E; [|done]. specialize (H x y). lia.
Qed.

Lemma insert_sorted_ext compare compare' x l :
  (forall a b, compare a b = compare' a b) ->
  insert_sorted compare x l = insert_sorted compare' x l.
Proof. intros H. induction l as [|y l IH]; [done|]. cbn. by rewrite H, IH. Qed.

Lemma sort_with_ext compare compare' l :
  (forall a b, compare a b = compare' a b) ->
  sort_with compare l = sort_with compare' l.
Proof.
  intros H. induction l as [|x l IH]; [done|]. rewrite !sort_with_cons, IH.
  by apply insert_sorted_ext.
Qed.

Variable key : A -> Z.

(** With a comparator that is a difference of keys the result is ordered
    by key, greatest first, and elements of equal key keep their order. *)
Lemma sort_with_key compare l :
  (forall a b, a ∈ l -> b ∈ l -> compare a b = key b - key a) ->
  StronglySorted (fun a b => key b <= key a) (sort_with compare l)
  /\ forall k, filter (fun a => key a = k) (sort_with compare l)
               = filter (fun a => key a = k) l.
Proof.
  induction l as [|x l IH]; intros Hc.
  - split; [constructor|done].
  - destruct IH as [IH1 IH2].
    { intros a b Ha Hb. apply Hc; by apply elem_of_cons; right. }
    rewrite sort_with_cons.
    destruct (insert_sorted_split compare x (sort_with compare l))
      as (l1 & l2 & E & -> & H1 & H2).
    assert (Hin : forall y, y ∈ l1 ++ l2 -> y ∈ l).
    { intros y Hy. rewrite <- E in Hy.
      by rewrite <- (sort_with_Permutation compare l). }
    assert (Hx : forall y, y ∈ l -> compare x y = key y - key x).
    { intros y Hy. apply Hc; [apply list_elem_of_here|by apply elem_of_cons; right]. }
    rewrite E in IH1. split.
    + apply StronglySorted_app in IH1 as (S12 & S1 & S2).
      apply StronglySorted_app. split_and!; [|done|].
      * intros a b Ha [->|Hb]%elem_of_cons; [|by apply S12].
        specialize (H1 a Ha). rewrite Hx in H1; [lia|].
        apply Hin, elem_of_app. by left.
      * constructor; [done|]. apply Forall_forall. intros z Hz.
        destruct l2 as [|y l2]; [by apply elem_of_nil in Hz|].
        assert (key y <= key x).
        { specialize (H2 y eq_refl). rewrite Hx in H2; [lia|].
          apply Hin, elem_of_app. right. apply list_elem_of_here. }
        apply elem_of_cons in Hz as [->|Hz]; [done|].
        apply StronglySorted_inv in S2 as [_ S2].
        rewrite Forall_forall in S2. specialize (S2 z Hz). cbn in S2. lia.
    + intros k. specialize (IH2 k). rewrite E in IH2.
      rewrite filter_cons, <- IH2, !filter_app, filter_cons.
      case_decide as Hk; [|done].
      assert (filter (fun a => key a = k) l1 = []) as ->; [|done].
      apply filter_none. intros y Hy Hky.
      specialize (H1 y Hy). rewrite Hx in H1; [lia|].
      apply Hin, elem_of_app. by left.
Qed.
End SortFacts.

Section RenderingFacts.
Variable toLowerCase : str -> str.
Variable getTime : str -> option Z.

Lemma compare_by_followers (selectedSort : str) (a b : Creator.t) :
  selectedSort = lit "trending" \/ selectedSort = lit "popular" ->
  compare_creators getTime selectedSort a b = Creator.followers b - Creator.followers a.
Proof.
  intros [->| ->]; unfold compare_creators.
  - by rewrite bool_decide_eq_true_2.
  - rewrite (bool_decide_eq_false_2 (lit "popular" = lit "trending")) by (by vm_compute).
    rewrite (bool_decide_eq_false_2 (lit "popular" = lit "new")) by (by vm_compute).
    by rewrite bool_decide_eq_true_2.
Qed.

(** X24.  The creators grid shows the creators that match the search,
    each as often as the list holds it, whatever the sort option.
    Under "trending" and under "popular", which give the same grid, it
    is ordered by followers, most first, and creators with equally many
    followers keep the order of the list.  Under "new", when every
    creation date parses, it is ordered latest first.  Under any other
    option, "all" among them, the matches stand in list order. *)
Theorem creators_grid_order (searchQuery selectedSort : str) (cs : list Creator.t) :
  filteredAndSortedCreators toLowerCase getTime searchQuery selectedSort cs
    ≡ₚ filter (creator_matches toLowerCase searchQuery) cs
  /\ (selectedSort = lit "trending" \/ selectedSort = lit "popular" ->
        StronglySorted more_followers_first
          (filteredAndSortedCreators toLowerCase getTime searchQuery selectedSort cs)
        /\ forall n,
             filter (fun c => Creator.followers c = n)
               (filteredAndSortedCreators toLowerCase getTime searchQuery selectedSort cs)
             = filter (fun c => Creator.followers c = n)
                 (filter (creator_matches toLowerCase searchQuery) cs))
  /\ filteredAndSortedCreators toLowerCase getTime searchQuery (lit "trending") cs
     = filteredAndSortedCreators toLowerCase getTime searchQuery (lit "popular") cs
  /\ (selectedSort = lit "new" ->
        (forall c, c ∈ cs -> is_Some (getTime (Creator.created_at c))) ->
        StronglySorted (later_first getTime)
          (filteredAndSortedCreators toLowerCase getTime searchQuery selectedSort cs))
  /\ (selectedSort ≠ lit "trending" -> selectedSort ≠ lit "new" ->
        selectedSort ≠ lit "popular" ->
        filteredAndSortedCreators toLowerCase getTime searchQuery selectedSort cs
        = filter (creator_matches toLowerCase searchQuery) cs).
Proof.
  unfold filteredAndSortedCreators.
  change (filter _ cs) with (filter (creator_matches toLowerCase searchQuery) cs).
  set (found := filter (creator_matches toLowerCase searchQuery) cs).
  split_and!.
  - apply sort_with_Permutation.
  - intros Hs.
    apply (sort_with_key Creator.followers). intros a b _ _.
    by apply compare_by_followers.
  - apply sort_with_ext. intros a b.
    rewrite !compare_by_followers; auto.
  - intros -> Hparse.
    apply (sort_with_key (fun c => default 0 (getTime (Creator.created_at c)))).
    intros a b Ha Hb.
    assert (Hin : forall c, c ∈ found -> c ∈ cs).
    { intros c Hc. by apply list_elem_of_filter in Hc as [_ Hc]. }
    destruct (Hparse a (Hin a Ha)) as [ta Eta], (Hparse b (Hin b Hb)) as [tb Etb].
    unfold compare_creators.
    rewrite (bool_decide_eq_false_2 (lit "new" = lit "trending")) by (by vm_compute).
    rewrite bool_decide_eq_true_2 by done. by rewrite Eta, Etb.
  - intros H1 H2 H3. apply sort_with_unordered. intros a b.
    unfold compare_creators.
    by rewrite !bool_decide_eq_false_2.
Qed.

Lemma matchesSearch_query (q q' name bio : str) :
  toLowerCase q = toLowerCase q' ->
  matchesSearch toLowerCase q name bio = matchesSearch toLowerCase q' name bio.
Proof. unfold matchesSearch. by intros ->. Qed.

(** X25.  The members grid shows members of the list, in list order,
    and the search does not see the case of the query: two queries with
    the same lower-casing show the same members.  A member whose name is
    the query is shown, a member shown who has no bio has a name whose
    lower-casing includes that of the query, and when the empty string
    is its own lower-casing the empty query shows every member. *)
Theorem members_grid_search (searchQuery : str) (ms : list Member.t) :
  filteredMembers toLowerCase searchQuery ms `sublist_of` ms
  /\ (forall q', toLowerCase q' = toLowerCase searchQuery ->
        filteredMembers toLowerCase q' ms = filteredMembers toLowerCase searchQuery ms)
  /\ (forall m, m ∈ ms -> Member.name m = searchQuery ->
        m ∈ filteredMembers toLowerCase searchQuery ms)
  /\ (forall m, m ∈ filteredMembers toLowerCase searchQuery ms -> Member.bio m = [] ->
        includes (toLowerCase (Member.name m)) (toLowerCase searchQuery) = true)
  /\ (toLowerCase [] = [] -> filteredMembers toLowerCase [] ms = ms).
Proof.
  unfold filteredMembers. split_and!.
  - apply sublist_filter.
  - intros q' Hq. apply list_filter_iff. intros m.
    by rewrite (matchesSearch_query q' searchQuery).
  - intros m Hm Hn. apply list_elem_of_filter. split; [|done].
    unfold matchesSearch. by rewrite Hn, includes_refl.
  - intros m [Hm _]%list_elem_of_filter Hb. unfold matchesSearch in Hm.
    rewrite Hb in Hm. cbn in Hm. by rewrite orb_false_r in Hm.
  - intros H0. apply filter_all. intros m _.
    unfold matchesSearch. by rewrite H0, includes_empty.
Qed.
End RenderingFacts.

Example demo_grid :
  Creator.name <$>
    filteredAndSortedCreators ascii_lower demo_time (lit "B") (lit "trending")
      [Creator.with_followers 3 (creator_of ∅ ∅ Demo.ann);
       Creator.with_followers 7 (creator_of ∅ ∅ Demo.bob);
       Creator.with_followers 9 (creator_of ∅ ∅ (Demo.person "c3" "Abby" creator))]
  = [lit "Abby"; lit "Bob"].
Proof. reflexivity. Qed.

(** ** The member card *)

Lemma pending_from_nil_iff (d : database) (a b : str) :
  pending_from a b d = [] <-> ¬ asked d a b.
Proof.
  unfold pending_from, asked. split.
  - intros H (r & Hr & H1 & H2 & H3). apply fmap_nil_inv in H.
    assert (Hin : r ∈ filter (fun r => sender_id r = a ∧ recipient_id r = b
                                        ∧ cr_status r = pending)
                    (connection_requests d))
      by (apply list_elem_of_filter; auto).
    rewrite H in Hin. by apply elem_of_nil in Hin.
  - intros H. rewrite filter_none; [done|].
    intros r Hr (H1 & H2 & H3). apply H. by exists r.
Qed.

Lemma nothing_pending_nothing_done (w : World) (memberId : str) :
  pending_from memberId (user w) (db w) = [] ->
  upcoming (net w) 0 ≠ Crashed ->
  exec (handleAcceptConnectionRequest memberId) w = set_net (drop 1 (net w)) w
  /\ exec (handleDeclineConnectionRequest memberId) w = set_net (drop 1 (net w)) w.
Proof.
  intros Hp Hc. destruct w as [u d nt st v ts t tm en dr]; cbn [net user db] in *.
  unfold exec, handleAcceptConnectionRequest, handleDeclineConnectionRequest,
    bind, gets, try_catch, select.
  cbn [user db net]. rewrite Hp.
  destruct nt as [|[] nt]; split; try reflexivity; exfalso; apply Hc; reflexivity.
Qed.

(** X26.  What a member's card offers after a served [loadMembers]
    pass.  It offers Message and Connected exactly for a member joined
    to the user by a colleague row.  For a member not so joined it
    offers Accept and Decline exactly when the user has a pending
    request of their own to the member or the member's id names a
    property of [Object.prototype], and Connect otherwise, a member with
    a pending request to the user included.  Accept and Decline look for
    a pending request from the member to the user: when there is none
    and the lookup does not throw, pressing either uses up one gateway
    call and changes nothing else. *)
Theorem member_card_actions (w : World) (m : Member.t) :
  served 5 (net w) = true ->
  m ∈ members (ui (exec loadMembers w)) ->
  (member_buttons m = [MessageButton; ConnectedButton]
     <-> linked (db w) (user w) (Member.id m))
  /\ (member_buttons m = [AcceptButton; DeclineButton]
     <-> ¬ linked (db w) (user w) (Member.id m)
         /\ (asked (db w) (user w) (Member.id m)
             \/ Member.id m ∈ object_prototype))
  /\ (member_buttons m = [ConnectButton]
     <-> ¬ linked (db w) (user w) (Member.id m)
         /\ ¬ asked (db w) (user w) (Member.id m)
         /\ Member.id m ∉ object_prototype)
  /\ (¬ asked (db w) (Member.id m) (user w) ->
      upcoming (net w) 5 ≠ Crashed ->
      forall b, b = AcceptButton \/ b = DeclineButton ->
        exec (press_member m b) (exec loadMembers w)
        = set_net (drop 6 (net w)) (exec loadMembers w)).
Proof.
  intros H Hm.
  assert (Hbuttons :
    (Member.connected m = true <-> linked (db w) (user w) (Member.id m))
    /\ (Member.requestStatus m = Some req_pending
        \/ Member.requestStatus m = Some req_none)
    /\ (Member.requestStatus m = Some req_pending
        <-> asked (db w) (user w) (Member.id m) \/ Member.id m ∈ object_prototype)).
  { rewrite (loadMembers_served w H) in Hm.
    apply list_elem_of_fmap in Hm as (p & -> & _). cbn. split.
    - rewrite bool_decide_eq_true, elem_of_list_to_set. apply connected_with_iff.
    - unfold asked. rewrite <- sent_request_iff, <- pending_map_reads.
      destruct (reads_truthy _ _).
      + split; [by left|]. done.
      + split; [by right|]. done. }
  destruct Hbuttons as (Hc & Hr & Hp). unfold member_buttons.
  split_and!.
  - destruct (Member.connected m).
    + split; [intros _; by apply Hc|done].
    + split; [|intros Hl; by apply Hc in Hl].
      by destruct (Member.requestStatus m) as [[]|].
  - destruct (Member.connected m).
    + split; [done|]. intros [Hn _]. destruct Hn. by apply Hc.
    + destruct Hr as [Hr|Hr]; rewrite Hr in *.
      * split; [intros _|done]. split; [|by apply Hp].
        intros Hl. by apply Hc in Hl.
      * split; [done|]. intros [_ Ha]. by apply Hp in Ha.
  - destruct (Member.connected m).
    + split; [done|]. intros [Hn _]. destruct Hn. by apply Hc.
    + destruct Hr as [Hr|Hr]; rewrite Hr in *.
      * split; [done|]. intros (_ & Hn & Hi).
        destruct Hp as [Hp _]. destruct (Hp eq_refl); contradiction.
      * split; [intros _|done]. split_and!.
        -- intros Hl. by apply Hc in Hl.
        -- intros Ha. destruct Hp as [_ Hp]. by specialize (Hp (or_introl Ha)).
        -- intros Hi. destruct Hp as [_ Hp]. by specialize (Hp (or_intror Hi)).
  - intros Hnone Hnet b Hb.
    destruct (loadMembers_served_state w H) as (_ & _ & _ & Hdb & Hu & Hn).
    destruct (nothing_pending_nothing_done (exec loadMembers w) (Member.id m)) as [Ha Hd].
    + rewrite Hdb, Hu. by apply pending_from_nil_iff.
    + rewrite Hn. unfold upcoming in *. by rewrite lookup_drop.
    + rewrite Hn, drop_drop in Ha, Hd. destruct Hb as [-> | ->]; [exact Ha|exact Hd].
Qed.

Lemma member_card_actions_witness :
  member_buttons demo_fay = [AcceptButton; DeclineButton]
  /\ exec (press_member demo_fay AcceptButton) (exec loadMembers demo_asked)
     = set_net (drop 6 (net demo_asked)) (exec loadMembers demo_asked).
Proof.
  assert (H5 : served 5 (net demo_asked) = true) by reflexivity.
  assert (Hm : demo_fay ∈ members (ui (exec loadMembers demo_asked))).
  { rewrite (loadMembers_served demo_asked H5).
    apply list_elem_of_fmap. exists Demo.fay. split; [reflexivity|].
    vm_compute. do 2 apply list_elem_of_further. apply list_elem_of_here. }
  destruct (member_card_actions demo_asked demo_fay H5 Hm) as (_ & _ & _ & Hp).
  split; [reflexivity|].
  apply Hp; [|vm_compute; discriminate|by left].
  intros (r & Hr & H1 & _). vm_compute in Hr.
  apply list_elem_of_singleton in Hr as ->. vm_compute in H1. discriminate.
Defined.

(** The plain object at work: the member named after an inherited
    property shows as pending and is offered Accept and Decline, the
    other one is offered Connect. *)
Example inherited_reads_pending :
  (fun m => (Member.name m, Member.requestStatus m, member_buttons m))
    <$> members (ui (exec loadMembers demo_constructor))
  = [(lit "Con", Some req_pending, [AcceptButton; DeclineButton]);
     (lit "Cid", Some req_none, [ConnectButton])].
Proof. vm_compute. reflexivity. Qed.

(** ** The conversation pane *)

Lemma fresh_id_above (used : list N) (i : N) : i ∈ used -> (i < fresh_id used)%N.
Proof.
  unfold fresh_id. induction used as [|x l IH]; [by intros ?%elem_of_nil|].
  intros [->|Hi]%elem_of_cons; cbn; [lia|]. specialize (IH Hi). lia.
Qed.

Lemma handleSendMessage_reloads (w : World) (conn : Connection.t) :
  selectedConnection (ui w) = Some conn ->
  forallb is_white_space (messageInput (ui w)) = false ->
  served 2 (net w) = true ->
  messages (ui (exec handleSendMessage w))
    = message_of <$> inbox (user w) (db (exec handleSendMessage w))
  /\ selectedConnection (ui (exec handleSendMessage w)) = Some conn.
Proof.
  intros Hsel Hws H.
  destruct w as [u d nt st v ts t tm en dr]. cbn [ui net user db now toasts] in *.
  unfold exec, handleSendMessage, bind, gets. cbn [ui].
  rewrite Hsel, trim_blank, Hws. cbn [negb].
  destruct nt as [|[] [|[] nt]]; try discriminate H; split; try reflexivity; exact Hsel.
Qed.

(** X27.  The sender does not get to see what they sent.  After a
    served [handleSendMessage] to someone else the row is in the store,
    but the message list is the one the store gave before the send, no
    entry of it is the new row, and the conversation pane shows messages
    sent by the selected connection only. *)
Theorem sent_message_not_shown (w : World) (conn : Connection.t) :
  selectedConnection (ui w) = Some conn ->
  forallb is_white_space (messageInput (ui w)) = false ->
  served 2 (net w) = true ->
  Connection.id conn ≠ user w ->
  messages_table (db (exec handleSendMessage w))
    = messages_table (db w)
      ++ [new_message (user w) (Connection.id conn) (messageInput (ui w)) (now w) (db w)]
  /\ messages (ui (exec handleSendMessage w)) = message_of <$> inbox (user w) (db w)
  /\ (forall m, m ∈ messages (ui (exec handleSendMessage w)) ->
        Message.id m ≠ fresh_id (msg_id <$> messages_table (db w)))
  /\ thread (ui (exec handleSendMessage w))
     = filter (fun m => Message.sender_id m = Connection.id conn)
         (message_of <$> inbox (user w) (db w)).
Proof.
  intros Hsel Hws H Hother.
  assert (H1 : upcoming (net w) 0 = Served).
  { destruct (net w) as [|[] ?]; done. }
  pose proof (handleSendMessage_inserts w conn Hsel Hws H1) as Hdb.
  destruct (handleSendMessage_reloads w conn Hsel Hws H) as [Hms Hsc].
  assert (Hinbox : inbox (user w) (db (exec handleSendMessage w)) = inbox (user w) (db w)).
  { rewrite Hdb. unfold inbox, profile_of, on_messages. cbn.
    rewrite filter_app, filter_cons_False, filter_nil, app_nil_r; [done|].
    cbn. done. }
  split_and!.
  - by rewrite Hdb.
  - by rewrite Hms, Hinbox.
  - intros m. rewrite Hms, Hinbox. unfold inbox.
    rewrite <- list_fmap_compose.
    intros (row & -> & Hrow)%list_elem_of_fmap. cbn.
    apply subseteq_take, order_desc_elem, list_elem_of_filter in Hrow as [_ Hrow].
    assert (msg_id row < fresh_id (msg_id <$> messages_table (db w)))%N; [|lia].
    apply fresh_id_above, list_elem_of_fmap. by exists row.
  - unfold thread. by rewrite Hsc, Hms, Hinbox.
Qed.

Lemma sent_message_not_shown_witness :
  served 2 (net (demo_drafting (lit "hi"))) = true
  /\ messages (ui (exec handleSendMessage (demo_drafting (lit "hi"))))
     = message_of <$> inbox (lit "u1") Demo.store.
Proof.
  split; [reflexivity|].
  destruct (sent_message_not_shown (demo_drafting (lit "hi")) (connection_of Demo.cid))
    as (_ & H & _); [reflexivity|reflexivity|reflexivity|vm_compute; discriminate|].
  exact H.
Defined.

(** ** From the member card to the conversation *)

Lemma loadConnections_sets_connections (w : World) :
  members (ui (exec loadConnections w)) = members (ui w)
  /\ selectedConnection (ui (exec loadConnections w)) = selectedConnection (ui w).
Proof.
  destruct w as [u d nt st v ts t tm en dr].
  unfold exec, loadConnections, bind, gets, try_catch, select.
  cbn [user db net]. destruct nt as [|[] [|[] nt]]; split; reflexivity.
Qed.

Lemma find_id_Some (l : list Connection.t) (i : str) :
  i ∈ Connection.id <$> l ->
  exists c, List.find (fun c => bool_decide (Connection.id c = i)) l = Some c
            /\ c ∈ l /\ Connection.id c = i.
Proof.
  induction l as [|x l IH]; [by intros ?%elem_of_nil|].
  intros Hi. cbn. case_bool_decide as Hx.
  - exists x. split_and!; [done|apply list_elem_of_here|done].
  - apply elem_of_cons in Hi as [Hi|Hi]; [by destruct Hx|].
    destruct (IH Hi) as (c & Hf & Hc & Hid). exists c.
    split_and!; [done|by apply list_elem_of_further|done].
Qed.

(** X28.  The Message button finds its conversation.  After
    [loadMembers] and [loadConnections] were served from a store in
    which the user has at most 50 colleague rows in each direction,
    pressing Message on a member shown as connected selects a connection
    of the list with that member's id. *)
Theorem message_button_opens_chat (w : World) (m : Member.t) :
  served 7 (net w) = true ->
  (length (outgoing_colleagues (user w) (db w)) <= 50)%nat ->
  (length (incoming_colleagues (user w) (db w)) <= 50)%nat ->
  m ∈ members (ui (exec loadConnections (exec loadMembers w))) ->
  Member.connected m = true ->
  exists conn,
    conn ∈ connections (ui (exec loadConnections (exec loadMembers w)))
    /\ Connection.id conn = Member.id m
    /\ selectedConnection
         (ui (exec (press_member m MessageButton)
                (exec loadConnections (exec loadMembers w))))
       = Some conn.
Proof.
  intros H7 Hout Hin Hm Hc.
  change 7%nat with (5 + 2)%nat in H7. rewrite served_add in H7.
  apply andb_true_iff in H7 as [H5 H2].
  destruct (loadMembers_served_state w H5) as (_ & _ & _ & Hdb & Hu & Hnet).
  set (w1 := exec loadMembers w) in *. rewrite <- Hnet in H2.
  destruct (loadConnections_sets_connections w1) as [Hms _].
  rewrite Hms in Hm. unfold w1 in Hm. rewrite (loadMembers_served w H5) in Hm.
  apply list_elem_of_fmap in Hm as (p & -> & Hp). cbn in Hc |- *.
  apply bool_decide_eq_true, elem_of_list_to_set in Hc.
  assert (Hprof : exists q, profile_of (db w) (p_id p) = Some q /\ p_id q = p_id p).
  { unfold member_profiles in Hp.
    apply subseteq_take, list_elem_of_filter in Hp as [_ Hp].
    unfold profile_of.
    destruct (List.find _ (profiles (db w))) as [q|] eqn:Hf.
    - exists q. split; [done|]. apply find_some in Hf as [_ Hq].
      by apply bool_decide_eq_true in Hq.
    - apply list_elem_of_In in Hp. eapply find_none in Hf; [|exact Hp].
      cbn in Hf. by rewrite bool_decide_eq_true_2 in Hf. }
  destruct Hprof as (q & Hq & Hqid).
  assert (Hlisted : p_id p ∈ Connection.id <$> connections (ui (exec loadConnections w1))).
  { rewrite (loadConnections_served w1 H2), Hu, Hdb.
    unfold outgoing_with_profiles, incoming_with_profiles.
    rewrite !take_ge by (by rewrite length_fmap).
    set (acc := foldl add_connection (∅, []) _).
    assert (Hacc : deduplicated acc
                   /\ forall p0, Some p0 ∈ profile_of (db w) <$> outgoing_colleagues (user w) (db w) ->
                        p_id p0 ∈ Connection.id <$> acc.2).
    { destruct (add_connections_spec
                  (profile_of (db w) <$> outgoing_colleagues (user w) (db w)) (∅, []))
        as (Hd & _ & _ & _ & Hall); [|by split].
      split; [constructor|]. intros i. cbn. set_solver. }
    destruct Hacc as [Hd Hall].
    destruct (add_connections_spec
                (profile_of (db w) <$> incoming_colleagues (user w) (db w)) acc Hd)
      as (_ & _ & _ & Hkeep & Hall').
    rewrite <- Hqid.
    apply elem_of_app in Hc as [Hc|Hc].
    - apply Hkeep, Hall. rewrite <- Hq. apply list_elem_of_fmap. by exists (p_id p).
    - apply Hall'. rewrite <- Hq. apply list_elem_of_fmap. by exists (p_id p). }
  destruct (find_id_Some _ _ Hlisted) as (conn & Hf & Hconn & Hid).
  exists conn. split_and!; [done|done|].
  unfold exec at 1. unfold press_member, bind, gets. cbn [Member.id member_of].
  rewrite Hf. reflexivity.
Qed.

Lemma message_button_opens_chat_witness :
  served 7 (net Demo.world) = true
  /\ exists conn,
       Connection.id conn = lit "u2"
       /\ selectedConnection
            (ui (exec (press_member
                         (member_of (foldl count_connection ∅ (all_colleagues Demo.store))
                            {[lit "u2"; lit "u3"]} ∅ Demo.cid)
                         MessageButton)
                   (exec loadConnections (exec loadMembers Demo.world))))
          = Some conn.
Proof.
  split; [reflexivity|].
  destruct (message_button_opens_chat Demo.world
              (member_of (foldl count_connection ∅ (all_colleagues Demo.store))
                 {[lit "u2"; lit "u3"]} ∅ Demo.cid))
    as (conn & _ & Hid & Hsel).
  - reflexivity.
  - vm_compute. lia.
  - vm_compute. lia.
  - destruct (loadConnections_sets_connections (exec loadMembers Demo.world)) as [-> _].
    vm_compute. apply list_elem_of_here.
  - vm_compute. reflexivity.
  - exists conn. split; [exact Hid|exact Hsel].
Defined.

(** ** Exceptions stay inside *)

Lemma returns_ret {A} (a : A) : returns (ret a).
Proof. intros w. by exists a, w. Qed.

Lemma returns_gets {A} (f : World -> A) : returns (gets f).
Proof. intros w. by exists (f w), w. Qed.

Lemma returns_modify (f : World -> World) : returns (modify f).
Proof. intros w. by exists tt, (f w). Qed.

Lemma returns_bind {A B} (m : M A) (k : A -> M B) :
  returns m -> (forall a, returns (k a)) -> returns (bind m k).
Proof.
  intros Hm Hk w. unfold bind. destruct (Hm w) as (a & w' & ->). apply Hk.
Qed.

(** Whatever the body does, a [try] whose handler returns returns. *)
Lemma returns_try_catch (body handler : M unit) :
  returns handler -> returns (try_catch body handler).
Proof.
  intros Hh w. unfold try_catch. destruct (body w) as [a w'|w']; [by exists a, w'|apply Hh].
Qed.

Lemma returns_random_id : returns random_id.
Proof. intros w. by eexists _, _. Qed.

Ltac returns_steps :=
  repeat first
    [ match goal with
      | |- forall _, _ => intros ?
      | |- returns (ret _) => apply returns_ret
      | |- returns (gets _) => apply returns_gets
      | |- returns (modify _) => apply returns_modify
      | |- returns random_id => apply returns_random_id
      | |- returns (bind _ _) => apply returns_bind
      | |- returns (try_catch _ _) => apply returns_try_catch
      | |- returns (match ?x with _ => _ end) => destruct x
      | |- returns (let _ := _ in _) => cbv zeta
      end
    | progress unfold addToast, removeToast, setTimeout, setCreators, setMembers,
        setConnections, setMessages, setCreatorsLoaded, setMembersLoaded,
        setMessageInput, setSelectedConnection, setPendingRequests,
        setCachedCreators, setCachedMembers, removeCachedMembers ].

Lemma loads_return :
  returns loadCreators /\ returns loadMembers /\ returns loadConnections
  /\ returns loadMessages.
Proof.
  unfold loadCreators, loadMembers, loadConnections, loadMessages.
  split_and!; returns_steps.
Qed.

Lemma run_task_returns (tk : task) : returns (run_task tk).
Proof.
  destruct loads_return as (Hc & Hm & _).
  destruct tk; cbn [run_task]; [exact Hc|exact Hm|returns_steps].
Qed.

(** A gateway call can throw: the property below is one of the
    handlers, not of the model. *)
Example select_throws :
  select profiles (Demo.world_with [Crashed]) = Threw Demo.world.
Proof. reflexivity. Qed.

(** X29.  No exception leaves a load, a change callback, a handler or a
    timer callback: whatever the gateway does, each of them runs to its
    end and returns. *)
Theorem no_exception_escapes (e : event) (w : World) :
  exists w', handle e w = Returned tt w'.
Proof.
  assert (H : returns (handle e)).
  { destruct loads_return as (Hc & Hm & Hn & Hg).
    destruct e; cbn [handle];
      unfold mount, on_follow_change, on_profile_update, on_member_connection_change,
        on_connection_request_change, handleFollowCreator, handleUnfollowCreator,
        handleConnectMember, handleAcceptConnectionRequest,
        handleDeclineConnectionRequest, handleDisconnectMember, handleSendMessage,
        idle;
      try (returns_steps; fail);
      try (returns_steps; assumption).
    intros w0. unfold fire. destruct (earliest (timers w0)) as [[due tk]|].
    - apply run_task_returns.
    - by exists tt, w0. }
  destruct (H w) as ([] & w' & Hw). by exists w'.
Qed.
